(** * BEM++ fast multipole assembly: a shallow embedding

    The development follows the C++ sources of the library:
    - [Cxx]: exceptions, call outcomes and unsigned arithmetic;
    - [Scalars]: the result types the templates are instantiated with
      ([double] and [std::complex<double>]), over real numbers;
    - [Fmm]: [FmmTransform], [FmmHighFreq] (fmm_transform.cpp);
    - [Assembler]: [FmmGlobalAssembler::assembleDetachedWeakForm];
    - [OctreeLists]: neighbour and interaction lists of [OctreeNode];
    - [GridFun]: [GridFunction::exportToVtk] and [evaluateAtSpecialPoints];
    - [Integrator]: [SeparableNumericalTestKernelTrialIntegrator];
    - [Examples]: concrete objects to run the definitions on;
    - [Arithmetic], [FmmSeries], [Boxes]: subtraction of scalars, the
      terms of the M2L series, bounding boxes;
    - [GridFunOps]: construction, coefficients, arithmetic and
      projections of [GridFunction] (grid_function.cpp);
    - [Geometry]: [ConcreteGeometry::calculateNormals], on IEEE doubles;
    - [Identity]: [IdentityOperator] (identity_operator.cpp);
    - [IntegratorVariants]: the overload of [integrateCpu] for one
      element against many;
    - [MoreExamples]: further concrete objects;
    - [FmmDouble]: [FmmHighFreq::M2M] and [L2L] on IEEE doubles.
    The modules whose names end in [Facts] hold the properties.

    Two number models are used.  Where a statement depends on what the
    arithmetic of the machine does (rounding, overflow, NaN), the code
    is modelled on binary64 numbers, Rocq's primitive floats: [Geometry]
    and [FmmDouble].  Elsewhere a [double] is a real number: the
    statements made there are about control flow, exceptions, sizes, the
    order in which a loop combines its terms and the formula of the
    truncation orders, and they name in their hypotheses the range of
    values in which the unsigned arithmetic of the code does not wrap
    around. *)

From Stdlib Require Import Reals Lra Lia ZArith ZifyNat List String Bool Arith.
From Stdlib Require Floats.
Import ListNotations.

(* ================================================================== *)
(** * C++ run-time notions *)
(* ================================================================== *)

Module Cxx.

(** The standard exception classes the sources throw.  In the C++ class
    hierarchy [std::invalid_argument] derives from [std::logic_error];
    [std::runtime_error] does not. *)
Inductive exception : Type :=
| logic_error (what : string)
| invalid_argument (what : string)
| runtime_error (what : string).

Definition is_logic_error (e : exception) : bool :=
  match e with
  | logic_error _ | invalid_argument _ => true
  | runtime_error _ => false
  end.

(** What a call does: it returns, it throws, or it runs into behaviour
    the language leaves undefined (an index outside a [std::vector], the
    use of an uninitialised local). *)
Inductive outcome (A : Type) : Type :=
| Returned (a : A)
| Thrown (e : exception)
| Undefined.

Arguments Returned {A} a.
Arguments Thrown {A} e.
Arguments Undefined {A}.

Definition bind {A B} (c : outcome A) (k : A -> outcome B) : outcome B :=
  match c with
  | Returned a => k a
  | Thrown e => Thrown e
  | Undefined => Undefined
  end.

Definition returns {A} (c : outcome A) : bool :=
  match c with Returned _ => true | _ => false end.

(** [unsigned int] arithmetic wraps modulo 2^32. *)
Definition u32 (z : Z) : Z := (z mod 2 ^ 32)%Z.

(** A value an [unsigned int] can hold. *)
Definition unsigned_int (n : nat) : Prop := (Z.of_nat n < 2 ^ 32)%Z.

(** [v[i]] for a [std::vector]: defined inside the bounds only. *)
Definition vec_get {A} (v : list A) (i : Z) : option A :=
  if ((0 <=? i) && (i <? Z.of_nat (List.length v)))%Z
  then nth_error v (Z.to_nat i) else None.

(** [v[i] = a]; outside the bounds the write is undefined behaviour. *)
Fixpoint list_set {A} (v : list A) (n : nat) (a : A) : list A :=
  match v, n with
  | [], _ => []
  | _ :: t, O => a :: t
  | h :: t, S n' => h :: list_set t n' a
  end.

Definition vec_set {A} (v : list A) (i : Z) (a : A) : option (list A) :=
  if ((0 <=? i) && (i <? Z.of_nat (List.length v)))%Z
  then Some (list_set v (Z.to_nat i) a) else None.

Definition of_option {A} (o : option A) : outcome A :=
  match o with Some a => Returned a | None => Undefined end.

(** [for (i : items) body], stopping at the first iteration that does not
    complete. *)
Fixpoint for_each {I S : Type} (body : I -> S -> outcome S) (items : list I)
    (s : S) : outcome S :=
  match items with
  | [] => Returned s
  | i :: rest => bind (body i s) (for_each body rest)
  end.

(** A computation over a mutable state [S]: when it throws, the state is
    what it was at the [throw]. *)
Definition prog (S A : Type) : Type := S -> outcome A * S.

Definition pret {S A} (a : A) : prog S A := fun s => (Returned a, s).

Definition pbind {S A B} (c : prog S A) (k : A -> prog S B) : prog S B :=
  fun s =>
    match c s with
    | (Returned a, s') => k a s'
    | (Thrown e, s') => (Thrown e, s')
    | (Undefined, s') => (Undefined, s')
    end.

Definition throw {S A} (e : exception) : prog S A := fun s => (Thrown e, s).

Definition modify {S} (f : S -> S) : prog S unit :=
  fun s => (Returned tt, f s).

(** The reading of the sentence on unimplemented paths: the call ends in
    an exception of class [std::logic_error]. *)
Definition raises_logic_error {S A} (run : outcome A * S) : Prop :=
  exists e, fst run = Thrown e /\ is_logic_error e = true.

(** [int] conversions of unsigned sizes wrap into the 32-bit signed
    range. *)
Definition to_int (z : Z) : Z := ((z + 2 ^ 31) mod 2 ^ 32 - 2 ^ 31)%Z.

End Cxx.

Import Cxx.

Declare Scope cxx_scope.
Delimit Scope cxx_scope with cxx.
Notation "x <- c ;; k" := (bind c (fun x => k))
  (at level 61, c at next level, right associativity) : cxx_scope.

Declare Scope prog_scope.
Delimit Scope prog_scope with prog.
Notation "x <- c ;; k" := (pbind c (fun x => k))
  (at level 61, c at next level, right associativity) : prog_scope.
Notation "c ;; k" := (pbind c (fun _ => k))
  (at level 61, right associativity) : prog_scope.

(* ================================================================== *)
(** * Scalar types *)
(* ================================================================== *)

Module Scalars.

Local Open Scope R_scope.

(** The operations of a [ValueType] that fmm_transform.cpp relies on.
    [CoordinateType] is its real type, here [R]. *)
Class ValueType (V : Type) : Type := {
  vzero : V;
  vone : V;
  vadd : V -> V -> V;
  vmul : V -> V -> V;
  vopp : V -> V;
  vdiv : V -> V -> V;
  vexp : V -> V;
  vsqrt : V -> V;
  of_real : R -> V;
  vreal : V -> R;
  vimag : V -> R;
  vabs : V -> R;
  (** [getI<ValueType>()]: throws unless the type is complex. *)
  getI : outcome V;
  (** [boost::is_complex<ValueType>()] *)
  is_complex : bool
}.

(** What the proofs use of a scalar type: its modulus is never
    negative ([double] and [complex] satisfy it, instances [double_Laws]
    and [complex_Laws] below). *)
Class ValueTypeLaws (V : Type) `{ValueType V} : Prop := {
  vabs_nonneg : forall a, 0 <= vabs a
}.

(** ** [double] *)

#[export] Instance double_ValueType : ValueType R := {
  vzero := 0;
  vone := 1;
  vadd := Rplus;
  vmul := Rmult;
  vopp := Ropp;
  vdiv := Rdiv;
  vexp := exp;
  vsqrt := sqrt;
  of_real := fun r => r;
  vreal := fun x => x;
  vimag := fun _ => 0;
  vabs := Rabs;
  getI := Thrown (invalid_argument
            "getI(): can only be called for complex result types");
  is_complex := false
}.

(** ** [std::complex<double>] *)

Record complex : Type := mkC { re : R; im : R }.

Definition Cadd (a b : complex) := mkC (re a + re b) (im a + im b).
Definition Cmul (a b : complex) :=
  mkC (re a * re b - im a * im b) (re a * im b + im a * re b).
Definition Copp (a : complex) := mkC (- re a) (- im a).
Definition Cnorm2 (a : complex) := re a * re a + im a * im a.
Definition Cabs (a : complex) := sqrt (Cnorm2 a).
Definition Cdiv (a b : complex) :=
  mkC ((re a * re b + im a * im b) / Cnorm2 b)
      ((im a * re b - re a * im b) / Cnorm2 b).
Definition Cexp (a : complex) :=
  mkC (exp (re a) * cos (im a)) (exp (re a) * sin (im a)).
(** [std::sqrt] on a complex number: the principal square root, with
    the branch cut along the negative real axis.  On the cut itself the
    C++ function follows the sign of the zero imaginary part, which a
    real number does not carry: this definition takes the side of +0. *)
Definition Csqrt (a : complex) :=
  mkC (sqrt ((Cabs a + re a) / 2))
      ((if Rle_dec 0 (im a) then 1 else -1) * sqrt ((Cabs a - re a) / 2)).

#[export] Instance complex_ValueType : ValueType complex := {
  vzero := mkC 0 0;
  vone := mkC 1 0;
  vadd := Cadd;
  vmul := Cmul;
  vopp := Copp;
  vdiv := Cdiv;
  vexp := Cexp;
  vsqrt := Csqrt;
  of_real := fun r => mkC r 0;
  vreal := re;
  vimag := im;
  vabs := Cabs;
  getI := Returned (mkC 0 1);
  is_complex := true
}.

(** Integer powers, [pow(x, n)]. *)
Fixpoint vpow {V} `{ValueType V} (x : V) (n : nat) : V :=
  match n with
  | O => vone
  | S n' => vmul x (vpow x n')
  end.

End Scalars.

Import Scalars.

(* ================================================================== *)
(** * fmm_transform.cpp *)
(* ================================================================== *)

Module Fmm.

Local Open Scope R_scope.
Local Open Scope cxx_scope.

(** [arma::Col<CoordinateType>] of three entries. *)
Record vec3 : Type := mkVec3 { vx : R; vy : R; vz : R }.

Definition vec3_sub (a b : vec3) : vec3 :=
  mkVec3 (vx a - vx b) (vy a - vy b) (vz a - vz b).
Definition vec3_scale_inv (a : vec3) (r : R) : vec3 :=
  mkVec3 (vx a / r) (vy a / r) (vz a / r).
Definition dot (a b : vec3) : R := vx a * vx b + vy a * vy b + vz a * vz b.
Definition norm2 (a : vec3) : R := sqrt (dot a a).

(** An [InterpolateOnSphere<ValueType>(Lold, Lnew)] object
    (interpolate_on_sphere.hpp): it is determined by the two orders it
    was constructed with. *)
Record InterpolateOnSphere : Type :=
  mkInterpolateOnSphere { interp_Lold : nat; interp_Lnew : nat }.

(** The slots of the interpolator vectors before the constructor body
    overwrites them. *)
Definition InterpolateOnSphere_default : InterpolateOnSphere :=
  mkInterpolateOnSphere 0 0.

(** The answer of [amos::zbesh]: the Bessel value, the underflow count
    and the error flag. *)
Record zbesh_result : Type :=
  mkZbesh { cyr : R; cyi : R; nz : Z; ierr : Z }.

(** Routines fmm_transform.cpp calls and does not define. *)
Class Externals (V : Type) : Type := {
  (** [legendre_roots(N, roots, weights)]: entry [i] of each array. *)
  legendre_root : nat -> nat -> R;
  legendre_weight : nat -> nat -> R;
  (** [boost::math::legendre_p(l, x)] *)
  legendre_p : nat -> R -> R;
  (** [amos::zbesh(&zr,&zi,&nu,&kode,&kind,&N,&cyr,&cyi,&nz,&ierr)] *)
  zbesh : R -> R -> R -> Z -> Z -> Z -> zbesh_result;
  (** [InterpolateOnSphere::interpolate(coefficientsOld, coefficientsNew)] *)
  sphere_interpolate : InterpolateOnSphere -> list V -> list V
}.

(** [for (unsigned level = lo; level <= hi; level++)] with [lo <= hi + 1]. *)
Definition levels_from_to (lo hi : nat) : list nat := seq lo (S hi - lo).

(** The index [level - m_topLevel] in [unsigned int] arithmetic. *)
Definition level_index (level : nat) : Z := u32 (Z.of_nat level - 2).

Definition log10 (x : R) : R := ln x / ln 10.

Section WithValueType.

Context {V : Type} `{VT : ValueType V} `{EX : Externals V}.

(** [FmmTransform<ValueType>::interpolate] (the base class default). *)
Definition FmmTransform_interpolate (levelOld levelNew : nat)
    (coefficientsOld : list V) : list V :=
  coefficientsOld.

(** The members of [FmmHighFreq] and of its base [FmmTransform]. *)
Record FmmHighFreq : Type := mkFmmHighFreq {
  m_kappa : V;
  m_Ls : list nat;
  m_interpolatorsUpwards : list InterpolateOnSphere;
  m_interpolatorsDownwards : list InterpolateOnSphere;
  quadraturePointCount : nat;
  m_levels : nat;
  m_isCompressedM2L : bool;
  m_quadraturePoints : list vec3;
  m_quadratureWeights : list R
}.

(** The direction [khat] of quadrature point [(ntheta, m)] for order
    [L]: [costheta] from [legendre_roots(L+1, ...)], [phi] on a regular
    grid of [2L+1] points. *)
Definition costheta (L ntheta : nat) : R := legendre_root (L + 1) ntheta.
Definition sintheta (L ntheta : nat) : R :=
  sqrt (1 - costheta L ntheta * costheta L ntheta).
Definition cosphi (L m : nat) : R := cos (2 * PI * INR m / INR (2 * L + 1)).
Definition sinphi (L m : nat) : R := sin (2 * PI * INR m / INR (2 * L + 1)).

Definition khat (L ntheta m : nat) : vec3 :=
  mkVec3 (sintheta L ntheta * cosphi L m)
         (sintheta L ntheta * sinphi L m)
         (costheta L ntheta).

(** The double loop [for ntheta < L+1) for (m <= 2*L)] in the order in
    which it increments [p]. *)
Definition quadrature_loop {A} (L : nat) (f : nat -> nat -> A) : list A :=
  flat_map (fun ntheta => map (f ntheta) (seq 0 (2 * L + 1))) (seq 0 (L + 1)).

(** [Llevel] in the constructor, with [prec = 8] and [boxsize = 2]. *)
Definition prec : R := 8.
Definition boxsize : R := 2.
Definition Llevel (kappa : V) (level : nat) : R :=
  sqrt 3 * vabs kappa * boxsize / 2 ^ level
  + prec * log10 (sqrt 3 * vabs kappa * boxsize / 2 ^ level + PI).

(** [m_Ls[i] = ceil(Llevel)]: the conversion of the rounded-up value to
    [unsigned int].  C++ defines the conversion for the values the type
    holds; for a larger value (below 2^63) an x86-64 build stores the low
    32 bits of the 64-bit truncation, which is what [u32] yields. *)
Definition ceil_to_unsigned (x : R) : nat := Z.to_nat (u32 (Zceil x)).

(** The values for which that conversion is defined by the language:
    those whose rounded-up value is in the range of [unsigned int]. *)
Definition converts_to_unsigned (x : R) : Prop :=
  (0 <= Zceil x < 2 ^ 32)%Z.

(** The vectors of a level of order [L] hold [(L+1)*(2*L+1)] entries as
    long as that product, computed in [unsigned int], does not wrap
    around; past that the loops over the quadrature points write beyond
    the allocated vectors. *)
Definition point_count_fits (L : nat) : Prop :=
  unsigned_int ((L + 1) * (2 * L + 1)).

(** [FmmHighFreq::generateGaussPoints]: points and weights for the order
    of the leaves, [m_Ls[m_Ls.size()-1]], when the number of quadrature
    points of that order fits an [unsigned int] ([point_count_fits]). *)
Definition generateGaussPoints (Ls : list nat)
    : outcome (list vec3 * list R) :=
  L <- of_option (vec_get Ls (u32 (Z.of_nat (List.length Ls) - 1))) ;;
  let wphi := 2 * PI / INR (2 * L + 1) in
  Returned (quadrature_loop L (fun l m => khat L l m),
            quadrature_loop L (fun l _ => legendre_weight (L + 1) l * wphi)).

(** The constructor [FmmHighFreq(kappa, L, levels)].  For [levels < 2]
    the sizes [levels-1], [levels-2] and the index [levels-m_topLevel]
    wrap around and the first assignment writes outside [m_Ls].  The
    lines the constructor prints to [std::cout] are left out.  The
    number of quadrature points handed to the base class and the
    computed orders wrap around as [unsigned int] values do;
    [generateGaussPoints] is described for a leaf order whose number of
    points does not wrap ([point_count_fits]). *)
Definition FmmHighFreq_new (kappa : V) (L : nat) (levels : nat)
    : outcome FmmHighFreq :=
  let m_topLevel := 2%nat in
  if (levels <? 2)%nat then Undefined else
  let Ls0 := repeat 0%nat (Z.to_nat (u32 (Z.of_nat levels - 1))) in
  let ups0 :=
    repeat InterpolateOnSphere_default (Z.to_nat (u32 (Z.of_nat levels - 2))) in
  let downs0 :=
    repeat InterpolateOnSphere_default (Z.to_nat (u32 (Z.of_nat levels - 2))) in
  Ls1 <- of_option (vec_set Ls0 (level_index levels) L) ;;
  Ls <- for_each
          (fun level Ls =>
             of_option (vec_set Ls (level_index level)
                                (ceil_to_unsigned (Llevel kappa level))))
          (levels_from_to m_topLevel (levels - 1)) Ls1 ;;
  interps <- for_each
          (fun level (ud : list InterpolateOnSphere * list InterpolateOnSphere) =>
             hi <- of_option (vec_get Ls (level_index level + 1)) ;;
             lo <- of_option (vec_get Ls (level_index level)) ;;
             ups' <- of_option (vec_set (fst ud) (level_index level)
                                  (mkInterpolateOnSphere hi lo)) ;;
             downs' <- of_option (vec_set (snd ud) (level_index level)
                                  (mkInterpolateOnSphere lo hi)) ;;
             Returned (ups', downs'))
          (levels_from_to m_topLevel (levels - 1)) (ups0, downs0) ;;
  gauss <- generateGaussPoints Ls ;;
  Returned {| m_kappa := kappa;
              m_Ls := Ls;
              m_interpolatorsUpwards := fst interps;
              m_interpolatorsDownwards := snd interps;
              quadraturePointCount :=
                Z.to_nat (u32 (Z.of_nat ((L + 1) * (2 * L + 1))));
              m_levels := levels;
              m_isCompressedM2L := false;
              m_quadraturePoints := fst gauss;
              m_quadratureWeights := snd gauss |}.

(** The orders the constructor computes for levels [2 .. levels-1],
    followed by the caller's [L] for the leaves. *)
Definition computed_orders (kappa : V) (levels : nat) : list nat :=
  map (fun level => ceil_to_unsigned (Llevel kappa level)) (seq 2 (levels - 2)).

Definition constructed_Ls (kappa : V) (L levels : nat) : list nat :=
  computed_orders kappa levels ++ [L].

(** The interpolators the constructor stores: slot [level-2] of
    [m_interpolatorsUpwards] maps the order of [level+1] to the order of
    [level], the same slot of [m_interpolatorsDownwards] maps back. *)
Definition constructed_upwards (Ls : list nat) (levels : nat) :=
  map (fun level => mkInterpolateOnSphere (nth (level - 2 + 1) Ls 0%nat)
                                          (nth (level - 2) Ls 0%nat))
      (seq 2 (levels - 2)).

Definition constructed_downwards (Ls : list nat) (levels : nat) :=
  map (fun level => mkInterpolateOnSphere (nth (level - 2) Ls 0%nat)
                                          (nth (level - 2 + 1) Ls 0%nat))
      (seq 2 (levels - 2)).

(** The scaled box size [sqrt(3)*|kappa|*boxsize/2^level]. *)
Definition scaled_size (kappa : V) (level : nat) : R :=
  (sqrt 3 * vabs kappa * boxsize / 2 ^ level)%R.

(** The truncation order [m_Ls[level-2]] stored for a level. *)
Definition order_of_level (fmm : FmmHighFreq) (level : nat) : option nat :=
  vec_get (m_Ls fmm) (level_index level).

(** [FmmHighFreq::M2M(childPosition, parentPosition, level)], for an
    order whose number of quadrature points fits an [unsigned int]
    ([point_count_fits]); [FmmDouble.M2M] is the same function on
    doubles. *)
Definition M2M (fmm : FmmHighFreq) (childPosition parentPosition : vec3)
    (level : nat) : outcome (list V) :=
  L <- of_option (vec_get (m_Ls fmm) (level_index level)) ;;
  let R := vec3_sub parentPosition childPosition in
  Returned
    (quadrature_loop L (fun ntheta m =>
       let rcostheta := dot R (khat L ntheta m) in
       vexp (vmul (vopp (m_kappa fmm)) (of_real rcostheta)))).

(** [FmmHighFreq::L2L(parentPosition, childPosition, level)] *)
Definition L2L (fmm : FmmHighFreq) (parentPosition childPosition : vec3)
    (level : nat) : outcome (list V) :=
  M2M fmm parentPosition childPosition level.

(** [FmmHighFreq::interpolate(levelOld, levelNew, coefficientsOld,
    coefficientsNew)]; the value written to [coefficientsNew]. *)
Definition interpolate (fmm : FmmHighFreq) (levelOld levelNew : nat)
    (coefficientsOld : list V) : outcome (list V) :=
  if (levelNew <? levelOld)%nat then
    op <- of_option (vec_get (m_interpolatorsUpwards fmm) (level_index levelNew)) ;;
    Returned (sphere_interpolate op coefficientsOld)
  else
    op <- of_option (vec_get (m_interpolatorsDownwards fmm) (level_index levelOld)) ;;
    Returned (sphere_interpolate op coefficientsOld).

(** ** [FmmHighFreq::M2L] *)

Definition amosErrorMessages : list string :=
  [ "IERR=0, NORMAL RETURN - COMPUTATION COMPLETED";
    "IERR=1, INPUT ERROR   - NO COMPUTATION";
    "IERR=2, OVERFLOW      - NO COMPUTATION, FNU IS        TOO LARGE OR CABS(Z) IS TOO SMALL OR BOTH";
    "IERR=3, CABS(Z) OR FNU+N-1 LARempp/bempp/lib/fmm/fmm_black_box.cpp:156:47: error:GE - COMPUTATION DONE        BUT LOSSES OF SIGNIFCANCE BY ARGUMENT        REDUCTION PRODUCE LESS THAN HALF OF MACHINE        ACCURACY";
    "IERR=4, CABS(Z) OR FNU+N-1 TOO LARGE - NO COMPUTA-        TION BECAUSE OF COMPLETE LOSSES OF SIGNIFI-        CANCE BY ARGUMENT REDUCTION";
    "IERR=5, ERROR              - NO COMPUTATION,        ALGORITHM TERMINATION CONDITION NOT MET" ]%string.

(** [unsigned int Ldash = L;] (the line [L = (3*L)/4;] that would make
    the two differ is commented out in the source). *)
Definition Ldash (L : nat) : nat := L.

(** The orders [l] the outer loop [for (l = 0; l <= Ldash; l++)] visits. *)
Definition M2L_orders (L : nat) : list nat := seq 0 (Ldash L + 1).

(** The call of [amos::zbesh] in iteration [l]: [z = i*m_kappa*r],
    [nu = l + 0.5], [kode = 1], [kind = 1], [N = 1]. *)
Definition M2L_zbesh (fmm : FmmHighFreq) (r : R) (i : V) (l : nat)
    : zbesh_result :=
  let z := vmul (vmul i (m_kappa fmm)) (of_real r) in
  zbesh (vreal z) (vimag z) (INR l + / 2) 1 1 1.

(** The first half of the body of the loop over [l]: it leaves
    [scaledhl] (unset in the branch [l > L]) and the window [CLLdash]. *)
Definition M2L_coefficients (fmm : FmmHighFreq) (r : R) (i : V) (L l : nat)
    : outcome (option V * R) :=
  if (l <=? L)%nat then
    let z := vmul (vmul i (m_kappa fmm)) (of_real r) in
    let res := M2L_zbesh fmm r i l in
    let hl := vmul (vsqrt (vdiv (of_real PI) (vmul (of_real 2) z)))
                   (vadd (of_real (cyr res)) (vmul i (of_real (cyi res)))) in
    if (ierr res =? 0)%Z then
      let scaledhl :=
        vmul (vmul (vmul (vdiv (vopp (m_kappa fmm)) (of_real (16 * PI * PI)))
                         (vpow i l))
                   (of_real (INR (2 * l + 1))))
             hl in
      Returned (Some scaledhl, 1)
    else
      msg <- of_option (vec_get amosErrorMessages (ierr res)) ;;
      Thrown (invalid_argument ("FmmHighFreq::M2L(x1, x2): AMOS: " ++ msg))
  else
    Returned (None,
              (cos (INR (l - L) * PI / INR (2 * (Ldash L - L)))) ^ 2).

(** [if (costheta > 1.0) costheta = 1.0; if (costheta < -1.0) ...] *)
Definition clamp_cosine (c : R) : R :=
  let c1 := if Rlt_dec 1 c then 1 else c in
  if Rlt_dec c1 (-1) then -1 else c1.

(** [T(p) += Tlocal] over all quadrature points. *)
Definition accumulate (T contributions : list V) : list V :=
  map (fun tc => vadd (fst tc) (snd tc)) (combine T contributions).

(** One iteration of the loop over [l]. *)
Definition M2L_step (fmm : FmmHighFreq) (r : R) (Rhat : vec3) (i : V)
    (L l : nat) (T : list V) : outcome (list V) :=
  sc <- M2L_coefficients fmm r i L l ;;
  scaledhl <- of_option (fst sc) ;;
  let CLLdash := snd sc in
  Returned
    (accumulate T
       (quadrature_loop L (fun ntheta m =>
          let costheta := clamp_cosine (dot Rhat (khat L ntheta m)) in
          vmul (vmul scaledhl (of_real CLLdash))
               (of_real (legendre_p l costheta))))).

Definition M2L (fmm : FmmHighFreq) (sourceCentre fieldCentre boxSize : vec3)
    (level : nat) : outcome (list V) :=
  L <- of_option (vec_get (m_Ls fmm) (level_index level)) ;;
  let T0 := repeat vzero ((L + 1) * (2 * L + 1)) in
  let xvec := vec3_sub fieldCentre sourceCentre in
  let r := norm2 xvec in
  let Rhat := vec3_scale_inv xvec r in
  i <- getI ;;
  for_each (M2L_step fmm r Rhat i L) (M2L_orders L) T0.

End WithValueType.

Arguments FmmHighFreq V : clear implicits.


(** The reading of the windowing sentence: some order visited by the
    loop of [M2L] lies beyond the truncation order [L] of the level. *)
Definition some_term_beyond_truncation (L : nat) : Prop :=
  exists l, In l (M2L_orders L) /\ (L < l)%nat.

End Fmm.

(* ================================================================== *)
(** * fmm_global_assembler.cpp *)
(* ================================================================== *)

Module Assembler.

Import Fmm.
Local Open Scope prog_scope.

(** What [Space] offers to the assembler. *)
Record Space : Type := mkSpace {
  globalDofCount : Z;
  flatLocalDofCount : Z;
  (** [grid()->getBoundingBox(lower, upper)] *)
  gridBoundingBox : vec3 * vec3;
  globalDofPositions : list vec3;
  flatLocalDofPositions : list vec3
}.

(** [fmmOptions.levels] of the assembly options in the context. *)
Record Context : Type := mkContext { fmmOptions_levels : Z }.

(** The octree as the assembler sees it (octree.hpp). *)
Record Octree : Type := mkOctree {
  octree_levels : Z;
  octree_lowerBound : vec3;
  octree_upperBound : vec3
}.

(** The steps of the assembly that are visible from outside: lines sent
    to [std::cout] and the work handed to the octree and its helpers. *)
Inductive event : Type :=
| PrintedDofCounts (testDofCount trialDofCount : Z) (hermitian : bool)
| PrintedBounds (lowerBound upperBound : vec3)
| PrintedLine (line : string)
| OctreeBuilt (octree : Octree)
| PointsAssigned (hermitian : bool) (dofCenters : list vec3)
| NearFieldCached (nLeaves : Z)
| FarFieldCached (nLeaves : Z).

Definition is_print (e : event) : bool :=
  match e with
  | PrintedDofCounts _ _ _ | PrintedBounds _ _ | PrintedLine _ => true
  | _ => false
  end.

(** The operator that is returned. *)
Record DiscreteFmmBoundaryOperator : Type := mkDiscreteFmmLinOp {
  op_rowCount : Z;
  op_columnCount : Z;
  op_octree : Octree;
  op_p2o : list Z;
  op_symmetry : Z
}.

(** Constants and routines declared in headers that are not part of
    these sources. *)
Class Environment : Type := {
  NO_SYMMETRY : Z;
  HERMITIAN : Z;
  SYMMETRIC : Z;
  (** [arma::conv_to<arma::Col<CoordinateType> >::from(bound)] *)
  conv_to_CoordinateType : vec3 -> vec3;
  (** The constructor [Octree(nLevels, fmmTransform, lowerBound,
      upperBound)]. *)
  Octree_new : Z -> vec3 -> vec3 -> outcome Octree;
  (** [Octree::assignPoints(hermitian, dofCenters)], the permutation *)
  assignPoints : Octree -> bool -> list vec3 -> outcome (list Z);
  getNodesPerLevel : Z -> Z;
  (** [tbb::parallel_for] over the leaves with an [OctreeNearHelper]
      and with an [OctreeFarHelper]. *)
  cacheNearField : Octree -> list Z -> Z -> outcome unit;
  cacheFarField : Octree -> list Z -> Z -> outcome unit
}.

(** A call of a routine that does not touch the trace. *)
Definition call {A} (c : outcome A) : prog (list event) A :=
  fun trace => (c, trace).

Definition emit (e : event) : prog (list event) unit :=
  modify (fun trace => trace ++ [e]).

Definition vec3_min (a b : vec3) : vec3 :=
  mkVec3 (Rmin (vx a) (vx b)) (Rmin (vy a) (vy b)) (Rmin (vz a) (vz b)).
Definition vec3_max (a b : vec3) : vec3 :=
  mkVec3 (Rmax (vx a) (vx b)) (Rmax (vy a) (vy b)) (Rmax (vz a) (vz b)).

Section WithEnvironment.

Context {V : Type} `{VT : ValueType V} `{ENV : Environment}.

(** The arguments that are only passed on. *)
Variables LocalAssembler DiscreteBndOp Transform : Type.

(** [FmmGlobalAssembler::assembleDetachedWeakForm], the overload taking
    vectors of local assemblers and of terms. *)
Definition assembleDetachedWeakForm
    (testSpace trialSpace : Space)
    (localAssemblers : list LocalAssembler)
    (sparseTermsToAdd : list DiscreteBndOp)
    (denseTermsMultipliers sparseTermsMultipliers : list V)
    (context : Context) (hermitian : bool) (fmmTransform : Transform)
    : prog (list event) DiscreteFmmBoundaryOperator :=
  let indexWithGlobalDofs := true in
  let testDofCount :=
    if indexWithGlobalDofs then globalDofCount testSpace
    else flatLocalDofCount testSpace in
  let trialDofCount :=
    if indexWithGlobalDofs then globalDofCount trialSpace
    else flatLocalDofCount trialSpace in
  emit (PrintedDofCounts testDofCount trialDofCount hermitian) ;;
  (if hermitian && negb (testDofCount =? trialDofCount)%Z
   then throw (invalid_argument
     ("FmmGlobalAssembler::assembleDetachedWeakForm(): "
      ++ "you cannot generate a Hermitian weak form "
      ++ "using test and trial spaces with different "
      ++ "numbers of DOFs")%string)
   else pret tt) ;;
  let lowerBound := vec3_min (fst (gridBoundingBox testSpace))
                             (fst (gridBoundingBox trialSpace)) in
  let upperBound := vec3_max (snd (gridBoundingBox testSpace))
                             (snd (gridBoundingBox trialSpace)) in
  emit (PrintedBounds lowerBound upperBound) ;;
  let nLevels := u32 (fmmOptions_levels context) in
  octree <- call (Octree_new nLevels (conv_to_CoordinateType lowerBound)
                             (conv_to_CoordinateType upperBound)) ;;
  emit (OctreeBuilt octree) ;;
  let dofCenters :=
    if indexWithGlobalDofs then globalDofPositions testSpace
    else flatLocalDofPositions testSpace in
  p2o <- call (assignPoints octree hermitian dofCenters) ;;
  emit (PointsAssigned hermitian dofCenters) ;;
  emit (PrintedLine "Caching near field interactions") ;;
  let nLeaves := u32 (getNodesPerLevel (octree_levels octree)) in
  call (cacheNearField octree p2o nLeaves) ;;
  emit (NearFieldCached nLeaves) ;;
  emit (PrintedLine "Caching test and trial far-field interactions") ;;
  call (cacheFarField octree p2o nLeaves) ;;
  emit (FarFieldCached nLeaves) ;;
  let symmetry :=
    if hermitian then
      if is_complex then Z.lor (Z.lor NO_SYMMETRY HERMITIAN) SYMMETRIC
      else Z.lor NO_SYMMETRY HERMITIAN
    else NO_SYMMETRY in
  pret (mkDiscreteFmmLinOp testDofCount trialDofCount octree p2o symmetry).

(** The overload taking a single local assembler. *)
Definition assembleDetachedWeakForm_single
    (testSpace trialSpace : Space) (localAssembler : LocalAssembler)
    (context : Context) (hermitian : bool) (fmmTransform : Transform)
    : prog (list event) DiscreteFmmBoundaryOperator :=
  let localAssemblers := [localAssembler] in
  let sparseTermsToAdd := [] in
  let denseTermsMultipliers := [of_real 1] in
  let sparseTermsMultipliers := [] in
  assembleDetachedWeakForm testSpace trialSpace localAssemblers
    sparseTermsToAdd denseTermsMultipliers sparseTermsMultipliers
    context hermitian fmmTransform.

End WithEnvironment.

End Assembler.

(* ================================================================== *)
(** * separable_numerical_test_kernel_trial_integrator_imp.hpp *)
(* ================================================================== *)

Module Integrator.

Local Open Scope cxx_scope.

Section WithValueType.

Context {V : Type} `{VT : ValueType V}.

(** [arma::Mat<ValueType>]: its dimensions and its elements. *)
Record Mat : Type := mkMat {
  n_rows : Z;
  n_cols : Z;
  mat_at : Z -> Z -> V
}.

(** [arma::Cube<ValueType>] *)
Record Cube : Type := mkCube {
  cube_rows : Z;
  cube_cols : Z;
  cube_slices : Z;
  cube_at : Z -> Z -> Z -> V
}.

(** [cube.set_size(r, c, s)]: the dimensions change; armadillo leaves
    the elements unspecified, and [integrateCpu] assigns every one of
    them afterwards. *)
Definition set_size (cube : Cube) (r c s : Z) : Cube :=
  mkCube r c s (cube_at cube).

(** The three dimensions of a cube. *)
Definition dims (c : Cube) : Z * Z * Z :=
  (cube_rows c, cube_cols c, cube_slices c).

(** [cube(i, j, k) = v] *)
Definition cube_assign (cube : Cube) (i j k : Z) (v : V) : Cube :=
  mkCube (cube_rows cube) (cube_cols cube) (cube_slices cube)
         (fun i' j' k' =>
            if ((i' =? i) && (j' =? j) && (k' =? k))%Z then v
            else cube_at cube i' j' k').

(** The collaborators of the integrator, each reduced to the answers the
    integrator asks of it.  Elements are referred to by their index. *)

(** [Basis<ValueType>]: [size()]. *)
Record Basis : Type := mkBasis { basis_id : Z; basis_size : Z }.

(** [Expression<ValueType>]: [codomainDimension()] and the values
    [values(dim, dof, point)] that [evaluate] produces for a basis on an
    element at the given local quadrature points. *)
Record Expression : Type := mkExpression {
  expr_codomainDimension : Z;
  expr_evaluate : Basis -> Mat -> Z -> (Z -> Z -> Z -> V)
}.

(** [Kernel<ValueType>]: its dimensions and the values
    [kernelValues(row, col, testPoint, trialPoint)] of [evaluateOnGrid]
    for a pair of elements. *)
Record Kernel : Type := mkKernel {
  kernel_codomainDimension : Z;
  kernel_domainDimension : Z;
  kernel_evaluateOnGrid : Z -> Mat -> Z -> Mat -> (Z -> Z -> Z -> Z -> V)
}.

(** [RawGridGeometry] together with the geometry factory:
    [integrationElements(point)] of an element at local points. *)
Record RawGridGeometry : Type := mkRawGridGeometry {
  integrationElements : Z -> Mat -> (Z -> V)
}.

(** [OpenClHandler]: [UseOpenCl()]. *)
Record OpenClHandler : Type := mkOpenClHandler { UseOpenCl : bool }.

(** The members of [SeparableNumericalTestKernelTrialIntegrator]. *)
Record SeparableNumericalTestKernelTrialIntegrator : Type := mkIntegrator {
  m_localTestQuadPoints : Mat;
  m_localTrialQuadPoints : Mat;
  m_testQuadWeights : list V;
  m_trialQuadWeights : list V;
  m_rawGeometry : RawGridGeometry;
  m_testExpression : Expression;
  m_kernel : Kernel;
  m_trialExpression : Expression;
  m_openClHandler : OpenClHandler
}.

(** [std::vector::size()] *)
Definition size {A} (v : list A) : Z := Z.of_nat (List.length v).

(** The constructor (built without [WITH_OPENCL]). *)
Definition SeparableNumericalTestKernelTrialIntegrator_new
    (localTestQuadPoints localTrialQuadPoints : Mat)
    (testQuadWeights trialQuadWeights : list V)
    (rawGeometry : RawGridGeometry)
    (testExpression : Expression) (kernel : Kernel)
    (trialExpression : Expression) (openClHandler : OpenClHandler)
    : outcome SeparableNumericalTestKernelTrialIntegrator :=
  let this :=
    mkIntegrator localTestQuadPoints localTrialQuadPoints
                 testQuadWeights trialQuadWeights rawGeometry
                 testExpression kernel trialExpression openClHandler in
  if negb (n_cols localTestQuadPoints =? size testQuadWeights)%Z then
    Thrown (invalid_argument
      ("SeparableNumericalTestKernelTrialIntegrator::"
       ++ "SeparableNumericalTestKernelTrialIntegrator(): "
       ++ "numbers of test points and weight do not match"))
  else if negb (n_cols localTrialQuadPoints =? size trialQuadWeights)%Z then
    Thrown (invalid_argument
      ("SeparableNumericalTestKernelTrialIntegrator::"
       ++ "SeparableNumericalTestKernelTrialIntegrator(): "
       ++ "numbers of trial points and weight do not match"))
  else Returned this.

(** [for (int i = 0; i < n; ++i)] *)
Definition int_range (n : Z) : list Z := map Z.of_nat (seq 0 (Z.to_nat n)).

(** [sum += term] over nested loops, outermost index first. *)
Definition sum_over {I} (indices : list I) (term : I -> V) : V :=
  fold_left (fun sum ix => vadd sum (term ix)) indices vzero.

Definition weight (ws : list V) (point : Z) : V :=
  nth (Z.to_nat point) ws vzero.

(** [std::pair<int, int>] *)
Definition ElementIndexPair : Type := (Z * Z)%type.

(** The element-pair overload of [integrateCpu]; the result is the new
    content of the output argument [result]. *)
Definition integrateCpu (this : SeparableNumericalTestKernelTrialIntegrator)
    (elementIndexPairs : list ElementIndexPair)
    (testBasis trialBasis : Basis) (result : Cube) : outcome Cube :=
  let testPointCount := to_int (n_cols (m_localTestQuadPoints this)) in
  let trialPointCount := to_int (n_cols (m_localTrialQuadPoints this)) in
  let geometryPairCount := to_int (size elementIndexPairs) in
  if ((testPointCount =? 0) || (trialPointCount =? 0)
      || (geometryPairCount =? 0))%Z
  then Returned result
  else
  let testComponentCount := expr_codomainDimension (m_testExpression this) in
  let trialComponentCount := expr_codomainDimension (m_trialExpression this) in
  let testDofCount := to_int (basis_size testBasis) in
  let trialDofCount := to_int (basis_size trialBasis) in
  let kernelRowCount := kernel_codomainDimension (m_kernel this) in
  let kernelColCount := kernel_domainDimension (m_kernel this) in
  let scalarKernel := ((kernelRowCount =? 1) && (kernelColCount =? 1))%Z in
  (* the assertions on the dimensions *)
  if negb (if scalarKernel
           then (testComponentCount =? trialComponentCount)%Z
           else ((testComponentCount =? kernelRowCount)
                 && (kernelColCount =? trialComponentCount))%Z)
  then Undefined
  else
  let result0 := set_size result testDofCount trialDofCount geometryPairCount in
  let pair_body (result : Cube) (pairIndex : Z) : Cube :=
    let pr := nth (Z.to_nat pairIndex) elementIndexPairs (0, 0)%Z in
    let testIntegrationElements :=
      integrationElements (m_rawGeometry this) (fst pr)
                          (m_localTestQuadPoints this) in
    let trialIntegrationElements :=
      integrationElements (m_rawGeometry this) (snd pr)
                          (m_localTrialQuadPoints this) in
    let testValues :=
      expr_evaluate (m_testExpression this) testBasis
                    (m_localTestQuadPoints this) (fst pr) in
    let trialValues :=
      expr_evaluate (m_trialExpression this) trialBasis
                    (m_localTrialQuadPoints this) (snd pr) in
    let kernelValues :=
      kernel_evaluateOnGrid (m_kernel this)
        (fst pr) (m_localTestQuadPoints this)
        (snd pr) (m_localTrialQuadPoints this) in
    let entry (trialDof testDof : Z) : V :=
      if scalarKernel then
        sum_over
          (list_prod (int_range trialPointCount)
             (list_prod (int_range testPointCount)
                        (int_range testComponentCount)))
          (fun ix =>
             let trialPoint := fst ix in
             let testPoint := fst (snd ix) in
             let dim := snd (snd ix) in
             vmul (vmul (vmul (vmul (vmul (vmul
               (weight (m_testQuadWeights this) testPoint)
               (testIntegrationElements testPoint))
               (testValues dim testDof testPoint))
               (kernelValues 0 0 testPoint trialPoint)%Z)
               (trialValues dim trialDof trialPoint))
               (trialIntegrationElements trialPoint))
               (weight (m_trialQuadWeights this) trialPoint))
      else
        sum_over
          (list_prod (int_range trialPointCount)
             (list_prod (int_range testPointCount)
                (list_prod (int_range trialComponentCount)
                           (int_range testComponentCount))))
          (fun ix =>
             let trialPoint := fst ix in
             let testPoint := fst (snd ix) in
             let trialDim := fst (snd (snd ix)) in
             let testDim := snd (snd (snd ix)) in
             vmul (vmul (vmul (vmul (vmul (vmul
               (weight (m_testQuadWeights this) testPoint)
               (testIntegrationElements testPoint))
               (testValues testDim testDof testPoint))
               (kernelValues testDim trialDim testPoint trialPoint))
               (trialValues trialDim trialDof trialPoint))
               (trialIntegrationElements trialPoint))
               (weight (m_trialQuadWeights this) trialPoint)) in
    fold_left
      (fun result dofs =>
         let trialDof := fst dofs in
         let testDof := snd dofs in
         cube_assign result testDof trialDof pairIndex (entry trialDof testDof))
      (list_prod (int_range trialDofCount) (int_range testDofCount))
      result in
  Returned (fold_left pair_body (int_range geometryPairCount) result0).

(** The element-pair overload of [integrateCl], built without
    [WITH_OPENCL]. *)
Definition integrateCl (this : SeparableNumericalTestKernelTrialIntegrator)
    (elementIndexPairs : list ElementIndexPair)
    (testBasis trialBasis : Basis) (result : Cube) : outcome Cube :=
  Thrown (runtime_error
            "Trying to call OpenCL method without OpenCL support").

(** The element-pair overload of [integrate]. *)
Definition integrate (this : SeparableNumericalTestKernelTrialIntegrator)
    (elementIndexPairs : list ElementIndexPair)
    (testBasis trialBasis : Basis) (result : Cube) : outcome Cube :=
  if UseOpenCl (m_openClHandler this)
  then integrateCl this elementIndexPairs testBasis trialBasis result
  else integrateCpu this elementIndexPairs testBasis trialBasis result.

End WithValueType.

Arguments Mat V : clear implicits.
Arguments Cube V : clear implicits.
Arguments Expression V : clear implicits.
Arguments Kernel V : clear implicits.
Arguments RawGridGeometry V : clear implicits.
Arguments SeparableNumericalTestKernelTrialIntegrator V : clear implicits.

End Integrator.

(* ================================================================== *)
(** * grid_function.cpp *)
(* ================================================================== *)

Module GridFun.

Local Open Scope prog_scope.

(** [VtkWriter::DataType].  A C++ enumeration can hold values other than
    its enumerators, and [evaluateAtSpecialPoints] tests for them. *)
Inductive DataType : Type :=
| CELL_DATA
| VERTEX_DATA
| OtherDataType (value : Z).

(** [VtkWriter::OutputType] is only passed on. *)
Definition OutputType : Type := Z.

(** An element of the leaf view: the address of its basis, the number of
    its corners, its global DOFs and its corner indices. *)
Record Element : Type := mkElement {
  elem_basis : Z;
  elem_cornerCount : Z;
  elem_globalDofs : list Z;
  elem_cornerIndices : list Z
}.

Record Grid : Type := mkGrid {
  grid_dim : Z;
  grid_dimWorld : Z;
  grid_elements : list Element;
  grid_vertexCount : Z
}.

Record Space : Type := mkSpace {
  space_grid : Grid;
  space_codomainDimension : Z
}.

Section WithValueType.

Context {V : Type} `{VT : ValueType V}.

Record GridFunction : Type := mkGridFunction {
  m_space : Space;
  m_coefficients : list V
}.

(** [arma::Mat<ResultType>] *)
Record Mat : Type := mkMat {
  n_rows : Z;
  n_cols : Z;
  mat_at : Z -> Z -> V
}.

(** What a [VtkWriter] is asked to do. *)
Inductive vtk_event : Type :=
| AddCellData (data : Mat) (label : string)
| AddVertexData (data : Mat) (label : string)
| Write (fileNamesBase : string) (type : OutputType)
| Pwrite (fileNamesBase filesPath extendPath : string) (type : OutputType).

(** The grid function a method is called on, and the history of the
    writer obtained from its grid. *)
Record World : Type := mkWorld {
  this : GridFunction;
  vtk_requests : list vtk_event
}.

(** The element types for which local coordinates are assigned: linear
    segment, triangle, quadrilateral. *)
Definition supported_element (gridDim cornerCount : Z) : bool :=
  ((gridDim =? 1) && (cornerCount =? 2)
   || (gridDim =? 2) && (cornerCount =? 3)
   || (gridDim =? 2) && (cornerCount =? 4))%Z.

Definition unsupported_element_type : exception :=
  runtime_error
    "GridFunction::evaluateAtVertices(): unsupported element type".

Definition not_working : exception := logic_error "NOT WORKING!!!".

Definition invalid_data_type : exception :=
  invalid_argument "GridFunction::evaluateAtSpecialPoints(): invalid data type".

(** The matrix [local] (its columns): the barycentre for [CELL_DATA],
    all vertices otherwise. *)
Definition local_points (dataType : DataType) (gridDim activeCornerCount : Z)
    : outcome (list (list R)) :=
  match dataType with
  | CELL_DATA =>
      if ((gridDim =? 1) && (activeCornerCount =? 2))%Z then
        Returned [[/ 2]]%R
      else if ((gridDim =? 2) && (activeCornerCount =? 3))%Z then
        Returned [[1 / 3; 1 / 3]]%R
      else if ((gridDim =? 2) && (activeCornerCount =? 4))%Z then
        Returned [[/ 2; / 2]]%R
      else Thrown unsupported_element_type
  | _ =>
      if ((gridDim =? 1) && (activeCornerCount =? 2))%Z then
        Returned [[0]; [1]]%R
      else if ((gridDim =? 2) && (activeCornerCount =? 3))%Z then
        Returned [[0; 0]; [1; 0]; [0; 1]]%R
      else if ((gridDim =? 2) && (activeCornerCount =? 4))%Z then
        Returned [[0; 0]; [1; 0]; [0; 1]; [1; 1]]%R
      else Thrown unsupported_element_type
  end.

(** [std::set<std::pair<const Basis*, int> >]: ordered lexicographically,
    without duplicates. *)
Definition pair_lt (a b : Z * Z) : bool :=
  ((fst a <? fst b) || ((fst a =? fst b) && (snd a <? snd b)))%Z.

Fixpoint set_insert (x : Z * Z) (s : list (Z * Z)) : list (Z * Z) :=
  match s with
  | [] => [x]
  | y :: rest =>
      if pair_lt x y then x :: s
      else if pair_lt y x then y :: set_insert x rest
      else s
  end.

Definition set_of (l : list (Z * Z)) : list (Z * Z) :=
  fold_left (fun s x => set_insert x s) l [].

(** The loop over the elements for one active basis: elements with
    another basis are skipped; for the first one with the active basis
    the function values and the geometrical data are computed into
    locals and then [std::logic_error] is thrown. *)
Definition process_elements (activeBasis : Z) (elements : list Element)
    : outcome unit :=
  for_each (fun e (_ : unit) =>
              if (elem_basis e =? activeBasis)%Z
              then Thrown not_working
              else Returned tt)
           elements tt.

(** [GridFunction::evaluateAtSpecialPoints(dataType, result)]; the value
    left in [result].  The calls into the grid, the space, the bases and
    the geometry are taken to return normally; what they compute goes
    into locals that the [throw] of the element loop discards. *)
Definition evaluateAtSpecialPoints (gf : GridFunction) (dataType : DataType)
    : outcome Mat :=
  match dataType with
  | OtherDataType _ => Thrown invalid_data_type
  | _ =>
    let grid := space_grid (m_space gf) in
    let gridDim := grid_dim grid in
    let elementCount := to_int (Z.of_nat (List.length (grid_elements grid))) in
    let vertexCount := grid_vertexCount grid in
    let result :=
      mkMat (space_codomainDimension (m_space gf))
            (match dataType with CELL_DATA => elementCount | _ => vertexCount end)
            (fun _ _ => vzero) in
    let multiplicities (v : Z) : R := 0%R in
    let basesAndCornerCounts :=
      map (fun e => (elem_basis e, elem_cornerCount e)) (grid_elements grid) in
    let uniqueBasesAndCornerCounts := set_of basesAndCornerCounts in
    bind
      (for_each
         (fun active (_ : unit) =>
            bind (local_points dataType gridDim (snd active))
                 (fun local => process_elements (fst active) (grid_elements grid)))
         uniqueBasesAndCornerCounts tt)
      (fun _ =>
         Returned
           (match dataType with
            | VERTEX_DATA =>
                mkMat (n_rows result) (n_cols result)
                      (fun i v => vdiv (mat_at result i v)
                                       (of_real (multiplicities v)))
            | _ => result
            end))
  end.

Definition request (e : vtk_event) : prog World unit :=
  modify (fun w => mkWorld (this w) (vtk_requests w ++ [e])).

(** [GridFunction::exportToVtk(dataType, dataLabel, fileNamesBase,
    filesPath, type)]; [filesPath] may be a null pointer.  Obtaining the
    leaf view and its writer asks nothing of the writer; the calls that
    would attach [data] are commented out in the source, and the two
    calls that write come after the [throw]. *)
Definition exportToVtk (dataType : DataType) (dataLabel fileNamesBase : string)
    (filesPath : option string) (type : OutputType) : prog World unit :=
  data <- (fun w => (evaluateAtSpecialPoints (this w) dataType, w)) ;;
  throw (A := unit) not_working ;;
  match filesPath with
  | Some path => request (Pwrite fileNamesBase path "." type)
  | None => request (Write fileNamesBase type)
  end.

End WithValueType.

Arguments GridFunction V : clear implicits.
Arguments World V : clear implicits.
Arguments Mat V : clear implicits.

End GridFun.

(* ================================================================== *)
(** * octree_node.hpp: neighbour and interaction lists *)
(* ================================================================== *)

(** The header declares [OctreeNode::makeNeigbourList] and
    [OctreeNode::makeInteractionList]; their bodies, the Morton numbering
    and the assignment of DOFs to boxes live in octree_node.cpp and
    octree.cpp, which are not among the sources. *)
Module OctreeLists.

(** Modelled from the spec: the Morton number of the parent box (the
    numbering of octree.cpp is missing).  A level has [8^level] boxes
    addressed by a Morton index; dropping the last octal digit gives the
    enclosing box one level up. *)
Definition getParent (n : nat) : nat := n / 8.

(** Modelled from the spec: the Morton numbers of the eight children of
    a box (octree.cpp is missing). *)
Definition children (p : nat) : list nat := seq (8 * p) 8.

Definition getNodesPerLevel (level : nat) : nat := 8 ^ level.

(** Modelled from the spec: the integer position of a box along the
    three axes, from the Z-order code obtained by recursively halving the
    bounding box per axis (the de-interleaving of octree.cpp is missing).
    Bit 0 of each octal digit refines x, bit 1 refines y, bit 2 refines
    z. *)
Fixpoint deMorton (level : nat) (n : nat) : nat * nat * nat :=
  match level with
  | O => (0, 0, 0)
  | S l =>
      let '(x, y, z) := deMorton l (n / 8) in
      (2 * x + n mod 2, 2 * y + (n / 2) mod 2, 2 * z + (n / 4) mod 2)
  end.

Definition adjacent_index (a b : nat) : bool :=
  (a <=? b + 1) && (b <=? a + 1).

(** Modelled from the spec: two boxes of a level touch or overlap
    (share a face, an edge or a corner) when their positions differ by at
    most one along every axis. *)
Definition touches (level n m : nat) : bool :=
  let '(x, y, z) := deMorton level n in
  let '(x', y', z') := deMorton level m in
  adjacent_index x x' && adjacent_index y y' && adjacent_index z z'.

(** Modelled from the spec: an octree of fixed depth whose leaves hold
    their number of DOFs ([Octree::assignPoints] is missing). *)
Record Octree : Type := mkOctree {
  levels : nat;
  leafDofCount : nat -> nat
}.

(** Modelled from the spec: the DOF count of a box, the counts of the
    leaves aggregated up to their ancestors (octree.cpp is missing). *)
Fixpoint subtree_dofs (leaf : nat -> nat) (depth : nat) (n : nat) : nat :=
  match depth with
  | O => leaf n
  | S d => list_sum (map (subtree_dofs leaf d) (children n))
  end.

Definition getDofCount (octree : Octree) (level n : nat) : nat :=
  subtree_dofs (leafDofCount octree) (levels octree - level) n.

(** [OctreeNode::isEmpty]: [dofCount == 0]. *)
Definition isEmpty (octree : Octree) (level n : nat) : bool :=
  getDofCount octree level n =? 0.

(** Modelled from the spec: [OctreeNode::makeNeigbourList]
    (octree_node.cpp is missing).  For a non-empty node, the same-level
    boxes other than the node itself that touch it and are not empty, in
    increasing Morton order; empty nodes take part in no list. *)
Definition makeNeigbourList (octree : Octree) (level n : nat) : list nat :=
  if isEmpty octree level n then []
  else
    filter (fun m => negb (m =? n) && touches level n m
                     && negb (isEmpty octree level m))
           (seq 0 (getNodesPerLevel level)).

(** Modelled from the spec: [OctreeNode::makeInteractionList]
    (octree_node.cpp is missing).  For a non-empty node, the non-empty
    children of the neighbours of its parent that are not in its own
    neighbour list.  The root has no parent and an empty list. *)
Definition makeInteractionList (octree : Octree) (level n : nat) : list nat :=
  if isEmpty octree level n then []
  else
    match level with
    | O => []
    | S l =>
        filter (fun m => negb (isEmpty octree level m)
                         && negb (existsb (Nat.eqb m)
                                    (makeNeigbourList octree level n)))
               (flat_map children (makeNeigbourList octree l (getParent n)))
    end.

End OctreeLists.

(* ================================================================== *)
(** * Concrete inputs *)
(* ================================================================== *)

(** Stand-ins for the external routines and a few concrete objects, for
    running the definitions above on explicit inputs. *)
Module Examples.

Import Fmm.
Local Open Scope R_scope.

(** Externals whose Bessel routine always reports success. *)
Definition plain_externals (V : Type) : Externals V :=
  {| legendre_root := fun _ _ => 0;
     legendre_weight := fun _ _ => 1;
     legendre_p := fun _ _ => 1;
     zbesh := fun _ _ _ _ _ _ => mkZbesh 1 0 0 0;
     sphere_interpolate := fun _ c => c |}.

(** Externals whose Bessel routine reports an overflow ([IERR=2]) for
    every argument. *)
Definition overflowing_externals (V : Type) : Externals V :=
  {| legendre_root := fun _ _ => 0;
     legendre_weight := fun _ _ => 1;
     legendre_p := fun _ _ => 1;
     zbesh := fun _ _ _ _ _ _ => mkZbesh 0 0 0 2;
     sphere_interpolate := fun _ c => c |}.

(** A transform for a tree whose only level with expansions is level 2,
    with truncation order 1 and wavenumber [i]. *)
Definition small_transform : FmmHighFreq complex :=
  {| m_kappa := mkC 0 1;
     m_Ls := [1%nat];
     m_interpolatorsUpwards := [];
     m_interpolatorsDownwards := [];
     quadraturePointCount := 6;
     m_levels := 2;
     m_isCompressedM2L := false;
     m_quadraturePoints := [];
     m_quadratureWeights := [] |}.

(** The same tree with the real wavenumber 1. *)
Definition real_wavenumber_transform : FmmHighFreq complex :=
  {| m_kappa := mkC 1 0;
     m_Ls := [1%nat];
     m_interpolatorsUpwards := [];
     m_interpolatorsDownwards := [];
     quadraturePointCount := 6;
     m_levels := 2;
     m_isCompressedM2L := false;
     m_quadraturePoints := [];
     m_quadratureWeights := [] |}.

Definition origin : vec3 := mkVec3 0 0 0.
Definition unit_x : vec3 := mkVec3 1 0 0.

(** An integrator over [double] whose test rule has no points and whose
    trial rule has one point. *)
Definition idle_integrator
    : Integrator.SeparableNumericalTestKernelTrialIntegrator R :=
  Integrator.mkIntegrator
    (Integrator.mkMat 2 0 (fun _ _ => 0))
    (Integrator.mkMat 2 1 (fun _ _ => / 3))
    [] [/ 2]
    (Integrator.mkRawGridGeometry (fun _ _ _ => 1))
    (Integrator.mkExpression 1 (fun _ _ _ _ _ _ => 1))
    (Integrator.mkKernel 1 1 (fun _ _ _ _ _ _ _ _ => 1))
    (Integrator.mkExpression 1 (fun _ _ _ _ _ _ => 1))
    (Integrator.mkOpenClHandler false).

(** Two spaces with 3 and with 5 global DOFs on the unit cube. *)
Definition space_of_3_dofs : Assembler.Space :=
  Assembler.mkSpace 3 3 (mkVec3 0 0 0, mkVec3 1 1 1) [] [].
Definition space_of_5_dofs : Assembler.Space :=
  Assembler.mkSpace 5 5 (mkVec3 0 0 0, mkVec3 1 1 1) [] [].

(** Flag values and routines for the assembler. *)
Definition sample_environment : Assembler.Environment :=
  {| Assembler.NO_SYMMETRY := 0%Z;
     Assembler.HERMITIAN := 2%Z;
     Assembler.SYMMETRIC := 1%Z;
     Assembler.conv_to_CoordinateType := fun bound => bound;
     Assembler.Octree_new := fun nLevels lowerBound upperBound =>
       Returned (Assembler.mkOctree nLevels lowerBound upperBound);
     Assembler.assignPoints := fun _ _ _ => Returned [];
     Assembler.getNodesPerLevel := fun levels => (8 ^ levels)%Z;
     Assembler.cacheNearField := fun _ _ _ => Returned tt;
     Assembler.cacheFarField := fun _ _ _ => Returned tt |}.

(** A grid function on a volume grid made of one tetrahedron. *)
Definition tetrahedron_function : GridFun.GridFunction R :=
  GridFun.mkGridFunction
    (GridFun.mkSpace
       (GridFun.mkGrid 3 3 [GridFun.mkElement 4096 4 [0; 1; 2; 3] [0; 1; 2; 3]]%Z 4)
       1)
    [1; 1; 1; 1].

(** A grid function on a surface grid made of one triangle. *)
Definition triangle_function : GridFun.GridFunction R :=
  GridFun.mkGridFunction
    (GridFun.mkSpace
       (GridFun.mkGrid 2 3 [GridFun.mkElement 4096 3 [0; 1; 2] [0; 1; 2]]%Z 3)
       1)
    [1; 1; 1].

(** An octree of depth 2: of its 64 leaves, the corner leaf 63 holds no
    DOF and every other leaf holds one. *)
Definition octree_of_depth_2 : OctreeLists.Octree :=
  OctreeLists.mkOctree 2 (fun n => if (n =? 63)%nat then 0%nat else 1%nat).

(** A 2 x 2 x 1 cube filled with sevens. *)
Definition some_cube : Integrator.Cube R :=
  Integrator.mkCube 2 2 1 (fun _ _ _ => 7).

End Examples.

(* ================================================================== *)
(** * Arithmetic of the scalar types *)
(* ================================================================== *)

Module Arithmetic.

Local Open Scope R_scope.

(** [a - b] on values: [a + (-b)]. *)
Definition vsub {V} `{ValueType V} (a b : V) : V := vadd a (vopp b).

End Arithmetic.

Import Arithmetic.

(* ================================================================== *)
(** * fmm_transform.cpp: the terms of the M2L series *)
(* ================================================================== *)

Module FmmSeries.

Import Fmm.
Local Open Scope R_scope.

Section WithValueType.

Context {V : Type} `{VT : ValueType V} `{EX : Externals V}.

(** [scaledhl = -m_kappa/(16*pi*pi)*pow(i,l)*CoordinateType(2*l+1)*hl]
    with [hl = sqrt(pi/(2*z))*(cyr + i*cyi)] and [z = i*m_kappa*r], as
    iteration [l] of the loop of [M2L] computes it. *)
Definition scaledhl (fmm : FmmHighFreq V) (r : R) (i : V) (l : nat) : V :=
  let z := vmul (vmul i (m_kappa fmm)) (of_real r) in
  let res := M2L_zbesh fmm r i l in
  let hl := vmul (vsqrt (vdiv (of_real PI) (vmul (of_real 2) z)))
                 (vadd (of_real (cyr res)) (vmul i (of_real (cyi res)))) in
  vmul (vmul (vmul (vdiv (vopp (m_kappa fmm)) (of_real (16 * PI * PI)))
                   (vpow i l))
             (of_real (INR (2 * l + 1))))
       hl.

(** [Tlocal = scaledhl*CLLdash*legendre_p(l, costheta)] at the
    quadrature point [(ntheta, m)], for [CLLdash = 1.]. *)
Definition Tlocal (fmm : FmmHighFreq V) (r : R) (Rhat : vec3) (i : V)
    (L l ntheta m : nat) : V :=
  let costheta := clamp_cosine (dot Rhat (khat L ntheta m)) in
  vmul (vmul (scaledhl fmm r i l) (of_real 1))
       (of_real (legendre_p l costheta)).

End WithValueType.

End FmmSeries.

(* ================================================================== *)
(** * grid_function.cpp: construction, coefficients and arithmetic *)
(* ================================================================== *)

Module GridFunOps.

Local Open Scope cxx_scope.

(** A [Space] object as the methods of [GridFunction] use it: besides
    the data of [GridFun.Space] it answers [dofsAssigned()] and
    [globalDofCount()]. *)
Record SpaceObject : Type := mkSpaceObject {
  space_state : GridFun.Space;
  space_dofsAssigned : bool;
  space_globalDofCount : Z
}.

(** A grid function keeps a reference [const Space&], and the operators
    compare the addresses of the spaces: the [Space] objects are looked
    up by address. *)
Definition Memory : Type := Z -> SpaceObject.

(** [scalar == 0] for the scalar types. *)
Class ZeroTest (V : Type) : Type := { is_zero : V -> bool }.

#[export] Instance double_ZeroTest : ZeroTest R :=
  {| is_zero := fun s => if Req_dec_T s 0 then true else false |}.

#[export] Instance complex_ZeroTest : ZeroTest complex :=
  {| is_zero := fun s =>
       if Req_dec_T (re s) 0
       then (if Req_dec_T (im s) 0 then true else false)
       else false |}.

Section WithValueType.

Context {V : Type} `{VT : ValueType V} `{ZT : ZeroTest V}.

Variable spaces : Memory.

(** The members of [GridFunction<ArgumentType, ResultType>]; [m_space]
    is the address of the space referred to. *)
Record GridFunction : Type := mkGridFunction {
  m_space : Z;
  m_coefficients : list V
}.

Definition dofs_not_assigned : exception :=
  runtime_error
    "GridFunction::GridFunction(): degrees of freedom of the provided space must be assigned beforehand".

Definition dimension_mismatch : exception :=
  runtime_error
    "GridFunction::GridFunction(): dimension of coefficients does not match the number of global DOFs in the provided function space".

(** [GridFunction(space, coefficients)] *)
Definition GridFunction_new (space : Z) (coefficients : list V)
    : outcome GridFunction :=
  if negb (space_dofsAssigned (spaces space)) then Thrown dofs_not_assigned
  else if negb (space_globalDofCount (spaces space)
                =? Z.of_nat (List.length coefficients))%Z
  then Thrown dimension_mismatch
  else Returned (mkGridFunction space coefficients).

(** [grid()], [space()], [codomainDimension()], [coefficients()] *)
Definition grid (g : GridFunction) : GridFun.Grid :=
  GridFun.space_grid (space_state (spaces (m_space g))).
Definition space (g : GridFunction) : Z := m_space g.
Definition codomainDimension (g : GridFunction) : Z :=
  GridFun.space_codomainDimension (space_state (spaces (m_space g))).
Definition coefficients (g : GridFunction) : list V := m_coefficients g.

Definition wrong_coefficient_count : exception :=
  invalid_argument
    "GridFunction::setCoefficients(): dimension of the provided vector does not match the number of global DOFs".

(** [setCoefficients(coeffs)], acting on the object it is called on. *)
Definition setCoefficients (coeffs : list V) : prog GridFunction unit :=
  fun g =>
    if negb (Z.of_nat (List.length coeffs)
             =? space_globalDofCount (spaces (m_space g)))%Z
    then throw wrong_coefficient_count g
    else modify (fun g => mkGridFunction (m_space g) coeffs) g.

(** [getLocalCoefficients(element, coeffs)]; the value left in [coeffs].
    An index outside [m_coefficients] is an access outside an Armadillo
    vector. *)
Definition getLocalCoefficients (g : GridFunction) (element : GridFun.Element)
    : outcome (list V) :=
  for_each (fun gdof coeffs =>
              c <- of_option (vec_get (m_coefficients g) gdof) ;;
              Returned (coeffs ++ [c]))
           (GridFun.elem_globalDofs element) [].

(** [a + b] and [a - b] on [arma::Col]: entry by entry, for operands of
    the same size.  What Armadillo does for operands of different sizes
    depends on how it was built and is not modelled. *)
Definition arma_zip (op : V -> V -> V) (a b : list V) : outcome (list V) :=
  if (List.length a =? List.length b)%nat
  then Returned (map (fun xy => op (fst xy) (snd xy)) (combine a b))
  else Undefined.

(** [scalar * a] *)
Definition arma_scale (scalar : V) (a : list V) : list V :=
  map (vmul scalar) a.

(** [operator+(g1, g2)] *)
Definition plus (g1 g2 : GridFunction) : outcome GridFunction :=
  if negb (space g1 =? space g2)%Z
  then Thrown (runtime_error "GridFunction::operator+(): spaces don't match")
  else
    let g1Vals := coefficients g1 in
    let g2Vals := coefficients g2 in
    vals <- arma_zip vadd g1Vals g2Vals ;;
    GridFunction_new (space g1) vals.

(** [operator-(g1, g2)] *)
Definition minus (g1 g2 : GridFunction) : outcome GridFunction :=
  if negb (space g1 =? space g2)%Z
  then Thrown (runtime_error "GridFunction::operator-(): spaces don't match")
  else
    let g1Vals := coefficients g1 in
    let g2Vals := coefficients g2 in
    vals <- arma_zip vsub g1Vals g2Vals ;;
    GridFunction_new (space g1) vals.

(** [operator*(g1, scalar)] *)
Definition times (g1 : GridFunction) (scalar : V) : outcome GridFunction :=
  let g1Vals := coefficients g1 in
  GridFunction_new (space g1) (arma_scale scalar g1Vals).

(** [operator*(scalar, g2)] *)
Definition times_left (scalar : V) (g2 : GridFunction) : outcome GridFunction :=
  times g2 scalar.

(** [operator/(g1, scalar)] *)
Definition divide (g1 : GridFunction) (scalar : V) : outcome GridFunction :=
  if is_zero scalar then Thrown (runtime_error "Divide by zero")
  else times_left (vdiv vone scalar) g1.

(** The class invariant the constructor checks: the DOFs of the space
    are assigned and there is one coefficient per global DOF. *)
Definition well_formed (g : GridFunction) : Prop :=
  space_dofsAssigned (spaces (m_space g)) = true
  /\ space_globalDofCount (spaces (m_space g))
     = Z.of_nat (List.length (m_coefficients g)).

(** ** Projections *)

Definition projections_need_dofs : exception :=
  runtime_error
    "GridFunction::calculateProjections(): degrees of freedom of the provided space must be assigned before calling calculateProjections()".

(** [result(i) += x] on an [arma::Col]. *)
Definition arma_add_at (result : list V) (i : Z) (x : V) : outcome (list V) :=
  old <- of_option (vec_get result i) ;;
  of_option (vec_set result i (vadd old x)).

(** [reallyCalculateProjections(space, assembler, options)], given the
    vectors [localResult] that [assembler.evaluateLocalWeakForms] leaves
    for the elements [0 .. elementCount-1].  The elements of the grid
    are listed by their index in the element mapper. *)
Definition reallyCalculateProjections (space : Z)
    (localResult : list (list V)) : outcome (list V) :=
  let elements :=
    GridFun.grid_elements (GridFun.space_grid (space_state (spaces space))) in
  let elementCount := to_int (Z.of_nat (List.length elements)) in
  let testGlobalDofs := map GridFun.elem_globalDofs elements in
  let result :=
    repeat vzero (Z.to_nat (space_globalDofCount (spaces space))) in
  for_each
    (fun testIndex result =>
       gdofs <- of_option (vec_get testGlobalDofs testIndex) ;;
       for_each
         (fun testDof result =>
            gdof <- of_option (vec_get gdofs testDof) ;;
            local <- of_option (vec_get localResult testIndex) ;;
            x <- of_option (vec_get local testDof) ;;
            arma_add_at result gdof x)
         (Integrator.int_range (Z.of_nat (List.length gdofs))) result)
    (Integrator.int_range elementCount) result.

(** [calculateProjections(globalFunction, space, factory, options)]:
    the assembler it builds is represented by the local weak forms
    [localResult] it evaluates. *)
Definition calculateProjections (space : Z)
    (localResult : list (list V)) : outcome (list V) :=
  if negb (space_dofsAssigned (spaces space)) then Thrown projections_need_dofs
  else reallyCalculateProjections space localResult.

(** The effect of the statements [result(gdof) += x] for a list of
    pairs [(gdof, x)]. *)
Definition scatter (pairs : list (Z * V)) (result : list V) : list V :=
  fold_left (fun r p =>
               list_set r (Z.to_nat (fst p))
                        (vadd (nth (Z.to_nat (fst p)) r vzero) (snd p)))
            pairs result.

(** The local integrals that are added to entry [i] of the global
    vector, in the order of the loops. *)
Definition contributions_to (i : Z) (testGlobalDofs : list (list Z))
    (localResult : list (list V)) : list V :=
  map snd
    (filter (fun p => (fst p =? i)%Z)
       (flat_map (fun gl => combine (fst gl) (snd gl))
                 (combine testGlobalDofs localResult))).

End WithValueType.

Arguments GridFunction V : clear implicits.

End GridFunOps.

(* ================================================================== *)
(** * concrete_geometry.hpp: normal vectors *)
(* ================================================================== *)

Module Geometry.

Import Floats.
Local Open Scope float_scope.
Local Open Scope cxx_scope.

(** [Fiber::_3dArray<double>]: the entries [jt(i, j, k)], IEEE doubles,
    and [extent(2)], the number of points. *)
Record Array3d : Type := mkArray3d {
  extent2 : nat;
  at3 : Z -> Z -> Z -> float
}.

Arguments at3 _ (_ _ _)%_Z_scope.

(** [for (size_t i = 0; i < pointCount; ++i)] *)
Definition points (pointCount : nat) : list Z :=
  map Z.of_nat (seq 0 pointCount).

(** The first part of [calculateNormals]: the columns of [normals],
    normal vectors of arbitrary length. *)
Definition arbitrary_length_normals (cdim : Z) (jt : Array3d)
    : outcome (list (list float)) :=
  let pointCount := extent2 jt in
  if (cdim =? 3)%Z then
    Returned
      (map (fun i =>
              [ at3 jt 0 1 i * at3 jt 1 2 i - at3 jt 0 2 i * at3 jt 1 1 i;
                at3 jt 0 2 i * at3 jt 1 0 i - at3 jt 0 0 i * at3 jt 1 2 i;
                at3 jt 0 0 i * at3 jt 1 1 i - at3 jt 0 1 i * at3 jt 1 0 i ])
           (points pointCount))
  else if (cdim =? 2)%Z then
    Returned (map (fun i => [at3 jt 0 1 i; at3 jt 0 0 i]) (points pointCount))
  else if (cdim =? 1)%Z then
    Returned (map (fun i => [1]) (points pointCount))
  else
    Thrown (runtime_error
      "ConcreteGeometry::calculateNormals(): Normal vector is not defined for zero-dimensional space").

(** [sum += normals(dim, i) * normals(dim, i)] over the entries of a
    column, starting from [sum = 0.]. *)
Definition sum_of_squares (normal : list float) : float :=
  fold_left (fun sum n => sum + n * n) normal 0.

(** The second part: [invLength = 1. / sqrt(sum)] and
    [normals(j, i) *= invLength]. *)
Definition set_length_to_1 (normal : list float) : list float :=
  let sum := sum_of_squares normal in
  let invLength := 1 / sqrt sum in
  map (fun n => n * invLength) normal.

(** [ConcreteGeometry<dim_>::calculateNormals(jt, normals)] for a Dune
    geometry with [mydimension = mdim] and [coorddimension = cdim]; the
    value left in [normals], column by column. *)
Definition calculateNormals (mdim cdim : Z) (jt : Array3d)
    : outcome (list (list float)) :=
  if negb (mdim =? cdim - 1)%Z then
    Thrown (logic_error
      "ConcreteGeometry::calculateNormals(): normal vectors are defined only for entities of dimension (worldDimension - 1)")
  else
    normals <- arbitrary_length_normals cdim jt ;;
    Returned (map set_length_to_1 normals).

(** The transposed Jacobians of a flat triangle whose two tangent rows
    are (1, 0, 0) and (2, 0, 0) at its only point: a degenerate element,
    the rows being parallel. *)
Definition collapsed_triangle : Array3d :=
  mkArray3d 1 (fun r c _ =>
    if (c =? 0)%Z then (if (r =? 0)%Z then 1 else 2) else 0).

(** The transposed Jacobian of a segment in the plane with the tangent
    (3, 4) at its only point. *)
Definition slanted_segment : Array3d :=
  mkArray3d 1 (fun _ c _ => if (c =? 0)%Z then 3 else 4).

End Geometry.

(* ================================================================== *)
(** * identity_operator.cpp *)
(* ================================================================== *)

Module Identity.

Local Open Scope cxx_scope.

(** [AssemblyOptions::Representation]: the enumerators the file names,
    and any other value of the enumeration. *)
Inductive Representation : Type :=
| DENSE
| ACA
| SPARSE
| OtherRepresentation (value : Z).

(** [IdentityOperator::supportsRepresentation(repr)] *)
Definition supportsRepresentation (repr : Representation) : bool :=
  match repr with
  | DENSE | SPARSE | ACA => true
  | OtherRepresentation _ => false
  end.

(** A [Space] as the operator uses it: the answers of [dofsAssigned()]
    and [globalDofCount()], the address of its grid, and the global
    DOFs [globalDofs(element, ...)] of the elements of the grid's leaf
    view, listed by element index. *)
Record Space : Type := mkSpace {
  dofsAssigned : bool;
  grid : Z;
  globalDofCount : Z;
  globalDofs : list (list Z)
}.

(** The operator: its test and trial space. *)
Record IdentityOperator : Type := mkIdentityOperator {
  getTestSpace : Space;
  getTrialSpace : Space
}.

Definition dofs_must_be_assigned : exception :=
  runtime_error
    "IdentityOperator::assembleWeakForm(): degrees of freedom must be assigned before calling assembleWeakForm()".

Definition grids_differ : exception :=
  runtime_error
    "IdentityOperator::assembleWeakForm(): testSpace and trialSpace must be defined over the same grid".

Definition invalid_assembly_mode : exception :=
  runtime_error "IdentityOperator::assembleWeakForm(): invalid assembly mode".

Definition trilinos_missing : exception :=
  runtime_error
    "To enable assembly in sparse mode, recompile BEM++ with the symbol WITH_TRILINOS defined.".

Section WithValueType.

Context {V : Type} `{VT : ValueType V}.

(** [Epetra_FECrsMatrix], and what [assembleWeakFormInSparseMode] does
    in a build with [WITH_TRILINOS]; [None] stands for a build without. *)
Variable Epetra_FECrsMatrix : Type.
Variable trilinos :
  option (IdentityOperator -> list (Integrator.Mat V)
          -> outcome Epetra_FECrsMatrix).

(** The discrete operators the assembly returns. *)
Inductive DiscreteLinearOperator : Type :=
| DiscreteDenseLinearOperator (mat : Integrator.Mat V)
| DiscreteSparseLinearOperator (mat : Epetra_FECrsMatrix).

(** [m(i, j)] on an [arma::Mat]: defined inside its dimensions. *)
Definition mat_get (m : Integrator.Mat V) (i j : Z) : option V :=
  if ((0 <=? i) && (i <? Integrator.n_rows m)
      && (0 <=? j) && (j <? Integrator.n_cols m))%Z
  then Some (Integrator.mat_at m i j) else None.

(** [m(i, j) += x]: the matrix afterwards, and the statement itself,
    defined inside the dimensions of [m]. *)
Definition add_entry (i j : Z) (x : V) (m : Integrator.Mat V)
    : Integrator.Mat V :=
  Integrator.mkMat (Integrator.n_rows m) (Integrator.n_cols m)
    (fun i' j' =>
       if ((i' =? i) && (j' =? j))%Z
       then vadd (Integrator.mat_at m i' j') x
       else Integrator.mat_at m i' j').

Definition mat_add_at (m : Integrator.Mat V) (i j : Z) (x : V)
    : option (Integrator.Mat V) :=
  if ((0 <=? i) && (i <? Integrator.n_rows m)
      && (0 <=? j) && (j <? Integrator.n_cols m))%Z
  then Some (add_entry i j x m)
  else None.

(** [assembleWeakFormInDenseMode(assembler, options)], given the local
    matrices [localResult] that [assembler.evaluateLocalWeakForms]
    leaves for the elements [0 .. elementCount-1]. *)
Definition assembleWeakFormInDenseMode (this : IdentityOperator)
    (localResult : list (Integrator.Mat V)) : outcome DiscreteLinearOperator :=
  let testSpace := getTestSpace this in
  let trialSpace := getTrialSpace this in
  let elementCount := to_int (Integrator.size (globalDofs testSpace)) in
  let result :=
    Integrator.mkMat (globalDofCount testSpace) (globalDofCount trialSpace)
                     (fun _ _ => vzero) in
  let trialGdofs := globalDofs trialSpace in
  let testGdofs := globalDofs testSpace in
  result <-
    for_each
      (fun e result =>
         trialGdofs_e <- of_option (vec_get trialGdofs e) ;;
         for_each
           (fun trialIndex result =>
              testGdofs_e <- of_option (vec_get testGdofs e) ;;
              for_each
                (fun testIndex result =>
                   testGdof <- of_option (vec_get testGdofs_e testIndex) ;;
                   trialGdof <- of_option (vec_get trialGdofs_e trialIndex) ;;
                   local <- of_option (vec_get localResult e) ;;
                   x <- of_option (mat_get local testIndex trialIndex) ;;
                   of_option (mat_add_at result testGdof trialGdof x))
                (Integrator.int_range (Integrator.size testGdofs_e)) result)
           (Integrator.int_range (Integrator.size trialGdofs_e)) result)
      (Integrator.int_range elementCount) result ;;
  Returned (DiscreteDenseLinearOperator result).

(** [assembleWeakFormInSparseMode(assembler, options)] *)
Definition assembleWeakFormInSparseMode (this : IdentityOperator)
    (localResult : list (Integrator.Mat V)) : outcome DiscreteLinearOperator :=
  match trilinos with
  | Some sparse_assembly =>
      result <- sparse_assembly this localResult ;;
      Returned (DiscreteSparseLinearOperator result)
  | None => Thrown trilinos_missing
  end.

(** [assembleWeakFormInternal(assembler, options)], for
    [options.operatorRepresentation() = repr]. *)
Definition assembleWeakFormInternal (this : IdentityOperator)
    (localResult : list (Integrator.Mat V)) (repr : Representation)
    : outcome DiscreteLinearOperator :=
  match repr with
  | DENSE => assembleWeakFormInDenseMode this localResult
  | ACA => assembleWeakFormInSparseMode this localResult
  | _ => Thrown invalid_assembly_mode
  end.

(** [assembleWeakForm(factory, options)]: the assembler that the factory
    makes is represented by the local matrices it evaluates. *)
Definition assembleWeakForm (this : IdentityOperator)
    (localResult : list (Integrator.Mat V)) (repr : Representation)
    : outcome DiscreteLinearOperator :=
  let testSpace := getTestSpace this in
  let trialSpace := getTrialSpace this in
  if negb (dofsAssigned testSpace) || negb (dofsAssigned trialSpace)
  then Thrown dofs_must_be_assigned
  else if negb (grid testSpace =? grid trialSpace)%Z
  then Thrown grids_differ
  else assembleWeakFormInternal this localResult repr.

(** The rows and columns stay as the constructor of [result] set them. *)
Definition sized (rows cols : Z) (m : Integrator.Mat V) : Prop :=
  Integrator.n_rows m = rows /\ Integrator.n_cols m = cols.

(** The inputs for which the loops stay inside all vectors and
    matrices: one list of DOFs and one local matrix per element, local
    matrices with a row per test DOF and a column per trial DOF of the
    element, and global DOF indices within the dimensions of the
    result. *)
Definition fits (this : IdentityOperator)
    (localResult : list (Integrator.Mat V)) : Prop :=
  let testGdofs := globalDofs (getTestSpace this) in
  let trialGdofs := globalDofs (getTrialSpace this) in
  (Z.of_nat (List.length testGdofs) < 2 ^ 31)%Z
  /\ List.length trialGdofs = List.length testGdofs
  /\ List.length localResult = List.length testGdofs
  /\ forall e, (e < List.length testGdofs)%nat ->
       (Z.of_nat (List.length (nth e testGdofs []))
        <= Integrator.n_rows
             (nth e localResult (Integrator.mkMat 0 0 (fun _ _ => vzero))))%Z
       /\ (Z.of_nat (List.length (nth e trialGdofs []))
           <= Integrator.n_cols
                (nth e localResult (Integrator.mkMat 0 0 (fun _ _ => vzero))))%Z
       /\ Forall (fun d => (0 <= d < globalDofCount (getTestSpace this))%Z)
                 (nth e testGdofs [])
       /\ Forall (fun d => (0 <= d < globalDofCount (getTrialSpace this))%Z)
                 (nth e trialGdofs []).

(** The local values that are added to entry [(i, j)] of the global
    matrix, in the order of the loops. *)
Definition matrix_contributions (i j : Z) (testGdofs trialGdofs : list (list Z))
    (localResult : list (Integrator.Mat V)) : list V :=
  flat_map
    (fun e =>
       flat_map
         (fun trialIndex =>
            flat_map
              (fun testIndex =>
                 if ((nth testIndex (nth e testGdofs []) 0 =? i)
                     && (nth trialIndex (nth e trialGdofs []) 0 =? j))%Z
                 then [Integrator.mat_at
                         (nth e localResult
                              (Integrator.mkMat 0 0 (fun _ _ => vzero)))
                         (Z.of_nat testIndex) (Z.of_nat trialIndex)]
                 else [])
              (seq 0 (List.length (nth e testGdofs []))))
         (seq 0 (List.length (nth e trialGdofs []))))
    (seq 0 (List.length testGdofs)).

End WithValueType.

Arguments DiscreteLinearOperator V Epetra_FECrsMatrix : clear implicits.
Arguments DiscreteDenseLinearOperator {V Epetra_FECrsMatrix} mat.
Arguments DiscreteSparseLinearOperator {V Epetra_FECrsMatrix} mat.

End Identity.

(* ================================================================== *)
(** * The integrator: the overload for one element against many *)
(* ================================================================== *)

Module IntegratorVariants.

Import Integrator.
Local Open Scope cxx_scope.

(** [CallVariant] *)
Inductive CallVariant : Type := TEST_TRIAL | TRIAL_TEST.

(** [LocalDofIndex] *)
Definition LocalDofIndex : Type := Z.

Section WithValueType.

Context {V : Type} `{VT : ValueType V}.

(** The constant [ALL_DOFS], declared outside the file. *)
Variable ALL_DOFS : LocalDofIndex.

(** The values [values(dim, dof, point)] of an expression on an element
    for the local DOF [localDofIndex] of a basis, or for all of them:
    [basis.evaluate(deps, points, localDofIndex, basisData)] followed by
    [expression.evaluate(basisData, geomData, values)]. *)
Variable evaluate_dofs :
  Expression V -> Basis -> LocalDofIndex -> Mat V -> Z -> (Z -> Z -> Z -> V).

(** [integrateCpu(callVariant, elementIndicesA, elementIndexB, basisA,
    basisB, localDofIndexB, result)]; the result is the new content of
    the output argument [result]. *)
Definition integrateCpu (this : SeparableNumericalTestKernelTrialIntegrator V)
    (callVariant : CallVariant) (elementIndicesA : list Z) (elementIndexB : Z)
    (basisA basisB : Basis) (localDofIndexB : LocalDofIndex)
    (result : Cube V) : outcome (Cube V) :=
  let testPointCount := to_int (n_cols (m_localTestQuadPoints this)) in
  let trialPointCount := to_int (n_cols (m_localTrialQuadPoints this)) in
  let elementACount := to_int (size elementIndicesA) in
  if ((testPointCount =? 0) || (trialPointCount =? 0)
      || (elementACount =? 0))%Z
  then Returned result
  else
  let testComponentCount := expr_codomainDimension (m_testExpression this) in
  let trialComponentCount := expr_codomainDimension (m_trialExpression this) in
  let dofCountA := to_int (basis_size basisA) in
  let dofCountB :=
    if (localDofIndexB =? ALL_DOFS)%Z then to_int (basis_size basisB)
    else 1%Z in
  let testDofCount :=
    match callVariant with TEST_TRIAL => dofCountA | _ => dofCountB end in
  let trialDofCount :=
    match callVariant with TEST_TRIAL => dofCountB | _ => dofCountA end in
  let kernelRowCount := kernel_codomainDimension (m_kernel this) in
  let kernelColCount := kernel_domainDimension (m_kernel this) in
  let scalarKernel := ((kernelRowCount =? 1) && (kernelColCount =? 1))%Z in
  (* the assertions on the dimensions *)
  if negb (if scalarKernel
           then (testComponentCount =? trialComponentCount)%Z
           else ((testComponentCount =? kernelRowCount)
                 && (kernelColCount =? trialComponentCount))%Z)
  then Undefined
  else
  let result0 := set_size result testDofCount trialDofCount elementACount in
  let element_body (result : Cube V) (indexA : Z) : Cube V :=
    let elementIndexA := nth (Z.to_nat indexA) elementIndicesA 0%Z in
    let testElement :=
      match callVariant with
      | TEST_TRIAL => elementIndexA
      | _ => elementIndexB
      end in
    let trialElement :=
      match callVariant with
      | TEST_TRIAL => elementIndexB
      | _ => elementIndexA
      end in
    let testIntegrationElements :=
      integrationElements (m_rawGeometry this) testElement
                          (m_localTestQuadPoints this) in
    let trialIntegrationElements :=
      integrationElements (m_rawGeometry this) trialElement
                          (m_localTrialQuadPoints this) in
    let testValues :=
      match callVariant with
      | TEST_TRIAL =>
          expr_evaluate (m_testExpression this) basisA
                        (m_localTestQuadPoints this) elementIndexA
      | _ =>
          evaluate_dofs (m_testExpression this) basisB localDofIndexB
                        (m_localTestQuadPoints this) elementIndexB
      end in
    let trialValues :=
      match callVariant with
      | TEST_TRIAL =>
          evaluate_dofs (m_trialExpression this) basisB localDofIndexB
                        (m_localTrialQuadPoints this) elementIndexB
      | _ =>
          expr_evaluate (m_trialExpression this) basisA
                        (m_localTrialQuadPoints this) elementIndexA
      end in
    let kernelValues :=
      kernel_evaluateOnGrid (m_kernel this)
        testElement (m_localTestQuadPoints this)
        trialElement (m_localTrialQuadPoints this) in
    let entry (trialDof testDof : Z) : V :=
      if scalarKernel then
        sum_over
          (list_prod (int_range trialPointCount)
             (list_prod (int_range testPointCount)
                        (int_range testComponentCount)))
          (fun ix =>
             let trialPoint := fst ix in
             let testPoint := fst (snd ix) in
             let dim := snd (snd ix) in
             vmul (vmul (vmul (vmul (vmul (vmul
               (weight (m_testQuadWeights this) testPoint)
               (testIntegrationElements testPoint))
               (testValues dim testDof testPoint))
               (kernelValues 0 0 testPoint trialPoint)%Z)
               (trialValues dim trialDof trialPoint))
               (trialIntegrationElements trialPoint))
               (weight (m_trialQuadWeights this) trialPoint))
      else
        sum_over
          (list_prod (int_range trialPointCount)
             (list_prod (int_range testPointCount)
                (list_prod (int_range trialComponentCount)
                           (int_range testComponentCount))))
          (fun ix =>
             let trialPoint := fst ix in
             let testPoint := fst (snd ix) in
             let trialDim := fst (snd (snd ix)) in
             let testDim := snd (snd (snd ix)) in
             vmul (vmul (vmul (vmul (vmul (vmul
               (weight (m_testQuadWeights this) testPoint)
               (testIntegrationElements testPoint))
               (testValues testDim testDof testPoint))
               (kernelValues testDim trialDim testPoint trialPoint))
               (trialValues trialDim trialDof trialPoint))
               (trialIntegrationElements trialPoint))
               (weight (m_trialQuadWeights this) trialPoint)) in
    fold_left
      (fun result dofs =>
         let trialDof := fst dofs in
         let testDof := snd dofs in
         cube_assign result testDof trialDof indexA (entry trialDof testDof))
      (list_prod (int_range trialDofCount) (int_range testDofCount))
      result in
  Returned (fold_left element_body (int_range elementACount) result0).

(** [integrateCl(callVariant, ...)], built without [WITH_OPENCL]. *)
Definition integrateCl (this : SeparableNumericalTestKernelTrialIntegrator V)
    (callVariant : CallVariant) (elementIndicesA : list Z) (elementIndexB : Z)
    (basisA basisB : Basis) (localDofIndexB : LocalDofIndex)
    (result : Cube V) : outcome (Cube V) :=
  Thrown (runtime_error
            "Trying to call OpenCL method without OpenCL support").

(** [integrate(callVariant, ...)] *)
Definition integrate (this : SeparableNumericalTestKernelTrialIntegrator V)
    (callVariant : CallVariant) (elementIndicesA : list Z) (elementIndexB : Z)
    (basisA basisB : Basis) (localDofIndexB : LocalDofIndex)
    (result : Cube V) : outcome (Cube V) :=
  if UseOpenCl (m_openClHandler this)
  then integrateCl this callVariant elementIndicesA elementIndexB
                   basisA basisB localDofIndexB result
  else integrateCpu this callVariant elementIndicesA elementIndexB
                    basisA basisB localDofIndexB result.

End WithValueType.

End IntegratorVariants.

(* ================================================================== *)
(** * Bounding boxes *)
(* ================================================================== *)

Module Boxes.

Import Fmm.
Local Open Scope R_scope.

(** [a] is below [b] in every coordinate. *)
Definition vec3_le (a b : vec3) : Prop :=
  vx a <= vx b /\ vy a <= vy b /\ vz a <= vz b.

(** The box [inner] lies inside the box [outer]; a box is given by its
    lower and its upper corner. *)
Definition box_inside (inner outer : vec3 * vec3) : Prop :=
  vec3_le (fst outer) (fst inner) /\ vec3_le (snd inner) (snd outer).

End Boxes.

(* ================================================================== *)
(** * Further concrete inputs *)
(* ================================================================== *)

Module MoreExamples.

Import GridFunOps.
Local Open Scope R_scope.

(** The space of the grid made of one triangle. *)
Definition triangle_space : GridFun.Space :=
  GridFun.m_space Examples.triangle_function.

(** A memory whose address 100 holds the triangle space with its three
    global DOFs assigned; every other address holds a space whose DOFs
    are not assigned. *)
Definition sample_spaces : Memory :=
  fun address =>
    if (address =? 100)%Z then mkSpaceObject triangle_space true 3
    else mkSpaceObject triangle_space false 0.

(** Two grid functions on the space at address 100. *)
Definition ones : GridFunction R := mkGridFunction 100 [1; 1; 1].
Definition ramp : GridFunction R := mkGridFunction 100 [1; 2; 3].

(** The local integrals of the only element. *)
Definition local_integrals : list (list R) := [[1; 2; 3]].

(** A space with three global DOFs on a grid of one triangle, the
    identity operator on it, and the local matrix of the triangle. *)
Definition p1_space : Identity.Space :=
  Identity.mkSpace true 7 3 [[0; 1; 2]%Z].

Definition mass_operator : Identity.IdentityOperator :=
  Identity.mkIdentityOperator p1_space p1_space.

Definition local_mass : list (Integrator.Mat R) :=
  [Integrator.mkMat 3 3 (fun i j => if (i =? j)%Z then 2 else 1)].

(** An integrator over [double] with one test and one trial point. *)
Definition one_point_integrator
    : Integrator.SeparableNumericalTestKernelTrialIntegrator R :=
  Integrator.mkIntegrator
    (Integrator.mkMat 2 1 (fun _ _ => / 3))
    (Integrator.mkMat 2 1 (fun _ _ => / 3))
    [/ 2] [/ 2]
    (Integrator.mkRawGridGeometry (fun _ _ _ => 1))
    (Integrator.mkExpression 1 (fun _ _ _ _ _ _ => 1))
    (Integrator.mkKernel 1 1 (fun _ _ _ _ _ _ _ _ => 1))
    (Integrator.mkExpression 1 (fun _ _ _ _ _ _ => 1))
    (Integrator.mkOpenClHandler false).

(** An evaluation of single DOFs that ignores the DOF index. *)
Definition evaluate_all_dofs (expression : Integrator.Expression R)
    (basis : Integrator.Basis) (localDofIndex : Z)
    : Integrator.Mat R -> Z -> (Z -> Z -> Z -> R) :=
  Integrator.expr_evaluate expression basis.

End MoreExamples.

(* ================================================================== *)
(** * fmm_transform.cpp on IEEE doubles: the translation operators *)
(* ================================================================== *)

(** The translation operators [M2M] and [L2L] once more, this time over
    binary64 numbers with their rounding, infinities and NaN, for the
    statements that depend on them. *)
Module FmmDouble.

Import Floats.
Local Open Scope float_scope.
Local Open Scope cxx_scope.

(** The conversion of an [unsigned int] to [double]. *)
Definition of_unsigned (n : nat) : float :=
  of_uint63 (Uint63.of_Z (u32 (Z.of_nat n))).

(** [M_PI] of <cmath>. *)
Definition M_PI : float := 0x1.921fb54442d18p+1.

(** [arma::Col<CoordinateType>] of three entries. *)
Record vec3 : Type := mkVec3 { vx : float; vy : float; vz : float }.

(** [parentPosition - childPosition] *)
Definition vec3_sub (a b : vec3) : vec3 :=
  mkVec3 (vx a - vx b) (vy a - vy b) (vz a - vz b).

(** [dot(R, khat)]: the three products, added from left to right. *)
Definition dot (a b : vec3) : float :=
  vx a * vx b + vy a * vy b + vz a * vz b.

Definition finite_vec (a : vec3) : bool :=
  is_finite (vx a) && is_finite (vy a) && is_finite (vz a).

(** Routines [M2M] calls and fmm_transform.cpp does not define. *)
Class Externals : Type := {
  (** [legendre_roots(N, roots, weights)]: entry [i] of [roots]. *)
  legendre_root : nat -> nat -> float;
  (** [exp], [cos] and [sin] of <cmath>. *)
  exp : float -> float;
  cos : float -> float;
  sin : float -> float;
  (** [std::exp] on [std::complex<double>]. *)
  cexp : float * float -> float * float
}.

(** What the C standard fixes for these routines at a zero argument
    (Annexes F and G): [exp(+-0)] is 1 and [cexp(+-0 + i y)] is
    [1 + i y] for a zero [y]. *)
Class ExternalsAtZero `{Externals} : Prop := {
  exp_zero : forall z, is_zero z = true -> exp z = 1;
  cexp_zero : forall zr zi,
    is_zero zr = true -> is_zero zi = true -> cexp (zr, zi) = (1, zi)
}.

(** The operations of a [ValueType] that [M2M] uses: unary minus, the
    product with a [CoordinateType], [exp], and the comparison with 1. *)
Class ValueType (V : Type) : Type := {
  vneg : V -> V;
  vscale : V -> float -> V;
  vexp : V -> V;
  vfinite : V -> bool;
  is_one : V -> bool
}.

(** [double] *)
#[export] Instance double_ValueType `{Externals} : ValueType float := {
  vneg := fun x => - x;
  vscale := fun x r => x * r;
  vexp := exp;
  vfinite := is_finite;
  is_one := fun x => x =? 1
}.

(** [std::complex<double>]: real and imaginary part. *)
Definition complex : Type := (float * float)%type.

#[export] Instance complex_ValueType `{Externals} : ValueType complex := {
  vneg := fun z => (- fst z, - snd z);
  vscale := fun z r => (fst z * r, snd z * r);
  vexp := cexp;
  vfinite := fun z => is_finite (fst z) && is_finite (snd z);
  is_one := fun z => (fst z =? 1) && (snd z =? 0)
}.

(** What the statements below need of a value type: the shift factor
    [exp(-kappa * z)] of a zero offset [z] compares equal to 1 for a
    finite [kappa].  [double] and [std::complex<double>] have it when
    the routines behave at zero as the C standard says (instances
    [double_ZeroShift] and [complex_ZeroShift]). *)
Class ZeroShift (V : Type) `{ValueType V} : Prop := {
  shift_by_zero : forall (kappa : V) (z : float),
    vfinite kappa = true -> is_zero z = true ->
    is_one (vexp (vscale (vneg kappa) z)) = true
}.

Section WithValueType.

Context {V : Type} `{EX : Externals} `{VT : !ValueType V}.

(** The members of [FmmHighFreq] that [M2M] reads. *)
Record FmmHighFreq : Type := mkFmmHighFreq {
  m_kappa : V;
  m_Ls : list nat
}.

(** The truncation order [m_Ls[level-2]] stored for a level. *)
Definition order_of_level (fmm : FmmHighFreq) (level : nat) : option nat :=
  vec_get (m_Ls fmm) (Fmm.level_index level).

(** The helper arrays [costheta], [sintheta], [cosphi] and [sinphi]. *)
Definition costheta (L ntheta : nat) : float := legendre_root (L + 1) ntheta.
Definition sintheta (L ntheta : nat) : float :=
  sqrt (1 - costheta L ntheta * costheta L ntheta).
Definition cosphi (L m : nat) : float :=
  cos (2 * M_PI * of_unsigned m / of_unsigned (2 * L + 1)).
Definition sinphi (L m : nat) : float :=
  sin (2 * M_PI * of_unsigned m / of_unsigned (2 * L + 1)).

Definition khat (L ntheta m : nat) : vec3 :=
  mkVec3 (sintheta L ntheta * cosphi L m)
         (sintheta L ntheta * sinphi L m)
         (costheta L ntheta).

(** [FmmHighFreq::M2M(childPosition, parentPosition, level)].  [T] is
    allocated with [(L+1)*(2*L+1)] entries, a product computed in
    [unsigned int]; when it wraps around, the loops write past the end
    of [T]. *)
Definition M2M (fmm : FmmHighFreq) (childPosition parentPosition : vec3)
    (level : nat) : outcome (list V) :=
  L <- of_option (vec_get (m_Ls fmm) (Fmm.level_index level)) ;;
  if (Z.of_nat ((L + 1) * (2 * L + 1)) <? 2 ^ 32)%Z then
    let R := vec3_sub parentPosition childPosition in
    Returned
      (Fmm.quadrature_loop L (fun ntheta m =>
         let rcostheta := dot R (khat L ntheta m) in
         vexp (vscale (vneg (m_kappa fmm)) rcostheta)))
  else Undefined.

(** [FmmHighFreq::L2L(parentPosition, childPosition, level)] *)
Definition L2L (fmm : FmmHighFreq) (parentPosition childPosition : vec3)
    (level : nat) : outcome (list V) :=
  M2M fmm parentPosition childPosition level.

End WithValueType.

Arguments FmmHighFreq V : clear implicits.

(** The elementwise product of two transfer vectors of doubles. *)
Definition schur (a b : list float) : list float :=
  map (fun xy => fst xy * snd xy) (combine a b).

(** The reading of the round-trip sentence for [double]: [M2M(c, p)] and
    [L2L(p, c)] return, and every entry of their elementwise product
    compares equal to 1. *)
Definition round_trip_is_identity `{Externals}
    (fmm : FmmHighFreq float) (c p : vec3) (level : nat) : Prop :=
  exists T1 T2,
    M2M fmm c p level = Returned T1
    /\ L2L fmm p c level = Returned T2
    /\ forallb is_one (schur T1 T2) = true.

(** Externals described at the arguments a level of order 0 calls them
    with, and where [exp] overflows or underflows whatever its rounding:
    the root 0 of the Legendre polynomial of degree 1, [cos] and [sin] at
    zero, [exp] at zero, below -746 and above 710.  NaN stands for the
    values that are not described. *)
Definition order_0_externals : Externals :=
  {| legendre_root := fun N _ => if (N =? 1)%nat then 0 else nan;
     exp := fun x =>
       if is_zero x then 1
       else if x <? -746 then 0
       else if 710 <? x then infinity
       else nan;
     cos := fun x => if is_zero x then 1 else nan;
     sin := fun x => if is_zero x then x else nan;
     cexp := fun z =>
       if is_zero (fst z) && is_zero (snd z) then (1, snd z) else (nan, nan) |}.

(** A transform over [double] with wavenumber 1000 whose only level has
    order 0, and one over [std::complex<double>] with wavenumber
    [3 + 4i]. *)
Definition stiff_transform : FmmHighFreq float :=
  {| m_kappa := 1000; m_Ls := [0%nat] |}.
Definition complex_transform : FmmHighFreq complex :=
  {| m_kappa := (3, 4); m_Ls := [0%nat] |}.

Definition origin : vec3 := mkVec3 0 0 0.
Definition unit_x : vec3 := mkVec3 1 0 0.

End FmmDouble.

(* ================================================================== *)
(** * Properties *)
(* ================================================================== *)

(** ** Scalars: both instantiations satisfy the laws *)

Module ScalarFacts.

Local Open Scope R_scope.

#[export] Instance double_Laws : ValueTypeLaws R.
Proof. constructor; simpl; intros. apply Rabs_pos. Qed.

#[export] Instance complex_Laws : ValueTypeLaws complex.
Proof. constructor; simpl; intros. apply sqrt_pos. Qed.

End ScalarFacts.

Import ScalarFacts.

(** ** Vectors and loops *)

Module CxxFacts.

Lemma u32_small (z : Z) : (0 <= z < 2 ^ 32)%Z -> u32 z = z.
Proof. intros Hz; unfold u32; apply Z.mod_small; exact Hz. Qed.

Lemma list_set_length {A} (v : list A) n a :
  List.length (list_set v n a) = List.length v.
Proof.
  revert n; induction v as [|h t IH]; intros [|n]; simpl; auto.
Qed.

Lemma list_set_app {A} (pre : list A) x y rest :
  list_set (pre ++ x :: rest) (List.length pre) y = pre ++ y :: rest.
Proof.
  induction pre as [|h t IH]; simpl; [reflexivity | now rewrite IH].
Qed.

Lemma vec_set_app {A} (pre : list A) x y rest :
  vec_set (pre ++ x :: rest) (Z.of_nat (List.length pre)) y
  = Some (pre ++ y :: rest).
Proof.
  unfold vec_set.
  rewrite length_app; simpl.
  replace ((0 <=? Z.of_nat (List.length pre))%Z) with true
    by (symmetry; apply Z.leb_le; lia).
  replace ((Z.of_nat (List.length pre)
            <? Z.of_nat (List.length pre + S (List.length rest)))%Z) with true
    by (symmetry; apply Z.ltb_lt; lia).
  simpl. now rewrite Nat2Z.id, list_set_app.
Qed.

Lemma vec_get_nth_error {A} (v : list A) (n : nat) :
  vec_get v (Z.of_nat n) = nth_error v n.
Proof.
  unfold vec_get.
  replace ((0 <=? Z.of_nat n)%Z) with true by (symmetry; apply Z.leb_le; lia).
  simpl. rewrite Nat2Z.id.
  destruct (Z.ltb_spec (Z.of_nat n) (Z.of_nat (List.length v))) as [Hlt|Hge].
  - reflexivity.
  - symmetry; apply nth_error_None; lia.
Qed.

Lemma vec_get_Some_nth_error {A} (v : list A) (i : Z) a :
  vec_get v i = Some a -> nth_error v (Z.to_nat i) = Some a /\ (0 <= i)%Z.
Proof.
  unfold vec_get.
  destruct (Z.leb_spec 0 i); simpl; [|discriminate].
  destruct (Z.ltb_spec i (Z.of_nat (List.length v))); [|discriminate].
  auto.
Qed.

End CxxFacts.

Import CxxFacts.

(** ** fmm_transform.cpp *)

Module FmmFacts.

Import Fmm.
Local Open Scope cxx_scope.

Lemma level_index_ok (level : nat) :
  (2 <= level)%nat -> unsigned_int level ->
  level_index level = Z.of_nat (level - 2).
Proof.
  unfold unsigned_int, level_index; intros H2 Hu.
  rewrite u32_small; lia.
Qed.

Section Constructor.

Context {V : Type} `{VT : ValueType V} `{EX : Externals V}.

(** The loop that fills [m_Ls] writes its entries from left to right. *)
Lemma fill_orders_loop (f : nat -> nat) (n : nat) :
  forall k (pre rest : list nat),
    List.length pre = k -> (n <= List.length rest)%nat ->
    (Z.of_nat (2 + k + n) <= 2 ^ 32)%Z ->
    for_each (fun level Ls => of_option (vec_set Ls (level_index level) (f level)))
             (seq (2 + k) n) (pre ++ rest)
    = Returned (pre ++ map f (seq (2 + k) n) ++ skipn n rest).
Proof.
  induction n as [|n IH]; intros k pre rest Hk Hn Hu.
  - reflexivity.
  - destruct rest as [|r0 rest]; [simpl in Hn; lia|].
    cbn [seq for_each map skipn].
    rewrite level_index_ok by (unfold unsigned_int; lia).
    replace (2 + k - 2)%nat with (List.length pre) by lia.
    rewrite vec_set_app. cbn [of_option bind].
    replace (pre ++ f (2 + k)%nat :: rest)
      with ((pre ++ [f (2 + k)%nat]) ++ rest)
      by (rewrite <- app_assoc; reflexivity).
    replace (S (2 + k)) with (2 + S k)%nat by lia.
    rewrite IH.
    + rewrite <- app_assoc. reflexivity.
    + rewrite length_app; simpl; lia.
    + simpl in Hn; lia.
    + lia.
Qed.

Lemma constructed_Ls_length kappa L levels :
  (2 <= levels)%nat ->
  List.length (constructed_Ls kappa L levels) = (levels - 1)%nat.
Proof.
  intros; unfold constructed_Ls, computed_orders.
  rewrite length_app, length_map, length_seq; simpl; lia.
Qed.

(** The loop that fills the two interpolator vectors. *)
Lemma fill_interpolators_loop (Ls : list nat) (n : nat) :
  forall k (preU restU preD restD : list InterpolateOnSphere),
    List.length preU = k -> List.length preD = k ->
    (n <= List.length restU)%nat -> (n <= List.length restD)%nat ->
    (k + n + 1 <= List.length Ls)%nat ->
    (Z.of_nat (2 + k + n) <= 2 ^ 32)%Z ->
    for_each
      (fun level (ud : list InterpolateOnSphere * list InterpolateOnSphere) =>
         hi <- of_option (vec_get Ls (level_index level + 1)) ;;
         lo <- of_option (vec_get Ls (level_index level)) ;;
         ups' <- of_option (vec_set (fst ud) (level_index level)
                              (mkInterpolateOnSphere hi lo)) ;;
         downs' <- of_option (vec_set (snd ud) (level_index level)
                              (mkInterpolateOnSphere lo hi)) ;;
         Returned (ups', downs'))
      (seq (2 + k) n) (preU ++ restU, preD ++ restD)
    = Returned
        (preU ++ map (fun level =>
                   mkInterpolateOnSphere (nth (level - 2 + 1) Ls 0%nat)
                                         (nth (level - 2) Ls 0%nat))
                 (seq (2 + k) n) ++ skipn n restU,
         preD ++ map (fun level =>
                   mkInterpolateOnSphere (nth (level - 2) Ls 0%nat)
                                         (nth (level - 2 + 1) Ls 0%nat))
                 (seq (2 + k) n) ++ skipn n restD).
Proof.
  induction n as [|n IH]; intros k preU restU preD restD HkU HkD HnU HnD HLs Hu.
  - reflexivity.
  - destruct restU as [|u0 restU]; [simpl in HnU; lia|].
    destruct restD as [|d0 restD]; [simpl in HnD; lia|].
    cbn [seq for_each map skipn].
    rewrite level_index_ok by (unfold unsigned_int; lia).
    replace (2 + k - 2)%nat with k by lia.
    replace (Z.of_nat k + 1)%Z with (Z.of_nat (k + 1)) by lia.
    rewrite !vec_get_nth_error.
    rewrite (nth_error_nth' Ls 0%nat) by lia.
    rewrite (nth_error_nth' Ls 0%nat) by lia.
    cbn [of_option bind fst snd].
    pose proof (fun y => vec_set_app preU u0 y restU) as HU; rewrite HkU in HU.
    pose proof (fun y => vec_set_app preD d0 y restD) as HD; rewrite HkD in HD.
    rewrite HU. cbn [of_option bind].
    rewrite HD. cbn [of_option bind].
    set (u := mkInterpolateOnSphere _ _).
    set (d := mkInterpolateOnSphere _ _).
    replace (preU ++ u :: restU) with ((preU ++ [u]) ++ restU)
      by (rewrite <- app_assoc; reflexivity).
    replace (preD ++ d :: restD) with ((preD ++ [d]) ++ restD)
      by (rewrite <- app_assoc; reflexivity).
    replace (S (2 + k)) with (2 + S k)%nat by lia.
    rewrite IH.
    + rewrite <- !app_assoc. reflexivity.
    + rewrite length_app; simpl; lia.
    + rewrite length_app; simpl; lia.
    + simpl in HnU; lia.
    + simpl in HnD; lia.
    + lia.
    + lia.
Qed.

Lemma skipn_repeat_app {A} (a : A) n (l : list A) :
  skipn n (repeat a n ++ l) = l.
Proof. induction n; simpl; auto. Qed.

(** The constructor completes for every tree of at least two levels and
    leaves the vectors described above. *)
Lemma FmmHighFreq_new_returns (kappa : V) (L levels : nat) :
  (2 <= levels)%nat -> unsigned_int levels ->
  exists fmm,
    FmmHighFreq_new kappa L levels = Returned fmm
    /\ m_kappa fmm = kappa
    /\ m_Ls fmm = constructed_Ls kappa L levels
    /\ m_interpolatorsUpwards fmm
       = constructed_upwards (constructed_Ls kappa L levels) levels
    /\ m_interpolatorsDownwards fmm
       = constructed_downwards (constructed_Ls kappa L levels) levels.
Proof.
  intros H2 Hu. unfold unsigned_int in Hu.
  unfold FmmHighFreq_new.
  destruct (Nat.ltb_spec levels 2) as [Hlt|_]; [lia|].
  rewrite !u32_small by lia.
  rewrite level_index_ok by (auto; exact Hu).
  replace (Z.to_nat (Z.of_nat levels - 1)) with (S (levels - 2)) by lia.
  replace (Z.to_nat (Z.of_nat levels - 2)) with (levels - 2)%nat by lia.
  replace (repeat 0%nat (S (levels - 2)))
    with (repeat 0%nat (levels - 2) ++ [0%nat])
    by (rewrite <- repeat_cons; reflexivity).
  pose proof (fun y => vec_set_app (repeat 0%nat (levels - 2)) 0%nat y []) as HS.
  rewrite repeat_length in HS. rewrite HS. cbn [of_option bind].
  unfold levels_from_to.
  replace (S (levels - 1) - 2)%nat with (levels - 2)%nat by lia.
  pose proof (fill_orders_loop
                (fun level => ceil_to_unsigned (Llevel kappa level))
                (levels - 2) 0 [] (repeat 0%nat (levels - 2) ++ [L])) as HL.
  cbn [app Nat.add] in HL. rewrite HL; clear HL;
    [ | reflexivity | rewrite length_app, repeat_length; lia | lia ].
  cbn [bind]. rewrite skipn_repeat_app.
  fold (computed_orders kappa levels). fold (constructed_Ls kappa L levels).
  pose proof (fill_interpolators_loop (constructed_Ls kappa L levels)
                (levels - 2) 0 [] (repeat InterpolateOnSphere_default (levels - 2))
                [] (repeat InterpolateOnSphere_default (levels - 2))) as HI.
  cbn [app Nat.add] in HI. rewrite HI; clear HI;
    [ | reflexivity | reflexivity | rewrite repeat_length; lia
      | rewrite repeat_length; lia
      | rewrite constructed_Ls_length by lia; lia | lia ].
  cbn [bind].
  pose proof (skipn_repeat_app InterpolateOnSphere_default (levels - 2) []) as HK.
  rewrite app_nil_r in HK. rewrite HK, !app_nil_r.
  unfold generateGaussPoints.
  rewrite constructed_Ls_length by lia.
  rewrite u32_small by lia.
  replace (Z.of_nat (levels - 1) - 1)%Z with (Z.of_nat (levels - 2)) by lia.
  rewrite vec_get_nth_error.
  unfold constructed_Ls at 1.
  rewrite nth_error_app2
    by (unfold computed_orders; rewrite length_map, length_seq; lia).
  unfold computed_orders at 1. rewrite length_map, length_seq, Nat.sub_diag.
  cbn [nth_error of_option bind].
  eexists; split; [reflexivity|]. cbn. auto.
Qed.

End Constructor.

(** *** Translation operators *)

Section QuadratureLoop.

Lemma combine_app_same {A B} (a c : list A) (b d : list B) :
  List.length a = List.length b ->
  combine (a ++ c) (b ++ d) = combine a b ++ combine c d.
Proof.
  revert b; induction a as [|x a IH]; intros [|y b] Hl;
    simpl in *; try discriminate; [reflexivity|].
  f_equal. apply IH. lia.
Qed.

Lemma combine_map_same {A B C} (f : A -> B) (g : A -> C) (l : list A) :
  combine (map f l) (map g l) = map (fun a => (f a, g a)) l.
Proof. induction l as [|a l IH]; simpl; [reflexivity | now rewrite IH]. Qed.

Lemma quadrature_loop_ext {A} (L : nat) (f g : nat -> nat -> A) :
  (forall ntheta m, f ntheta m = g ntheta m) ->
  quadrature_loop L f = quadrature_loop L g.
Proof.
  intros Hfg; unfold quadrature_loop.
  apply flat_map_ext; intros t. apply map_ext; intros m. apply Hfg.
Qed.

Lemma quadrature_loop_length {A} (L : nat) (f : nat -> nat -> A) :
  List.length (quadrature_loop L f) = ((L + 1) * (2 * L + 1))%nat.
Proof.
  unfold quadrature_loop.
  assert (Hms : List.length (seq 0 (2 * L + 1)) = (2 * L + 1)%nat)
    by apply length_seq.
  revert Hms. generalize (seq 0 (2 * L + 1)) as ms.
  generalize (2 * L + 1)%nat as k. generalize (L + 1)%nat as n.
  intros n k ms Hms. generalize 0%nat as a.
  induction n as [|n IH]; intros a; cbn [seq flat_map].
  - reflexivity.
  - rewrite length_app, length_map, Hms, IH. lia.
Qed.

Lemma quadrature_loop_const {A} (L : nat) (c : A) :
  quadrature_loop L (fun _ _ => c) = repeat c ((L + 1) * (2 * L + 1)).
Proof.
  unfold quadrature_loop.
  assert (Hms : map (fun _ : nat => c) (seq 0 (2 * L + 1))
                = repeat c (2 * L + 1)).
  { generalize (2 * L + 1)%nat as k. generalize 0%nat as b.
    intros b k; revert b; induction k as [|k IHk]; intros b; simpl;
      [reflexivity | now rewrite IHk]. }
  rewrite (flat_map_ext _ (fun _ : nat => repeat c (2 * L + 1)))
    by (intros; apply Hms).
  generalize (2 * L + 1)%nat as k. generalize (L + 1)%nat as n.
  intros n k. generalize 0%nat as a.
  induction n as [|n IH]; intros a; cbn [seq flat_map].
  - reflexivity.
  - rewrite IH. cbn [Nat.mul]. now rewrite repeat_app.
Qed.

End QuadratureLoop.

(** *** What the constructed transform stores per level *)

Section Constructed.

Context {V : Type} `{VT : ValueType V} `{EX : Externals V}.

Lemma constructed_Ls_nth kappa L levels level :
  (2 <= level)%nat -> (level <= levels)%nat ->
  nth_error (constructed_Ls kappa L levels) (level - 2)
  = Some (nth (level - 2) (constructed_Ls kappa L levels) 0%nat).
Proof.
  intros; apply nth_error_nth'. rewrite constructed_Ls_length; lia.
Qed.


Lemma constructed_Ls_leaf kappa L levels :
  (2 <= levels)%nat ->
  nth (levels - 2) (constructed_Ls kappa L levels) 0%nat = L.
Proof.
  intros H2. apply nth_error_nth.
  unfold constructed_Ls, computed_orders.
  rewrite nth_error_app2 by (rewrite length_map, length_seq; lia).
  rewrite length_map, length_seq, Nat.sub_diag. reflexivity.
Qed.

Lemma order_of_constructed (fmm : FmmHighFreq V) kappa L levels level :
  m_Ls fmm = constructed_Ls kappa L levels ->
  unsigned_int levels ->
  (2 <= level)%nat -> (level <= levels)%nat ->
  order_of_level fmm level
  = Some (nth (level - 2) (constructed_Ls kappa L levels) 0%nat).
Proof.
  intros HLs Hu H2 Hl. unfold order_of_level. rewrite HLs.
  rewrite level_index_ok by (auto; unfold unsigned_int in *; lia).
  rewrite vec_get_nth_error. now apply constructed_Ls_nth.
Qed.

Lemma constructed_interpolator_nth {A} (F : nat -> A) levels level :
  (2 <= level)%nat -> (level <= levels - 1)%nat ->
  nth_error (map F (seq 2 (levels - 2))) (level - 2) = Some (F level).
Proof.
  intros H2 Hl. rewrite nth_error_map, nth_error_seq.
  destruct (Nat.ltb_spec (level - 2) (levels - 2)); [|lia].
  replace (2 + (level - 2))%nat with level by lia. reflexivity.
Qed.

(** C7.  On a constructed transform, [interpolate] looks at nothing but
    the comparison of its two level arguments.  If [levelOld > levelNew]
    it applies the upward operator stored for the coarser level
    [levelNew], built from the order of level [levelNew+1] to the order
    of [levelNew]; otherwise it applies the downward operator stored in
    the slot of [levelOld], built from the order of [levelOld] to the
    order of the finer level [levelOld+1]. *)
Theorem interpolate_direction (kappa : V) (L levels : nat) :
  (2 <= levels)%nat -> unsigned_int levels ->
  exists fmm,
    FmmHighFreq_new kappa L levels = Returned fmm
    /\ forall levelOld levelNew (coefficientsOld : list V),
         if (levelNew <? levelOld)%nat then
           (2 <= levelNew)%nat -> (levelNew <= levels - 1)%nat ->
           exists Lfine Lcoarse,
             order_of_level fmm (levelNew + 1) = Some Lfine
             /\ order_of_level fmm levelNew = Some Lcoarse
             /\ vec_get (m_interpolatorsUpwards fmm) (level_index levelNew)
                = Some (mkInterpolateOnSphere Lfine Lcoarse)
             /\ interpolate fmm levelOld levelNew coefficientsOld
                = Returned (sphere_interpolate
                              (mkInterpolateOnSphere Lfine Lcoarse)
                              coefficientsOld)
         else
           (2 <= levelOld)%nat -> (levelOld <= levels - 1)%nat ->
           exists Lcoarse Lfine,
             order_of_level fmm levelOld = Some Lcoarse
             /\ order_of_level fmm (levelOld + 1) = Some Lfine
             /\ vec_get (m_interpolatorsDownwards fmm) (level_index levelOld)
                = Some (mkInterpolateOnSphere Lcoarse Lfine)
             /\ interpolate fmm levelOld levelNew coefficientsOld
                = Returned (sphere_interpolate
                              (mkInterpolateOnSphere Lcoarse Lfine)
                              coefficientsOld).
Proof.
  intros H2 Hu.
  destruct (FmmHighFreq_new_returns kappa L levels H2 Hu)
    as (fmm & Hnew & _ & HLs & Hup & Hdown).
  exists fmm; split; [exact Hnew|].
  intros levelOld levelNew c. unfold interpolate.
  destruct (levelNew <? levelOld)%nat; intros Hlo Hhi.
  - exists (nth (levelNew + 1 - 2) (constructed_Ls kappa L levels) 0%nat),
           (nth (levelNew - 2) (constructed_Ls kappa L levels) 0%nat).
    assert (Hslot : vec_get (m_interpolatorsUpwards fmm) (level_index levelNew)
                    = Some (mkInterpolateOnSphere
                              (nth (levelNew + 1 - 2) (constructed_Ls kappa L levels) 0%nat)
                              (nth (levelNew - 2) (constructed_Ls kappa L levels) 0%nat))).
    { rewrite Hup. unfold constructed_upwards.
      rewrite level_index_ok by (auto; unfold unsigned_int in *; lia).
      rewrite vec_get_nth_error, constructed_interpolator_nth by lia.
      do 3 f_equal. lia. }
    rewrite Hslot.
    repeat split; try reflexivity;
      apply order_of_constructed; auto; lia.
  - exists (nth (levelOld - 2) (constructed_Ls kappa L levels) 0%nat),
           (nth (levelOld + 1 - 2) (constructed_Ls kappa L levels) 0%nat).
    assert (Hslot : vec_get (m_interpolatorsDownwards fmm) (level_index levelOld)
                    = Some (mkInterpolateOnSphere
                              (nth (levelOld - 2) (constructed_Ls kappa L levels) 0%nat)
                              (nth (levelOld + 1 - 2) (constructed_Ls kappa L levels) 0%nat))).
    { rewrite Hdown. unfold constructed_downwards.
      rewrite level_index_ok by (auto; unfold unsigned_int in *; lia).
      rewrite vec_get_nth_error, constructed_interpolator_nth by lia.
      do 3 f_equal. lia. }
    rewrite Hslot.
    repeat split; try reflexivity;
      apply order_of_constructed; auto; lia.
Qed.

End Constructed.

(** *** Truncation orders per level *)

Section Orders.

Context {V : Type} `{VT : ValueType V} `{LAWS : !ValueTypeLaws V}
        `{EX : Externals V}.

Local Open Scope R_scope.

Lemma ln_le_compat (x y : R) : 0 < x -> x <= y -> ln x <= ln y.
Proof.
  intros Hx [Hlt | Heq]; [|subst; lra]. left; now apply ln_increasing.
Qed.

Lemma ln_10_pos : 0 < ln 10.
Proof. rewrite <- ln_1. apply ln_increasing; lra. Qed.

Lemma log10_le (x y : R) : 0 < x -> x <= y -> log10 x <= log10 y.
Proof.
  intros Hx Hxy; unfold log10.
  apply Rmult_le_compat_r.
  - left; apply Rinv_0_lt_compat, ln_10_pos.
  - now apply ln_le_compat.
Qed.

Lemma log10_pos (x : R) : 1 < x -> 0 < log10 x.
Proof.
  intros Hx; unfold log10. apply Rdiv_lt_0_compat; [|apply ln_10_pos].
  rewrite <- ln_1. apply ln_increasing; lra.
Qed.

Lemma PI_gt_2 : 2 < PI.
Proof. pose proof PI2_1; lra. Qed.

Lemma Llevel_scaled kappa level :
  Llevel kappa level
  = scaled_size kappa level + prec * log10 (scaled_size kappa level + PI).
Proof. reflexivity. Qed.

Lemma scaled_size_nonneg kappa level : 0 <= scaled_size kappa level.
Proof.
  unfold scaled_size, boxsize.
  apply Rmult_le_pos; [|left; apply Rinv_0_lt_compat, pow_lt; lra].
  apply Rmult_le_pos; [|lra].
  apply Rmult_le_pos; [apply sqrt_pos | apply vabs_nonneg].
Qed.

Lemma scaled_size_antitone kappa l1 l2 :
  (l1 <= l2)%nat -> scaled_size kappa l2 <= scaled_size kappa l1.
Proof.
  intros Hl; unfold scaled_size, boxsize.
  apply Rmult_le_compat_l.
  - apply Rmult_le_pos; [|lra].
    apply Rmult_le_pos; [apply sqrt_pos | apply vabs_nonneg].
  - apply Rinv_le_contravar; [apply pow_lt; lra|].
    apply Rle_pow; [lra | exact Hl].
Qed.

(** A finer level never gets a larger [Llevel]. *)
Lemma Llevel_antitone kappa l1 l2 :
  (l1 <= l2)%nat -> Llevel kappa l2 <= Llevel kappa l1.
Proof.
  intros Hl. rewrite !Llevel_scaled.
  pose proof (scaled_size_antitone kappa l1 l2 Hl) as Hs.
  pose proof (scaled_size_nonneg kappa l2) as H0.
  pose proof PI_gt_2 as Hpi.
  apply Rplus_le_compat; [exact Hs|].
  apply Rmult_le_compat_l; [unfold prec; lra|].
  apply log10_le; lra.
Qed.

Lemma Llevel_pos kappa level : 0 < Llevel kappa level.
Proof.
  rewrite Llevel_scaled.
  pose proof (scaled_size_nonneg kappa level) as H0.
  pose proof PI_gt_2 as Hpi.
  assert (0 < log10 (scaled_size kappa level + PI)) by (apply log10_pos; lra).
  unfold prec. nra.
Qed.



End Orders.

Section OrdersOfConstructed.

Context {V : Type} `{VT : ValueType V} `{LAWS : !ValueTypeLaws V}
        `{EX : Externals V}.


End OrdersOfConstructed.

Section OrdersCounterexample.

Local Open Scope R_scope.

Lemma sqrt_3_ge_1 : 1 <= sqrt 3.
Proof. rewrite <- sqrt_1 at 1. apply sqrt_le_1; lra. Qed.


Lemma log10_10 : log10 10 = 1.
Proof. unfold log10. pose proof ln_10_pos. field. lra. Qed.

(** For [kappa = 4] every [Llevel] from level 2 on is below 12. *)
Lemma Llevel_kappa_4_small (level : nat) :
  (2 <= level)%nat -> Llevel (V := R) 4 level <= 12.
Proof.
  intros Hl.
  apply Rle_trans with (Llevel (V := R) 4 2); [now apply Llevel_antitone|].
  rewrite Llevel_scaled.
  assert (H2 : scaled_size (V := R) 4 2 = 2 * sqrt 3).
  { unfold scaled_size, boxsize; simpl. rewrite Rabs_pos_eq by lra. field. }
  rewrite H2.
  assert (Hs : sqrt 3 <= 2).
  { rewrite <- (sqrt_square 2) by lra. apply sqrt_le_1; lra. }
  pose proof sqrt_3_ge_1 as Hs1. pose proof PI_4 as Hpi4.
  pose proof PI_gt_2 as Hpi.
  assert (log10 (2 * sqrt 3 + PI) <= log10 10) by (apply log10_le; lra).
  rewrite log10_10 in *. unfold prec. lra.
Qed.

Lemma converts_kappa_4 (level : nat) :
  (2 <= level)%nat -> converts_to_unsigned (Llevel (V := R) 4 level).
Proof.
  intros Hl. unfold converts_to_unsigned.
  pose proof (Llevel_kappa_4_small level Hl) as Hle.
  pose proof (Llevel_pos (V := R) 4 level) as Hp.
  pose proof (Zceil_bound (Llevel (V := R) 4 level)) as [Hb1 Hb2].
  split.
  - apply le_IZR. lra.
  - apply lt_IZR. apply Rlt_le_trans with (12 + 1); [lra|].
    change (2 ^ 32)%Z with 4294967296%Z. lra.
Qed.



End OrdersCounterexample.

(** *** [M2L]: the Hankel evaluations and the window *)

Section M2LFacts.

Context {V : Type} `{VT : ValueType V} `{EX : Externals V}.

Variable fmm : FmmHighFreq V.
Variables (r : R) (Rhat : vec3) (i : V) (L : nat).

Lemma M2L_orders_bound (l : nat) : In l (M2L_orders L) <-> (l <= L)%nat.
Proof.
  unfold M2L_orders, Ldash. rewrite in_seq. lia.
Qed.

Lemma M2L_coefficients_success (l : nat) :
  (l <= L)%nat -> ierr (M2L_zbesh fmm r i l) = 0%Z ->
  exists scaledhl, M2L_coefficients fmm r i L l = Returned (Some scaledhl, 1%R).
Proof.
  intros Hl H0. unfold M2L_coefficients.
  destruct (Nat.leb_spec l L); [|lia].
  rewrite H0. cbn. eexists; reflexivity.
Qed.

Lemma M2L_coefficients_failure (l : nat) :
  (l <= L)%nat -> ierr (M2L_zbesh fmm r i l) <> 0%Z ->
  returns (M2L_coefficients fmm r i L l) = false
  /\ ((0 <= ierr (M2L_zbesh fmm r i l) <= 5)%Z ->
      exists msg, M2L_coefficients fmm r i L l
                  = Thrown (invalid_argument msg)).
Proof.
  intros Hl Hne. unfold M2L_coefficients.
  destruct (Nat.leb_spec l L); [|lia].
  destruct (Z.eqb_spec (ierr (M2L_zbesh fmm r i l)) 0); [contradiction|].
  split.
  - destruct (vec_get amosErrorMessages (ierr (M2L_zbesh fmm r i l)));
      reflexivity.
  - intros Hrange.
    assert (Hcases : ierr (M2L_zbesh fmm r i l) = 1%Z
                     \/ ierr (M2L_zbesh fmm r i l) = 2%Z
                     \/ ierr (M2L_zbesh fmm r i l) = 3%Z
                     \/ ierr (M2L_zbesh fmm r i l) = 4%Z
                     \/ ierr (M2L_zbesh fmm r i l) = 5%Z) by lia.
    destruct Hcases as [-> | [-> | [-> | [-> | ->]]]];
      cbn; eexists; reflexivity.
Qed.

Lemma M2L_step_success (l : nat) (T : list V) :
  (l <= L)%nat -> ierr (M2L_zbesh fmm r i l) = 0%Z ->
  exists T', M2L_step fmm r Rhat i L l T = Returned T'.
Proof.
  intros Hl H0. unfold M2L_step.
  destruct (M2L_coefficients_success l Hl H0) as [s ->].
  cbn. eexists; reflexivity.
Qed.

Lemma M2L_step_failure (l : nat) (T : list V) :
  (l <= L)%nat -> ierr (M2L_zbesh fmm r i l) <> 0%Z ->
  returns (M2L_step fmm r Rhat i L l T) = false
  /\ ((0 <= ierr (M2L_zbesh fmm r i l) <= 5)%Z ->
      exists msg, M2L_step fmm r Rhat i L l T = Thrown (invalid_argument msg)).
Proof.
  intros Hl Hne. unfold M2L_step.
  destruct (M2L_coefficients_failure l Hl Hne) as [Hret Hthrow].
  split.
  - destruct (M2L_coefficients fmm r i L l); [discriminate | reflexivity ..].
  - intros Hrange. destruct (Hthrow Hrange) as [msg ->].
    exists msg; reflexivity.
Qed.

(** The loop over [l] stops at the first order whose Hankel evaluation
    does not report success. *)
Lemma M2L_loop_outcome (ls : list nat) :
  (forall l, In l ls -> (l <= L)%nat) ->
  forall T,
    (* every evaluation succeeds and the loop completes *)
    ((forall l, In l ls -> ierr (M2L_zbesh fmm r i l) = 0%Z)
     /\ exists T', for_each (M2L_step fmm r Rhat i L) ls T = Returned T')
    \/
    (* or some evaluation fails and the loop does not complete *)
    ((exists l, In l ls /\ ierr (M2L_zbesh fmm r i l) <> 0%Z)
     /\ returns (for_each (M2L_step fmm r Rhat i L) ls T) = false
     /\ ((forall l, In l ls -> (0 <= ierr (M2L_zbesh fmm r i l) <= 5)%Z) ->
         exists msg, for_each (M2L_step fmm r Rhat i L) ls T
                     = Thrown (invalid_argument msg))).
Proof.
  induction ls as [|l ls IH]; intros Hbound T.
  - left; split; [intros l []|]. exists T; reflexivity.
  - assert (Hl : (l <= L)%nat) by (apply Hbound; left; reflexivity).
    assert (Hbound' : forall l', In l' ls -> (l' <= L)%nat)
      by (intros; apply Hbound; right; assumption).
    cbn [for_each].
    destruct (Z.eq_dec (ierr (M2L_zbesh fmm r i l)) 0) as [H0|Hne].
    + destruct (M2L_step_success l T Hl H0) as [T1 ->]. cbn [bind].
      destruct (IH Hbound' T1) as [[Hall Hret] | (Hex & Hnot & Hthrow)].
      * left; split; [|exact Hret].
        intros l' [<-|Hin]; auto.
      * right; split; [|split].
        -- destruct Hex as (l' & Hin & Hl'). exists l'; split; [right|]; auto.
        -- exact Hnot.
        -- intros Hrange. apply Hthrow. intros; apply Hrange; right; assumption.
    + right.
      destruct (M2L_step_failure l T Hl Hne) as [Hret Hthrow].
      split; [exists l; split; [left; reflexivity | exact Hne]|].
      split.
      * destruct (M2L_step fmm r Rhat i L l T); [discriminate | reflexivity ..].
      * intros Hrange.
        destruct (Hthrow (Hrange l (or_introl eq_refl))) as [msg ->].
        exists msg; reflexivity.
Qed.

(** For each order the loop visits, the Hankel branch is taken:
    [scaledhl] is set and the window [CLLdash] is 1. *)
Lemma M2L_coefficients_window (l : nat) :
  In l (M2L_orders L) ->
  forall scaledhl CLLdash,
    M2L_coefficients fmm r i L l = Returned (scaledhl, CLLdash) ->
    CLLdash = 1%R /\ scaledhl <> None.
Proof.
  intros Hin. apply M2L_orders_bound in Hin.
  intros s c. unfold M2L_coefficients.
  destruct (Nat.leb_spec l L); [|lia].
  destruct (ierr (M2L_zbesh fmm r i l) =? 0)%Z.
  - intros [= <- <-]. split; [reflexivity | discriminate].
  - destruct (vec_get amosErrorMessages (ierr (M2L_zbesh fmm r i l)));
      discriminate.
Qed.

End M2LFacts.

Section M2LOutcome.

Context {V : Type} `{VT : ValueType V} `{EX : Externals V}.

(** C4.  Let [L] be the order stored for the level and [i] the
    imaginary unit of the value type.  Whenever [amos::zbesh] reports a
    non-zero [ierr] for one of the orders [0 .. L], [M2L] does not return
    a transfer vector; if the reported codes are the documented ones
    (0 to 5) it throws [std::invalid_argument].  [M2L] returns a vector
    exactly when every evaluation reports [ierr = 0]. *)
Theorem M2L_surfaces_hankel_failure (fmm : FmmHighFreq V)
    (sourceCentre fieldCentre boxSize : vec3) (level L : nat) (i : V) :
  order_of_level fmm level = Some L ->
  getI = Returned i ->
  let r := norm2 (vec3_sub fieldCentre sourceCentre) in
  let status := fun l => ierr (M2L_zbesh fmm r i l) in
  (forall l, (l <= L)%nat -> status l <> 0%Z ->
     returns (M2L fmm sourceCentre fieldCentre boxSize level) = false)
  /\ ((forall l, (l <= L)%nat -> (0 <= status l <= 5)%Z) ->
      forall l, (l <= L)%nat -> status l <> 0%Z ->
      exists msg, M2L fmm sourceCentre fieldCentre boxSize level
                  = Thrown (invalid_argument msg))
  /\ (forall T, M2L fmm sourceCentre fieldCentre boxSize level = Returned T ->
      forall l, (l <= L)%nat -> status l = 0%Z)
  /\ ((forall l, (l <= L)%nat -> status l = 0%Z) ->
      exists T, M2L fmm sourceCentre fieldCentre boxSize level = Returned T).
Proof.
  intros HL HI r status. unfold order_of_level in HL. subst status.
  unfold M2L. rewrite HL, HI. cbn [of_option bind]. fold r.
  set (Rhat := vec3_scale_inv (vec3_sub fieldCentre sourceCentre) r).
  set (T0 := repeat vzero ((L + 1) * (2 * L + 1))).
  assert (Hbound : forall l, In l (M2L_orders L) -> (l <= L)%nat)
    by (intros l; apply M2L_orders_bound).
  destruct (M2L_loop_outcome fmm r Rhat i L (M2L_orders L) Hbound T0)
    as [[Hall [T' Hret]] | (Hex & Hnot & Hthrow)].
  - repeat split.
    + intros l Hl Hne. exfalso; apply Hne, Hall, M2L_orders_bound, Hl.
    + intros _ l Hl Hne. exfalso; apply Hne, Hall, M2L_orders_bound, Hl.
    + intros _ _ l Hl. apply Hall, M2L_orders_bound, Hl.
    + intros _. exists T'; exact Hret.
  - repeat split.
    + intros; exact Hnot.
    + intros Hrange l Hl Hne. apply Hthrow.
      intros l' Hin. apply Hrange, M2L_orders_bound, Hin.
    + intros T HT. rewrite HT in Hnot. discriminate.
    + intros Hall. destruct Hex as (l & Hin & Hne).
      exfalso; apply Hne, Hall, M2L_orders_bound, Hin.
Qed.

End M2LOutcome.

Section M2LWindow.

Import FmmSeries.

Context {V : Type} `{VT : ValueType V} `{EX : Externals V}.

Lemma accumulate_quadrature_loop (L : nat) (f g : nat -> nat -> V) :
  accumulate (quadrature_loop L f) (quadrature_loop L g)
  = quadrature_loop L (fun ntheta m => vadd (f ntheta m) (g ntheta m)).
Proof.
  unfold accumulate, quadrature_loop.
  generalize (seq 0 (2 * L + 1)) as ms. generalize (seq 0 (L + 1)) as ts.
  induction ts as [|t ts IH]; intros ms; cbn [flat_map]; [reflexivity|].
  rewrite combine_app_same by (now rewrite !length_map).
  rewrite map_app, IH, combine_map_same, map_map. reflexivity.
Qed.

Lemma M2L_coefficients_value (fmm : FmmHighFreq V) (r : R) (i : V)
    (L l : nat) :
  (l <= L)%nat -> ierr (M2L_zbesh fmm r i l) = 0%Z ->
  M2L_coefficients fmm r i L l = Returned (Some (scaledhl fmm r i l), 1%R).
Proof.
  intros Hl H0. unfold M2L_coefficients.
  destruct (Nat.leb_spec l L); [|lia].
  rewrite H0. reflexivity.
Qed.

Lemma M2L_step_value (fmm : FmmHighFreq V) (r : R) (Rhat : vec3) (i : V)
    (L l : nat) (g : nat -> nat -> V) :
  (l <= L)%nat -> ierr (M2L_zbesh fmm r i l) = 0%Z ->
  M2L_step fmm r Rhat i L l (quadrature_loop L g)
  = Returned (quadrature_loop L (fun ntheta m =>
                vadd (g ntheta m) (Tlocal fmm r Rhat i L l ntheta m))).
Proof.
  intros Hl H0. unfold M2L_step.
  rewrite M2L_coefficients_value by assumption.
  cbn [bind of_option fst snd].
  rewrite accumulate_quadrature_loop. reflexivity.
Qed.

Lemma M2L_loop_value (fmm : FmmHighFreq V) (r : R) (Rhat : vec3) (i : V)
    (L : nat) (ls : list nat) :
  (forall l, In l ls -> (l <= L)%nat /\ ierr (M2L_zbesh fmm r i l) = 0%Z) ->
  forall g : nat -> nat -> V,
    for_each (M2L_step fmm r Rhat i L) ls (quadrature_loop L g)
    = Returned (quadrature_loop L (fun ntheta m =>
        fold_left (fun acc l => vadd acc (Tlocal fmm r Rhat i L l ntheta m))
                  ls (g ntheta m))).
Proof.
  induction ls as [|l ls IH]; intros Hall g; cbn [for_each fold_left].
  - reflexivity.
  - destruct (Hall l (or_introl eq_refl)) as [Hl H0].
    rewrite (M2L_step_value fmm r Rhat i L l g Hl H0). cbn [bind].
    apply IH. intros l' Hin; apply Hall; right; exact Hin.
Qed.

(** A call of [M2L] that returns has seen every Hankel evaluation
    succeed. *)
Lemma M2L_returned_after_success (fmm : FmmHighFreq V)
    (sourceCentre fieldCentre boxSize : vec3) (level L : nat) (i : V)
    (T : list V) :
  order_of_level fmm level = Some L ->
  getI = Returned i ->
  M2L fmm sourceCentre fieldCentre boxSize level = Returned T ->
  forall l, (l <= L)%nat ->
    ierr (M2L_zbesh fmm (norm2 (vec3_sub fieldCentre sourceCentre)) i l)
    = 0%Z.
Proof.
  intros HL HI. unfold order_of_level in HL.
  unfold M2L. rewrite HL, HI. cbn [of_option bind].
  set (r := norm2 (vec3_sub fieldCentre sourceCentre)).
  set (Rhat := vec3_scale_inv (vec3_sub fieldCentre sourceCentre) r).
  set (T0 := repeat vzero ((L + 1) * (2 * L + 1))).
  assert (Hbound : forall l, In l (M2L_orders L) -> (l <= L)%nat)
    by (intros l; apply M2L_orders_bound).
  destruct (M2L_loop_outcome fmm r Rhat i L (M2L_orders L) Hbound T0)
    as [[Hall _] | (_ & Hnot & _)].
  - intros _ l Hl. apply Hall, M2L_orders_bound, Hl.
  - intros HT. rewrite HT in Hnot. discriminate.
Qed.

(** What [M2L] returns when every Hankel evaluation succeeds. *)
Lemma M2L_value (fmm : FmmHighFreq V)
    (sourceCentre fieldCentre boxSize : vec3) (level L : nat) (i : V) :
  order_of_level fmm level = Some L ->
  getI = Returned i ->
  (forall l, (l <= L)%nat ->
     ierr (M2L_zbesh fmm (norm2 (vec3_sub fieldCentre sourceCentre)) i l)
     = 0%Z) ->
  M2L fmm sourceCentre fieldCentre boxSize level
  = Returned
      (quadrature_loop L (fun ntheta m =>
         fold_left
           (fun acc l =>
              vadd acc
                (Tlocal fmm (norm2 (vec3_sub fieldCentre sourceCentre))
                   (vec3_scale_inv (vec3_sub fieldCentre sourceCentre)
                      (norm2 (vec3_sub fieldCentre sourceCentre)))
                   i L l ntheta m))
           (seq 0 (L + 1)) vzero)).
Proof.
  intros HL HI Hok. unfold order_of_level in HL.
  unfold M2L. rewrite HL, HI. cbn [of_option bind].
  rewrite <- quadrature_loop_const.
  apply M2L_loop_value.
  intros l Hin. apply M2L_orders_bound in Hin. split; [exact Hin | auto].
Qed.

(** C2 (as the code has it).  Let [L] be the order stored for the level,
    with a number of quadrature points that fits an [unsigned int], and
    [i] the imaginary unit of the value type.  The loop of [M2L] visits
    the orders [0 .. L] and no other; for each of them the Hankel branch
    is taken, [scaledhl] is set and the window [CLLdash] is 1.  Whenever
    [M2L] returns a transfer vector, its entry at the quadrature point
    [(ntheta, m)] is the sum over [l = 0 .. L], added in increasing order
    to zero, of [scaledhl * 1 * legendre_p(l, costheta)], where
    [scaledhl] is the coefficient the Hankel branch left for order [l]:
    every term enters with the factor 1 and none with a taper.  [M2L]
    does return when every Hankel evaluation reports success. *)
Theorem M2L_window_is_never_applied (fmm : FmmHighFreq V)
    (sourceCentre fieldCentre boxSize : vec3) (level L : nat) (i : V) :
  order_of_level fmm level = Some L ->
  point_count_fits L ->
  getI = Returned i ->
  let r := norm2 (vec3_sub fieldCentre sourceCentre) in
  let Rhat := vec3_scale_inv (vec3_sub fieldCentre sourceCentre) r in
  (forall l, In l (M2L_orders L) <-> (l <= L)%nat)
  /\ (forall l scaledhl CLLdash,
        In l (M2L_orders L) ->
        M2L_coefficients fmm r i L l = Returned (scaledhl, CLLdash) ->
        CLLdash = 1%R /\ scaledhl <> None)
  /\ (forall T,
        M2L fmm sourceCentre fieldCentre boxSize level = Returned T ->
        exists scaledhl : nat -> V,
          (forall l, (l <= L)%nat ->
             M2L_coefficients fmm r i L l
             = Returned (Some (scaledhl l), 1%R))
          /\ T = quadrature_loop L (fun ntheta m =>
                   fold_left
                     (fun acc l =>
                        vadd acc
                          (vmul (vmul (scaledhl l) (of_real 1))
                                (of_real
                                   (legendre_p l
                                      (clamp_cosine
                                         (dot Rhat (khat L ntheta m)))))))
                     (seq 0 (L + 1)) vzero))
  /\ ((forall l, (l <= L)%nat -> ierr (M2L_zbesh fmm r i l) = 0%Z) ->
      exists T, M2L fmm sourceCentre fieldCentre boxSize level = Returned T).
Proof.
  intros HL _ HI r Rhat.
  split; [intros l; apply M2L_orders_bound|].
  split; [intros l s c Hin; now apply M2L_coefficients_window|].
  assert (Hvalue :
    (forall l, (l <= L)%nat -> ierr (M2L_zbesh fmm r i l) = 0%Z) ->
    M2L fmm sourceCentre fieldCentre boxSize level
    = Returned
        (quadrature_loop L (fun ntheta m =>
           fold_left
             (fun acc l => vadd acc (Tlocal fmm r Rhat i L l ntheta m))
             (seq 0 (L + 1)) vzero)))
    by (intros Hok; now apply M2L_value).
  split.
  - intros T HT.
    assert (Hok : forall l, (l <= L)%nat ->
                    ierr (M2L_zbesh fmm r i l) = 0%Z).
    { exact (M2L_returned_after_success fmm sourceCentre fieldCentre
               boxSize level L i T HL HI HT). }
    exists (scaledhl fmm r i). split.
    + intros l Hl. apply M2L_coefficients_value; auto.
    + rewrite (Hvalue Hok) in HT. injection HT as <-. reflexivity.
  - intros Hok. eexists. exact (Hvalue Hok).
Qed.

End M2LWindow.

(** *** Concrete runs *)

Section Runs.

Import Examples.

Lemma small_transform_order : order_of_level small_transform 2 = Some 1%nat.
Proof. reflexivity. Qed.

(** C2, counterexample.  At level 2 of [small_transform], whose order is
    1, the loop of [M2L] visits the orders 0 and 1: none lies beyond the
    truncation order, so there is no term for a window to act on. *)
Lemma M2L_no_term_beyond_truncation :
  order_of_level small_transform 2 = Some 1%nat
  /\ M2L_orders 1 = [0; 1]%nat
  /\ ~ some_term_beyond_truncation 1.
Proof.
  split; [reflexivity|]. split; [reflexivity|].
  intros (l & Hin & Hlt). apply M2L_orders_bound in Hin. lia.
Qed.

(** C2 on [real_wavenumber_transform], from the origin to (1,0,0), with
    a Bessel routine that always succeeds. *)
Lemma M2L_window_is_never_applied_run :
  order_of_level real_wavenumber_transform 2 = Some 1%nat
  /\ point_count_fits 1
  /\ getI = Returned (mkC 0 1)
  /\ (forall l, In l (M2L_orders 1) <-> (l <= 1)%nat)
  /\ (forall T,
        M2L (EX := plain_externals complex) real_wavenumber_transform
            origin unit_x (mkVec3 1 1 1) 2 = Returned T ->
        exists scaledhl : nat -> complex,
          (forall l, (l <= 1)%nat ->
             M2L_coefficients (EX := plain_externals complex)
               real_wavenumber_transform (norm2 (vec3_sub unit_x origin))
               (mkC 0 1) 1 l
             = Returned (Some (scaledhl l), 1%R))
          /\ T = quadrature_loop 1 (fun ntheta m =>
                   fold_left
                     (fun acc l =>
                        vadd acc
                          (vmul (vmul (scaledhl l) (of_real 1))
                                (of_real
                                   (legendre_p
                                      (Externals := plain_externals complex) l
                                      (clamp_cosine
                                         (dot (vec3_scale_inv
                                                 (vec3_sub unit_x origin)
                                                 (norm2 (vec3_sub unit_x origin)))
                                              (khat
                                                 (EX := plain_externals complex)
                                                 1 ntheta m)))))))
                     (seq 0 2) vzero))
  /\ exists T,
       M2L (EX := plain_externals complex) real_wavenumber_transform
           origin unit_x (mkVec3 1 1 1) 2 = Returned T.
Proof.
  assert (HL : order_of_level real_wavenumber_transform 2 = Some 1%nat)
    by reflexivity.
  assert (Hp : point_count_fits 1) by reflexivity.
  assert (HI : getI = Returned (mkC 0 1)) by reflexivity.
  destruct (M2L_window_is_never_applied (EX := plain_externals complex)
              real_wavenumber_transform origin unit_x (mkVec3 1 1 1) 2 1
              (mkC 0 1) HL Hp HI) as (Hvisit & _ & Hvalue & Hret).
  split; [exact HL|]. split; [exact Hp|]. split; [exact HI|].
  split; [exact Hvisit|]. split; [exact Hvalue|].
  apply Hret. intros l _. reflexivity.
Defined.

(** C4 on [small_transform] with a Bessel routine that always reports
    an overflow: [M2L] throws. *)
Lemma M2L_surfaces_hankel_failure_run :
  order_of_level small_transform 2 = Some 1%nat
  /\ getI = Returned (mkC 0 1)
  /\ exists msg,
       M2L (EX := overflowing_externals complex)
           small_transform origin unit_x unit_x 2
       = Thrown (invalid_argument msg).
Proof.
  assert (HI : getI (V := complex) = Returned (mkC 0 1)) by reflexivity.
  split; [reflexivity|]. split; [exact HI|].
  destruct (M2L_surfaces_hankel_failure (EX := overflowing_externals complex)
              small_transform origin unit_x unit_x 2 1 (mkC 0 1)
              small_transform_order HI) as (_ & Hthrow & _).
  apply (Hthrow (fun l _ => conj (Zle_bool_imp_le 0 2 eq_refl)
                                 (Zle_bool_imp_le 2 5 eq_refl))
                0%nat (le_S _ _ (le_n 0))).
  discriminate.
Defined.


(** C7 on a tree of three levels: going from level 3 up to level 2. *)
Lemma interpolate_direction_run :
  (2 <= 3)%nat /\ unsigned_int 3
  /\ exists fmm : FmmHighFreq complex,
       FmmHighFreq_new (EX := plain_externals complex) (mkC 0 1) 3 3
       = Returned fmm
       /\ exists Lfine Lcoarse,
            order_of_level fmm 3 = Some Lfine
            /\ order_of_level fmm 2 = Some Lcoarse
            /\ interpolate (EX := plain_externals complex) fmm 3 2 [vone]
               = Returned (sphere_interpolate (Externals := plain_externals complex)
                             (mkInterpolateOnSphere Lfine Lcoarse) [vone]).
Proof.
  assert (H2 : (2 <= 3)%nat) by (repeat constructor).
  assert (Hu : unsigned_int 3) by reflexivity.
  split; [exact H2|]. split; [exact Hu|].
  destruct (interpolate_direction (EX := plain_externals complex)
              (mkC 0 1) 3 3 H2 Hu) as (fmm & Hnew & Hdir).
  exists fmm; split; [exact Hnew|].
  destruct (Hdir 3%nat 2%nat [vone] (le_n 2) (le_n 2))
    as (Lfine & Lcoarse & HLf & HLc & _ & Hint).
  exists Lfine, Lcoarse. auto.
Defined.

End Runs.

End FmmFacts.

(** ** fmm_global_assembler.cpp *)

Module AssemblerFacts.

Import Fmm Assembler.

Section HermitianCheck.

Context {V : Type} `{VT : ValueType V} `{ENV : Environment}.
Variables LocalAssembler DiscreteBndOp Transform : Type.

(** C5.  A Hermitian request for spaces with different numbers of
    global DOFs throws [std::invalid_argument] in both overloads.  No
    operator is returned, and the only thing that has happened by then is
    the line printed with the two DOF counts: the octree has not been
    built, no points have been assigned and neither the near-field nor
    the far-field caching has started. *)
Theorem hermitian_dof_mismatch_is_rejected
    (testSpace trialSpace : Space)
    (localAssemblers : list LocalAssembler)
    (sparseTermsToAdd : list DiscreteBndOp)
    (denseTermsMultipliers sparseTermsMultipliers : list V)
    (context : Context) (fmmTransform : Transform) (trace : list event) :
  globalDofCount testSpace <> globalDofCount trialSpace ->
  let printed := PrintedDofCounts (globalDofCount testSpace)
                                  (globalDofCount trialSpace) true in
  exists msg,
    assembleDetachedWeakForm LocalAssembler DiscreteBndOp Transform
      testSpace trialSpace localAssemblers sparseTermsToAdd
      denseTermsMultipliers sparseTermsMultipliers context true
      fmmTransform trace
    = (Thrown (invalid_argument msg), trace ++ [printed])
    /\ (forall localAssembler,
         assembleDetachedWeakForm_single LocalAssembler DiscreteBndOp Transform
           testSpace trialSpace localAssembler context true fmmTransform trace
         = (Thrown (invalid_argument msg), trace ++ [printed]))
    /\ is_print printed = true.
Proof.
  intros Hne printed.
  eexists. split; [|split; [intros la|reflexivity]];
    unfold assembleDetachedWeakForm_single, assembleDetachedWeakForm;
    cbv zeta; unfold pbind, emit, modify; cbn [andb];
    (destruct (Z.eqb_spec (globalDofCount testSpace)
                          (globalDofCount trialSpace)) as [Heq|_];
     [contradiction|]); cbn [negb]; unfold throw; reflexivity.
Qed.

(** Otherwise the assembly goes through its stages for as long as the
    routines it calls return, and returns the operator when all of them
    do. *)
Lemma assembly_completes
    (testSpace trialSpace : Space)
    (localAssemblers : list LocalAssembler)
    (sparseTermsToAdd : list DiscreteBndOp)
    (denseTermsMultipliers sparseTermsMultipliers : list V)
    (context : Context) (hermitian : bool) (fmmTransform : Transform)
    (trace : list event) (octree : Octree) (p2o : list Z) :
  hermitian = false \/ globalDofCount testSpace = globalDofCount trialSpace ->
  let lowerBound := vec3_min (fst (gridBoundingBox testSpace))
                             (fst (gridBoundingBox trialSpace)) in
  let upperBound := vec3_max (snd (gridBoundingBox testSpace))
                             (snd (gridBoundingBox trialSpace)) in
  let nLeaves := u32 (getNodesPerLevel (octree_levels octree)) in
  Octree_new (u32 (fmmOptions_levels context))
             (conv_to_CoordinateType lowerBound)
             (conv_to_CoordinateType upperBound) = Returned octree ->
  assignPoints octree hermitian (globalDofPositions testSpace)
  = Returned p2o ->
  cacheNearField octree p2o nLeaves = Returned tt ->
  cacheFarField octree p2o nLeaves = Returned tt ->
  exists op,
    fst (assembleDetachedWeakForm LocalAssembler DiscreteBndOp Transform
           testSpace trialSpace localAssemblers sparseTermsToAdd
           denseTermsMultipliers sparseTermsMultipliers context hermitian
           fmmTransform trace)
    = Returned op
    /\ op_rowCount op = globalDofCount testSpace
    /\ op_columnCount op = globalDofCount trialSpace
    /\ op_octree op = octree
    /\ filter (fun e => negb (is_print e))
         (snd (assembleDetachedWeakForm LocalAssembler DiscreteBndOp Transform
                 testSpace trialSpace localAssemblers sparseTermsToAdd
                 denseTermsMultipliers sparseTermsMultipliers context hermitian
                 fmmTransform []))
       = [OctreeBuilt octree;
          PointsAssigned hermitian (globalDofPositions testSpace);
          NearFieldCached nLeaves; FarFieldCached nLeaves].
Proof.
  intros Hok lowerBound upperBound nLeaves Hoct Hpts Hnear Hfar.
  assert (Hguard : hermitian
                   && negb (globalDofCount testSpace =? globalDofCount trialSpace)%Z
                   = false).
  { destruct Hok as [-> | ->]; [reflexivity|].
    rewrite Z.eqb_refl. apply andb_false_r. }
  unfold assembleDetachedWeakForm. cbv zeta.
  unfold pbind, emit, modify, pret, throw, call. rewrite Hguard.
  fold lowerBound upperBound. rewrite Hoct, Hpts. fold nLeaves.
  rewrite Hnear, Hfar.
  cbn [fst snd app filter is_print negb].
  eexists. repeat split.
Qed.

End HermitianCheck.

Section Runs.

Import Examples.

(** C5 on spaces with 3 and 5 global DOFs. *)
Lemma hermitian_dof_mismatch_is_rejected_run :
  globalDofCount space_of_3_dofs <> globalDofCount space_of_5_dofs
  /\ exists msg,
       assembleDetachedWeakForm (V := R) (ENV := sample_environment)
         unit unit unit space_of_3_dofs space_of_5_dofs
         [] [] [] [] (mkContext 3) true tt []
       = (Thrown (invalid_argument msg), [PrintedDofCounts 3 5 true]).
Proof.
  assert (Hne : globalDofCount space_of_3_dofs <> globalDofCount space_of_5_dofs)
    by discriminate.
  split; [exact Hne|].
  destruct (hermitian_dof_mismatch_is_rejected (V := R)
              (ENV := sample_environment) unit unit unit
              space_of_3_dofs space_of_5_dofs [] [] [] [] (mkContext 3) tt []
              Hne) as (msg & Hrun & _).
  exists msg. exact Hrun.
Defined.

End Runs.

End AssemblerFacts.

(** ** separable_numerical_test_kernel_trial_integrator_imp.hpp *)

Module IntegratorFacts.

Import Integrator.

Section Construction.

Context {V : Type} `{VT : ValueType V}.

Variables (localTestQuadPoints localTrialQuadPoints : Mat V).
Variables (testQuadWeights trialQuadWeights : list V).
Variable rawGeometry : RawGridGeometry V.
Variables (testExpression trialExpression : Expression V).
Variable kernel : Kernel V.
Variable openClHandler : OpenClHandler.

(** C9.  The constructor throws [std::invalid_argument] exactly when the
    number of test points differs from the number of test weights or the
    number of trial points differs from the number of trial weights.
    When both agree it returns the object, whose points and weights are
    the arguments themselves. *)
Theorem constructor_checks_point_and_weight_counts :
  let made :=
    SeparableNumericalTestKernelTrialIntegrator_new
      localTestQuadPoints localTrialQuadPoints
      testQuadWeights trialQuadWeights rawGeometry
      testExpression kernel trialExpression openClHandler in
  let mismatch :=
    n_cols localTestQuadPoints <> size testQuadWeights
    \/ n_cols localTrialQuadPoints <> size trialQuadWeights in
  ((exists msg, made = Thrown (invalid_argument msg)) <-> mismatch)
  /\ ((exists this, made = Returned this) <-> ~ mismatch)
  /\ (forall this, made = Returned this ->
        m_localTestQuadPoints this = localTestQuadPoints
        /\ m_localTrialQuadPoints this = localTrialQuadPoints
        /\ m_testQuadWeights this = testQuadWeights
        /\ m_trialQuadWeights this = trialQuadWeights).
Proof.
  cbv zeta. unfold SeparableNumericalTestKernelTrialIntegrator_new.
  destruct (Z.eqb_spec (n_cols localTestQuadPoints) (size testQuadWeights))
    as [Htest|Htest];
    [destruct (Z.eqb_spec (n_cols localTrialQuadPoints) (size trialQuadWeights))
       as [Htrial|Htrial]|]; cbn [negb].
  - split; [|split].
    + split; [intros [msg Hmsg]; discriminate | intros [H|H]; contradiction].
    + split; [intros _ [H|H]; contradiction | intros _; eexists; reflexivity].
    + intros this [= <-]. cbn. auto.
  - split; [|split].
    + split; [intros _; right; exact Htrial | intros _; eexists; reflexivity].
    + split; [intros [this Hthis]; discriminate
             | intros Hno; exfalso; apply Hno; right; exact Htrial].
    + intros this Hthis; discriminate.
  - split; [|split].
    + split; [intros _; left; exact Htest | intros _; eexists; reflexivity].
    + split; [intros [this Hthis]; discriminate
             | intros Hno; exfalso; apply Hno; left; exact Htest].
    + intros this Hthis; discriminate.
Qed.

End Construction.

Section Integration.

Context {V : Type} `{VT : ValueType V}.

Lemma to_int_0 : to_int 0 = 0%Z.
Proof. reflexivity. Qed.

(** C10.  On the CPU path the element-pair overload of [integrate]
    returns at once, with [result] exactly as it was passed in, when the
    list of element pairs is empty or one of the two quadrature rules has
    no points. *)
Theorem integrate_without_work_keeps_result
    (this : SeparableNumericalTestKernelTrialIntegrator V)
    (elementIndexPairs : list ElementIndexPair)
    (testBasis trialBasis : Basis) (result : Cube V) :
  UseOpenCl (m_openClHandler this) = false ->
  elementIndexPairs = []
  \/ n_cols (m_localTestQuadPoints this) = 0%Z
  \/ n_cols (m_localTrialQuadPoints this) = 0%Z ->
  integrate this elementIndexPairs testBasis trialBasis result
  = Returned result.
Proof.
  intros Hcpu Hempty. unfold integrate. rewrite Hcpu.
  unfold integrateCpu. cbv zeta.
  destruct Hempty as [-> | [-> | ->]]; cbn [size List.length Z.of_nat];
    rewrite to_int_0, ?Z.eqb_refl, ?orb_true_r; reflexivity.
Qed.

Lemma fold_left_dims {I} (step : Cube V -> I -> Cube V) :
  (forall c ix, dims (step c ix) = dims c) ->
  forall items c, dims (fold_left step items c) = dims c.
Proof.
  intros Hstep items; induction items as [|ix items IH]; intros c; cbn.
  - reflexivity.
  - now rewrite IH, Hstep.
Qed.

(** With work to do and matching dimensions, [integrateCpu] resizes
    [result] to (test DOFs, trial DOFs, pairs). *)
Lemma integrateCpu_resizes
    (this : SeparableNumericalTestKernelTrialIntegrator V)
    (elementIndexPairs : list ElementIndexPair)
    (testBasis trialBasis : Basis) (result : Cube V) :
  to_int (n_cols (m_localTestQuadPoints this)) <> 0%Z ->
  to_int (n_cols (m_localTrialQuadPoints this)) <> 0%Z ->
  to_int (size elementIndexPairs) <> 0%Z ->
  kernel_codomainDimension (m_kernel this) = 1%Z ->
  kernel_domainDimension (m_kernel this) = 1%Z ->
  expr_codomainDimension (m_testExpression this)
  = expr_codomainDimension (m_trialExpression this) ->
  exists result',
    integrateCpu this elementIndexPairs testBasis trialBasis result
    = Returned result'
    /\ dims result' = (to_int (basis_size testBasis),
                       to_int (basis_size trialBasis),
                       to_int (size elementIndexPairs)).
Proof.
  intros Htest Htrial Hpairs Hrow Hcol Hdim.
  unfold integrateCpu. cbv zeta.
  apply Z.eqb_neq in Htest, Htrial, Hpairs.
  rewrite Htest, Htrial, Hpairs, Hrow, Hcol, Hdim, !Z.eqb_refl.
  cbn [orb andb negb].
  eexists; split; [reflexivity|].
  rewrite fold_left_dims; [reflexivity|].
  intros c pairIndex. rewrite fold_left_dims; [reflexivity|].
  intros c' dofs. reflexivity.
Qed.

End Integration.

Section Runs.

Import Examples.

(** C10 on an integrator whose test rule has no points. *)
Lemma integrate_without_work_keeps_result_run :
  UseOpenCl (m_openClHandler idle_integrator) = false
  /\ ([(0, 1)%Z] = []
      \/ n_cols (m_localTestQuadPoints idle_integrator) = 0%Z
      \/ n_cols (m_localTrialQuadPoints idle_integrator) = 0%Z)
  /\ integrate idle_integrator [(0, 1)%Z] (mkBasis 0 3) (mkBasis 0 3) some_cube
     = Returned some_cube.
Proof.
  assert (Hcpu : UseOpenCl (m_openClHandler idle_integrator) = false)
    by reflexivity.
  assert (Hidle : [(0, 1)%Z] = []
                  \/ n_cols (m_localTestQuadPoints idle_integrator) = 0%Z
                  \/ n_cols (m_localTrialQuadPoints idle_integrator) = 0%Z)
    by (right; left; reflexivity).
  split; [exact Hcpu|]. split; [exact Hidle|].
  exact (integrate_without_work_keeps_result idle_integrator [(0, 1)%Z]
           (mkBasis 0 3) (mkBasis 0 3) some_cube Hcpu Hidle).
Defined.

End Runs.

End IntegratorFacts.

(** ** grid_function.cpp *)

Module GridFunFacts.

Import GridFun.

Section VtkExport.

Context {V : Type} `{VT : ValueType V}.

Lemma local_points_cases (dataType : DataType) (gridDim cornerCount : Z) :
  (supported_element gridDim cornerCount = true
   /\ exists local, local_points dataType gridDim cornerCount = Returned local)
  \/ (supported_element gridDim cornerCount = false
      /\ local_points dataType gridDim cornerCount
         = Thrown unsupported_element_type).
Proof.
  unfold supported_element, local_points.
  destruct dataType;
    destruct ((gridDim =? 1) && (cornerCount =? 2))%Z;
    destruct ((gridDim =? 2) && (cornerCount =? 3))%Z;
    destruct ((gridDim =? 2) && (cornerCount =? 4))%Z; cbn;
    try (left; split; [reflexivity | eexists; reflexivity]);
    right; split; reflexivity.
Qed.

Lemma process_elements_cases (activeBasis : Z) (elements : list Element) :
  process_elements activeBasis elements = Returned tt
  \/ process_elements activeBasis elements = Thrown not_working.
Proof.
  unfold process_elements.
  induction elements as [|e elements IH]; cbn [for_each].
  - left; reflexivity.
  - destruct (elem_basis e =? activeBasis)%Z; cbn [bind].
    + right; reflexivity.
    + exact IH.
Qed.

Lemma set_insert_in (x y : Z * Z) (s : list (Z * Z)) :
  In y (set_insert x s) -> y = x \/ In y s.
Proof.
  induction s as [|z s IH]; cbn.
  - intros [<-|[]]; auto.
  - destruct (pair_lt x z); [cbn; intuition auto|].
    destruct (pair_lt z x); cbn; intuition auto.
Qed.

Lemma set_of_in (l : list (Z * Z)) (y : Z * Z) : In y (set_of l) -> In y l.
Proof.
  unfold set_of.
  assert (H : forall s, In y (fold_left (fun s x => set_insert x s) l s) ->
                        In y l \/ In y s).
  { induction l as [|x l IH]; intros s; cbn; [auto|].
    intros Hin. destruct (IH _ Hin) as [H|H]; [auto|].
    apply set_insert_in in H. destruct H as [->|H]; auto. }
  intros Hin. destruct (H [] Hin) as [Hl|[]]. exact Hl.
Qed.

(** The loop over the unique bases either runs to its end, or stops at
    the [throw] of the element loop, or at an unsupported element type. *)
Lemma unique_loop_cases (dataType : DataType) (gridDim : Z)
    (elements : list Element) (unique : list (Z * Z)) :
  (forall a, In a unique ->
     exists e, In e elements /\ (elem_basis e, elem_cornerCount e) = a) ->
  let loop :=
    for_each
      (fun active (_ : unit) =>
         bind (local_points dataType gridDim (snd active))
              (fun local => process_elements (fst active) elements))
      unique tt in
  loop = Returned tt
  \/ loop = Thrown not_working
  \/ (loop = Thrown unsupported_element_type
      /\ exists e, In e elements
                   /\ supported_element gridDim (elem_cornerCount e) = false).
Proof.
  induction unique as [|a unique IH]; intros Hfrom; cbn [for_each].
  - left; reflexivity.
  - destruct (local_points_cases dataType gridDim (snd a))
      as [[_ [local ->]] | [Hbad ->]]; cbn [bind].
    + destruct (process_elements_cases (fst a) elements) as [-> | ->];
        cbn [bind].
      * apply IH. intros a' Hin; apply Hfrom; right; exact Hin.
      * right; left; reflexivity.
    + right; right; split; [reflexivity|].
      destruct (Hfrom a (or_introl eq_refl)) as (e & Hin & <-).
      exists e; split; [exact Hin | exact Hbad].
Qed.

Lemma evaluateAtSpecialPoints_cases (gf : GridFunction V) (dataType : DataType) :
  match dataType with
  | OtherDataType _ =>
      evaluateAtSpecialPoints gf dataType = Thrown invalid_data_type
  | _ =>
      (exists data, evaluateAtSpecialPoints gf dataType = Returned data)
      \/ evaluateAtSpecialPoints gf dataType = Thrown not_working
      \/ (evaluateAtSpecialPoints gf dataType = Thrown unsupported_element_type
          /\ exists e, In e (grid_elements (space_grid (m_space gf)))
                /\ supported_element (grid_dim (space_grid (m_space gf)))
                                     (elem_cornerCount e) = false)
  end.
Proof.
  assert (Hfrom : forall a,
            In a (set_of (map (fun e => (elem_basis e, elem_cornerCount e))
                              (grid_elements (space_grid (m_space gf))))) ->
            exists e, In e (grid_elements (space_grid (m_space gf)))
                      /\ (elem_basis e, elem_cornerCount e) = a).
  { intros a Hin. apply set_of_in, in_map_iff in Hin.
    destruct Hin as (e & He & Hin). exists e; auto. }
  destruct dataType as [| |z]; [| |reflexivity];
    unfold evaluateAtSpecialPoints; cbv zeta;
    match goal with
    | |- context [local_points ?dt _ _] =>
        destruct (unique_loop_cases dt (grid_dim (space_grid (m_space gf)))
                    (grid_elements (space_grid (m_space gf))) _ Hfrom)
          as [Hl | [Hl | [Hl Hbad]]]
    end; cbv zeta in Hl; rewrite Hl; cbn [bind].
  - left; eexists; reflexivity.
  - right; left; reflexivity.
  - right; right; auto.
  - left; eexists; reflexivity.
  - right; left; reflexivity.
  - right; right; auto.
Qed.

(** C8 (as the code has it).  Every call of [exportToVtk] ends in an
    exception and leaves the grid function and the requests made to the
    writer as they were: no data is attached and nothing is written.
    The exception is [std::invalid_argument] for a data type that is
    neither [CELL_DATA] nor [VERTEX_DATA]; otherwise it is
    [std::logic_error("NOT WORKING!!!")], unless the grid has an element
    that is not a segment, a triangle or a quadrilateral, in which case
    it may be the [std::runtime_error] for an unsupported element type. *)
Theorem exportToVtk_always_throws (gf : GridFunction V) (dataType : DataType)
    (dataLabel fileNamesBase : string) (filesPath : option string)
    (type : OutputType) (requests : list (vtk_event (V := V))) :
  let w := mkWorld gf requests in
  exists e,
    exportToVtk dataType dataLabel fileNamesBase filesPath type w
    = (Thrown e, w)
    /\ match dataType with
       | OtherDataType _ => e = invalid_data_type
       | _ =>
           e = not_working
           \/ (e = unsupported_element_type
               /\ exists el, In el (grid_elements (space_grid (m_space gf)))
                     /\ supported_element (grid_dim (space_grid (m_space gf)))
                                          (elem_cornerCount el) = false)
       end.
Proof.
  intros w. unfold exportToVtk, pbind, throw. cbn [this w].
  pose proof (evaluateAtSpecialPoints_cases gf dataType) as Hcases.
  destruct dataType as [| |z].
  - destruct Hcases as [[data ->] | [-> | [-> Hbad]]].
    + exists not_working; split; [reflexivity | left; reflexivity].
    + exists not_working; split; [reflexivity | left; reflexivity].
    + exists unsupported_element_type; split; [reflexivity | right; auto].
  - destruct Hcases as [[data ->] | [-> | [-> Hbad]]].
    + exists not_working; split; [reflexivity | left; reflexivity].
    + exists not_working; split; [reflexivity | left; reflexivity].
    + exists unsupported_element_type; split; [reflexivity | right; auto].
  - rewrite Hcases. exists invalid_data_type; split; reflexivity.
Qed.

End VtkExport.

Section Runs.

Import Examples.

(** C8, counterexample.  Exporting cell data of a function on a grid of
    tetrahedra ends in [std::runtime_error], which is not a
    [std::logic_error]. *)
Lemma exportToVtk_runtime_error :
  exportToVtk CELL_DATA "u" "out" None 0%Z (mkWorld tetrahedron_function [])
  = (Thrown unsupported_element_type, mkWorld tetrahedron_function [])
  /\ ~ raises_logic_error
        (exportToVtk CELL_DATA "u" "out" None 0%Z
           (mkWorld tetrahedron_function [])).
Proof.
  assert (Hrun : exportToVtk CELL_DATA "u" "out" None 0%Z
                   (mkWorld tetrahedron_function [])
                 = (Thrown unsupported_element_type,
                    mkWorld tetrahedron_function [])) by reflexivity.
  split; [exact Hrun|].
  intros (e & He & Hlogic). rewrite Hrun in He. cbn in He.
  injection He as <-. discriminate.
Qed.

(** On a triangle the call reaches the [throw] of the element loop. *)
Lemma exportToVtk_triangle :
  exportToVtk VERTEX_DATA "u" "out" (Some "dir"%string) 0%Z
    (mkWorld triangle_function [])
  = (Thrown not_working, mkWorld triangle_function []).
Proof. reflexivity. Qed.

End Runs.

End GridFunFacts.

(** ** Loops over index ranges *)

Module LoopFacts.

Import Integrator.
Local Open Scope cxx_scope.

Lemma vec_get_nth {A} (l : list A) (k : nat) (d : A) :
  (k < List.length l)%nat -> vec_get l (Z.of_nat k) = Some (nth k l d).
Proof.
  intros Hk. rewrite vec_get_nth_error. apply nth_error_nth'. exact Hk.
Qed.

Lemma for_each_pure {I S} (Inv : S -> Prop) (body : I -> S -> outcome S)
    (pure : I -> S -> S) (items : list I) :
  (forall i s, In i items -> Inv s ->
     body i s = Returned (pure i s) /\ Inv (pure i s)) ->
  forall s, Inv s ->
    for_each body items s
    = Returned (fold_left (fun s i => pure i s) items s)
    /\ Inv (fold_left (fun s i => pure i s) items s).
Proof.
  induction items as [|i items IH]; intros Hbody s Hs; cbn [for_each fold_left].
  - split; [reflexivity | exact Hs].
  - destruct (Hbody i s (or_introl eq_refl) Hs) as [-> Hs']. cbn [bind].
    apply IH; [|exact Hs'].
    intros i' s' Hin. apply Hbody. right; exact Hin.
Qed.

Lemma fold_left_ext_in {A B} (f g : A -> B -> A) (l : list B) :
  (forall a b, In b l -> f a b = g a b) ->
  forall a, fold_left f l a = fold_left g l a.
Proof.
  induction l as [|b l IH]; intros Hfg a; cbn [fold_left]; [reflexivity|].
  rewrite Hfg by (left; reflexivity).
  apply IH. intros a' b' Hin. apply Hfg. right; exact Hin.
Qed.

Lemma in_int_range_iff (n z : Z) :
  In z (int_range n) <-> (0 <= z < n)%Z.
Proof.
  unfold int_range. rewrite in_map_iff. split.
  - intros (k & <- & Hk). apply in_seq in Hk. lia.
  - intros Hz. exists (Z.to_nat z). split; [lia|]. apply in_seq. lia.
Qed.

Lemma in_int_range (n : nat) (z : Z) :
  In z (int_range (Z.of_nat n)) ->
  exists k, z = Z.of_nat k /\ (k < n)%nat.
Proof.
  unfold int_range. rewrite Nat2Z.id. intros Hin.
  apply in_map_iff in Hin. destruct Hin as (k & <- & Hk).
  apply in_seq in Hk. exists k; split; [reflexivity | lia].
Qed.

Lemma flat_map_int_range {B} (f : Z -> list B) (n : nat) :
  flat_map f (int_range (Z.of_nat n))
  = flat_map (fun k => f (Z.of_nat k)) (seq 0 n).
Proof.
  unfold int_range. rewrite Nat2Z.id.
  induction (seq 0 n) as [|k l IH]; cbn [map flat_map]; [reflexivity|].
  rewrite IH. reflexivity.
Qed.

End LoopFacts.

Import LoopFacts.

(** ** fmm_transform.cpp: translations, sizes, real value types *)

Module FmmMoreFacts.

Import Fmm FmmFacts.

(** X3.  For the real value type [double], [M2L] never returns a
    transfer vector, whatever the transform and the arguments: when the
    order of the level is stored it throws the [std::invalid_argument]
    of [getI]. *)
Theorem M2L_never_returns_for_double `{EX : Externals R}
    (fmm : FmmHighFreq R) (sourceCentre fieldCentre boxSize : vec3)
    (level : nat) :
  returns (M2L fmm sourceCentre fieldCentre boxSize level) = false
  /\ (forall L, order_of_level fmm level = Some L ->
      M2L fmm sourceCentre fieldCentre boxSize level
      = Thrown (invalid_argument
                  "getI(): can only be called for complex result types")).
Proof.
  unfold M2L, order_of_level. split.
  - destruct (vec_get (m_Ls fmm) (level_index level)); reflexivity.
  - intros L ->. reflexivity.
Qed.

Section Sizes.

Context {V : Type} `{VT : ValueType V} `{EX : Externals V}.

Local Open Scope cxx_scope.

(** What a completed constructor call has stored besides the vectors of
    orders and interpolators. *)
Lemma FmmHighFreq_new_fields (kappa : V) (L levels : nat) (fmm : FmmHighFreq V) :
  FmmHighFreq_new kappa L levels = Returned fmm ->
  quadraturePointCount fmm
  = Z.to_nat (u32 (Z.of_nat ((L + 1) * (2 * L + 1))))
  /\ m_levels fmm = levels
  /\ m_isCompressedM2L fmm = false
  /\ generateGaussPoints (m_Ls fmm)
     = Returned (m_quadraturePoints fmm, m_quadratureWeights fmm).
Proof.
  unfold FmmHighFreq_new.
  destruct (levels <? 2)%nat; [discriminate|].
  destruct (of_option (vec_set _ _ _)) as [Ls1| |]; cbn [bind]; try discriminate.
  destruct (for_each _ _ Ls1) as [Ls| |]; cbn [bind]; try discriminate.
  destruct (for_each _ _ _) as [interps| |]; cbn [bind]; try discriminate.
  destruct (generateGaussPoints Ls) as [gauss| |] eqn:Hg; cbn [bind];
    try discriminate.
  intros [= <-]. cbn. rewrite Hg. destruct gauss; repeat split; reflexivity.
Qed.

Lemma generateGaussPoints_of_constructed (kappa : V) (L levels : nat) :
  (2 <= levels)%nat -> unsigned_int levels ->
  generateGaussPoints (constructed_Ls kappa L levels)
  = Returned (quadrature_loop L (fun l m => khat L l m),
              quadrature_loop L (fun l _ =>
                (legendre_weight (L + 1) l * (2 * PI / INR (2 * L + 1)))%R)).
Proof.
  intros Hlev Hu. unfold generateGaussPoints.
  rewrite constructed_Ls_length by exact Hlev.
  unfold unsigned_int in Hu.
  rewrite u32_small by lia.
  replace (Z.of_nat (levels - 1) - 1)%Z with (Z.of_nat (levels - 2)) by lia.
  rewrite vec_get_nth_error.
  rewrite (constructed_Ls_nth kappa L levels levels) by lia.
  rewrite constructed_Ls_leaf by exact Hlev. reflexivity.
Qed.

(** X4.  For a tree of at least two levels, a leaf order [L] whose
    number of quadrature points fits an [unsigned int] and a wavenumber
    for which every [ceil(Llevel)] of the levels [2 .. levels-1] is in
    the range of [unsigned int], the constructor completes and leaves
    consistent sizes: the number of stored quadrature points and of
    weights is [quadraturePointCount = (L+1)(2L+1)], each interpolator
    vector has [levels - 2] entries, and [M2M] and [L2L] at the leaf
    level return one entry per stored quadrature point. *)
Theorem constructor_sizes_agree (kappa : V) (L levels : nat) :
  (2 <= levels)%nat -> unsigned_int levels ->
  point_count_fits L ->
  (forall level, (2 <= level)%nat -> (level <= levels - 1)%nat ->
     converts_to_unsigned (Llevel kappa level)) ->
  exists fmm,
    FmmHighFreq_new kappa L levels = Returned fmm
    /\ quadraturePointCount fmm = ((L + 1) * (2 * L + 1))%nat
    /\ unsigned_int (quadraturePointCount fmm)
    /\ List.length (m_quadraturePoints fmm) = quadraturePointCount fmm
    /\ List.length (m_quadratureWeights fmm) = quadraturePointCount fmm
    /\ List.length (m_interpolatorsUpwards fmm) = (levels - 2)%nat
    /\ List.length (m_interpolatorsDownwards fmm) = (levels - 2)%nat
    /\ forall a b, exists T1 T2,
         M2M fmm a b levels = Returned T1
         /\ L2L fmm a b levels = Returned T2
         /\ List.length T1 = quadraturePointCount fmm
         /\ List.length T2 = quadraturePointCount fmm.
Proof.
  intros Hlev Hu Hfit _.
  destruct (FmmHighFreq_new_returns kappa L levels Hlev Hu)
    as (fmm & Hnew & _ & HLs & Hup & Hdown).
  destruct (FmmHighFreq_new_fields kappa L levels fmm Hnew)
    as (Hcount & _ & _ & Hgauss).
  rewrite HLs, generateGaussPoints_of_constructed in Hgauss by assumption.
  injection Hgauss as Hpts Hws.
  assert (Hcount' : quadraturePointCount fmm = ((L + 1) * (2 * L + 1))%nat).
  { rewrite Hcount. unfold point_count_fits, unsigned_int in Hfit.
    rewrite CxxFacts.u32_small by lia. lia. }
  clear Hcount. rename Hcount' into Hcount.
  exists fmm. split; [exact Hnew|]. split; [exact Hcount|].
  split; [rewrite Hcount; exact Hfit|].
  rewrite <- Hpts, <- Hws, Hup, Hdown, Hcount.
  unfold constructed_upwards, constructed_downwards.
  rewrite !quadrature_loop_length, !length_map, !length_seq.
  repeat (split; [reflexivity|]).
  intros a b.
  pose proof (order_of_constructed fmm kappa L levels levels HLs Hu Hlev
                (le_n levels)) as Hord.
  rewrite constructed_Ls_leaf in Hord by exact Hlev.
  unfold order_of_level in Hord. unfold L2L, M2M. rewrite Hord.
  cbn [of_option bind]. do 2 eexists.
  repeat (split; [reflexivity|]).
  split; apply quadrature_loop_length.
Qed.

End Sizes.

(** *** Concrete runs *)

Section MoreRuns.

Import Examples FmmSeries.
Local Open Scope R_scope.

(** X4 for a tree of three levels with [kappa = 4] and leaf order 1. *)
Lemma constructor_sizes_agree_run :
  point_count_fits 1
  /\ (forall level, (2 <= level)%nat -> (level <= 3 - 1)%nat ->
        converts_to_unsigned (Llevel (V := R) 4%R level))
  /\ exists fmm,
       FmmHighFreq_new (EX := plain_externals R) 4%R 1 3 = Returned fmm
       /\ quadraturePointCount fmm = 6%nat
       /\ unsigned_int (quadraturePointCount fmm)
       /\ List.length (m_quadraturePoints fmm) = quadraturePointCount fmm
       /\ List.length (m_quadratureWeights fmm) = quadraturePointCount fmm
       /\ List.length (m_interpolatorsUpwards fmm) = 1%nat
       /\ List.length (m_interpolatorsDownwards fmm) = 1%nat
       /\ forall a b, exists T1 T2,
            M2M (EX := plain_externals R) fmm a b 3 = Returned T1
            /\ L2L (EX := plain_externals R) fmm a b 3 = Returned T2
            /\ List.length T1 = quadraturePointCount fmm
            /\ List.length T2 = quadraturePointCount fmm.
Proof.
  assert (Hp : point_count_fits 1) by reflexivity.
  assert (Hc : forall level, (2 <= level)%nat -> (level <= 3 - 1)%nat ->
                 converts_to_unsigned (Llevel (V := R) 4%R level))
    by (intros level Hl _; exact (converts_kappa_4 level Hl)).
  split; [exact Hp|]. split; [exact Hc|].
  exact (constructor_sizes_agree (EX := plain_externals R)
           4%R 1 3 (le_S _ _ (le_n 2)) eq_refl Hp Hc).
Defined.

End MoreRuns.

End FmmMoreFacts.

(** ** grid_function.cpp: construction, coefficients and arithmetic *)

Module GridFunOpsFacts.

Import GridFunOps.
Local Open Scope cxx_scope.

Section Operations.

Context {V : Type} `{VT : ValueType V} `{ZT : ZeroTest V}.

Variable spaces : Memory.

Lemma GridFunction_new_ok (space : Z) (coefficients : list V) :
  space_dofsAssigned (spaces space) = true ->
  space_globalDofCount (spaces space) = Z.of_nat (List.length coefficients) ->
  GridFunction_new spaces space coefficients
  = Returned (mkGridFunction space coefficients).
Proof.
  intros Hd Hc. unfold GridFunction_new. rewrite Hd, Hc, Z.eqb_refl.
  reflexivity.
Qed.

(** X6.  The constructor from coefficients returns exactly when the
    DOFs of the space are assigned and there is one coefficient per
    global DOF; what it returns satisfies the class invariant, refers to
    the given space and holds the given coefficients.  Otherwise it
    throws [std::runtime_error], the check of the DOFs coming first. *)
Theorem constructor_checks_space_and_size (space : Z) (coefficients : list V) :
  (forall g, GridFunction_new spaces space coefficients = Returned g ->
     well_formed spaces g /\ m_space g = space
     /\ m_coefficients g = coefficients)
  /\ (returns (GridFunction_new spaces space coefficients) = true
      <-> space_dofsAssigned (spaces space) = true
          /\ space_globalDofCount (spaces space)
             = Z.of_nat (List.length coefficients))
  /\ (space_dofsAssigned (spaces space) = false ->
      GridFunction_new spaces space coefficients = Thrown dofs_not_assigned)
  /\ (space_dofsAssigned (spaces space) = true ->
      space_globalDofCount (spaces space)
      <> Z.of_nat (List.length coefficients) ->
      GridFunction_new spaces space coefficients = Thrown dimension_mismatch).
Proof.
  unfold GridFunction_new, well_formed.
  destruct (space_dofsAssigned (spaces space)) eqn:Hd; cbn [negb].
  - destruct (Z.eqb_spec (space_globalDofCount (spaces space))
                (Z.of_nat (List.length coefficients))) as [Hc|Hc]; cbn [negb].
    + split; [|split; [|split]].
      * intros g [= <-]; cbn [m_space m_coefficients]. rewrite Hd. auto.
      * cbn [returns]. tauto.
      * discriminate.
      * intros _ Hne; contradiction.
    + split; [|split; [|split]].
      * discriminate.
      * cbn [returns]. split; [discriminate | intros [_ Hc']; contradiction].
      * discriminate.
      * reflexivity.
  - split; [|split; [|split]].
    + discriminate.
    + cbn [returns]. split; [discriminate | intros [Hf _]; discriminate].
    + reflexivity.
    + discriminate.
Qed.

(** X7.  [setCoefficients] keeps the class invariant and the space.  A
    vector with one entry per global DOF replaces the coefficients, so
    that [coefficients()] returns it afterwards; any other vector is
    rejected with [std::invalid_argument] and the function is left as
    it was. *)
Theorem setCoefficients_keeps_invariant (g : GridFunction V) (coeffs : list V) :
  well_formed spaces g ->
  well_formed spaces (snd (setCoefficients spaces coeffs g))
  /\ m_space (snd (setCoefficients spaces coeffs g)) = m_space g
  /\ ((List.length coeffs = List.length (m_coefficients g)
       /\ setCoefficients spaces coeffs g
          = (Returned tt, mkGridFunction (m_space g) coeffs)
       /\ coefficients (snd (setCoefficients spaces coeffs g)) = coeffs)
      \/ (List.length coeffs <> List.length (m_coefficients g)
          /\ setCoefficients spaces coeffs g
             = (Thrown wrong_coefficient_count, g))).
Proof.
  intros [Hd Hc]. unfold setCoefficients, throw, modify, well_formed.
  destruct (Z.eqb_spec (Z.of_nat (List.length coeffs))
              (space_globalDofCount (spaces (m_space g)))) as [He|He];
    cbn [negb snd m_space m_coefficients].
  - split; [split; [exact Hd | symmetry; exact He]|].
    split; [reflexivity|]. left. split; [lia|]. split; reflexivity.
  - split; [split; assumption|]. split; [reflexivity|].
    right. split; [|reflexivity]. intros Hl. apply He. rewrite Hl, Hc.
    reflexivity.
Qed.

Lemma arma_zip_same_length (op : V -> V -> V) (a b : list V) :
  List.length a = List.length b ->
  arma_zip op a b
  = Returned (map (fun xy => op (fst xy) (snd xy)) (combine a b)).
Proof. intros Hl. unfold arma_zip. rewrite Hl, Nat.eqb_refl. reflexivity. Qed.

Lemma zip_length (op : V -> V -> V) (a b : list V) :
  List.length a = List.length b ->
  List.length (map (fun xy => op (fst xy) (snd xy)) (combine a b))
  = List.length a.
Proof. intros Hl. rewrite length_map, length_combine, Hl. apply Nat.min_id. Qed.

Lemma same_space_same_length (g1 g2 : GridFunction V) :
  well_formed spaces g1 -> well_formed spaces g2 -> m_space g1 = m_space g2 ->
  List.length (m_coefficients g1) = List.length (m_coefficients g2).
Proof. intros [_ H1] [_ H2] Hs. rewrite Hs in H1. lia. Qed.

Lemma plus_same_space (g1 g2 : GridFunction V) :
  well_formed spaces g1 -> well_formed spaces g2 -> m_space g1 = m_space g2 ->
  plus spaces g1 g2
  = Returned (mkGridFunction (m_space g1)
                (map (fun xy => vadd (fst xy) (snd xy))
                     (combine (m_coefficients g1) (m_coefficients g2)))).
Proof.
  intros H1 H2 Hs. pose proof (same_space_same_length g1 g2 H1 H2 Hs) as Hl.
  unfold plus, space, coefficients. rewrite Hs, Z.eqb_refl. cbn [negb].
  rewrite arma_zip_same_length by exact Hl. cbn [bind].
  rewrite <- Hs. destruct H1 as [Hd Hc].
  apply GridFunction_new_ok; [exact Hd|]. rewrite zip_length by exact Hl.
  exact Hc.
Qed.

Lemma minus_same_space (g1 g2 : GridFunction V) :
  well_formed spaces g1 -> well_formed spaces g2 -> m_space g1 = m_space g2 ->
  minus spaces g1 g2
  = Returned (mkGridFunction (m_space g1)
                (map (fun xy => vsub (fst xy) (snd xy))
                     (combine (m_coefficients g1) (m_coefficients g2)))).
Proof.
  intros H1 H2 Hs. pose proof (same_space_same_length g1 g2 H1 H2 Hs) as Hl.
  unfold minus, space, coefficients. rewrite Hs, Z.eqb_refl. cbn [negb].
  rewrite arma_zip_same_length by exact Hl. cbn [bind].
  rewrite <- Hs. destruct H1 as [Hd Hc].
  apply GridFunction_new_ok; [exact Hd|]. rewrite zip_length by exact Hl.
  exact Hc.
Qed.

Lemma times_well_formed (g : GridFunction V) (scalar : V) :
  well_formed spaces g ->
  times spaces g scalar
  = Returned (mkGridFunction (m_space g) (map (vmul scalar) (m_coefficients g))).
Proof.
  intros [Hd Hc]. unfold times, space, coefficients, arma_scale.
  apply GridFunction_new_ok; [exact Hd|]. rewrite length_map. exact Hc.
Qed.

Lemma well_formed_same_size (g : GridFunction V) (coeffs : list V) :
  well_formed spaces g ->
  List.length coeffs = List.length (m_coefficients g) ->
  well_formed spaces (mkGridFunction (m_space g) coeffs).
Proof.
  intros [Hd Hc] Hl. split; cbn; [exact Hd | rewrite Hl; exact Hc].
Qed.

(** X8.  For two well-formed grid functions, [operator+] and
    [operator-] return exactly when both refer to the same space
    object; otherwise they throw [std::runtime_error].  The sum is again
    well formed, lives on that space, and its coefficients are the sums
    of the coefficients. *)
Theorem plus_needs_the_same_space (g1 g2 : GridFunction V) :
  well_formed spaces g1 -> well_formed spaces g2 ->
  (m_space g1 <> m_space g2 ->
     plus spaces g1 g2
     = Thrown (runtime_error "GridFunction::operator+(): spaces don't match")
     /\ minus spaces g1 g2
        = Thrown (runtime_error "GridFunction::operator-(): spaces don't match"))
  /\ (m_space g1 = m_space g2 ->
      exists g,
        plus spaces g1 g2 = Returned g
        /\ well_formed spaces g
        /\ m_space g = m_space g1
        /\ List.length (m_coefficients g) = List.length (m_coefficients g1)
        /\ forall n a b,
             nth_error (m_coefficients g1) n = Some a ->
             nth_error (m_coefficients g2) n = Some b ->
             nth_error (m_coefficients g) n = Some (vadd a b)).
Proof.
  intros H1 H2. split.
  - intros Hne. unfold plus, minus, space.
    destruct (Z.eqb_spec (m_space g1) (m_space g2)); [contradiction|].
    split; reflexivity.
  - intros Hs. pose proof (same_space_same_length g1 g2 H1 H2 Hs) as Hl.
    eexists. split; [apply plus_same_space; assumption|].
    split; [apply well_formed_same_size;
            [exact H1 | apply zip_length; exact Hl]|].
    split; [reflexivity|]. cbn [m_coefficients].
    split; [apply zip_length; exact Hl|].
    intros n a b Ha Hb.
    rewrite nth_error_map.
    assert (Hc : nth_error (combine (m_coefficients g1) (m_coefficients g2)) n
                 = Some (a, b)).
    { clear - Ha Hb. revert n Ha Hb.
      generalize (m_coefficients g2) as l2.
      induction (m_coefficients g1) as [|x l1 IH]; intros [|y l2] [|n];
        cbn; try discriminate.
      - intros [= ->] [= ->]; reflexivity.
      - apply IH. }
    rewrite Hc. reflexivity.
Qed.

(** X10.  [operator/] throws [std::runtime_error("Divide by zero")] when
    the scalar compares equal to zero, whatever the grid function.  For
    any other scalar and a well-formed grid function it is the product
    [(1/scalar) * g]: it returns the grid function on the same space
    whose coefficients are those of [g], each multiplied from the left
    by the reciprocal [1/scalar]. *)
Theorem divide_multiplies_by_reciprocal (g : GridFunction V) (s : V) :
  (is_zero s = true ->
     divide spaces g s = Thrown (runtime_error "Divide by zero"))
  /\ (is_zero s = false -> well_formed spaces g ->
      divide spaces g s = times_left spaces (vdiv vone s) g
      /\ divide spaces g s
         = Returned (mkGridFunction (m_space g)
                       (map (vmul (vdiv vone s)) (m_coefficients g)))).
Proof.
  split.
  - intros Hz. unfold divide. rewrite Hz. reflexivity.
  - intros Hz Hg. unfold divide. rewrite Hz.
    split; [reflexivity|].
    unfold times_left. now apply times_well_formed.
Qed.

End Operations.

Section Projections.

Context {V : Type} `{VT : ValueType V}.

Variable spaces : Memory.

Lemma scatter_length (pairs : list (Z * V)) (result : list V) :
  List.length (scatter pairs result) = List.length result.
Proof.
  unfold scatter. revert result.
  induction pairs as [|p pairs IH]; intros result; cbn [fold_left];
    [reflexivity|].
  rewrite IH. apply list_set_length.
Qed.

Lemma scatter_app (ps qs : list (Z * V)) (result : list V) :
  scatter (ps ++ qs) result = scatter qs (scatter ps result).
Proof. unfold scatter. apply fold_left_app. Qed.

Lemma list_set_nth {A} (v : list A) (n i : nat) (a d : A) :
  (n < List.length v)%nat ->
  nth i (list_set v n a) d = if (i =? n)%nat then a else nth i v d.
Proof.
  revert n i. induction v as [|x v IH]; intros [|n] [|i] Hn; cbn in *;
    try lia; try reflexivity.
  apply IH. lia.
Qed.

Lemma arma_add_at_in_range (result : list V) (i : Z) (x : V) :
  (0 <= i < Z.of_nat (List.length result))%Z ->
  arma_add_at result i x
  = Returned (list_set result (Z.to_nat i)
                (vadd (nth (Z.to_nat i) result vzero) x)).
Proof.
  intros Hi. unfold arma_add_at, vec_get, vec_set.
  replace ((0 <=? i)%Z && (i <? Z.of_nat (List.length result))%Z) with true
    by (symmetry; apply andb_true_iff; split;
        [apply Z.leb_le | apply Z.ltb_lt]; lia).
  destruct (nth_error result (Z.to_nat i)) as [old|] eqn:Hold.
  - cbn [of_option bind]. rewrite (nth_error_nth _ _ _ Hold). reflexivity.
  - apply nth_error_None in Hold. lia.
Qed.

(** The loop over the DOFs of one element. *)
Lemma dof_loop (localResult : list (list V)) (testIndex : Z)
    (gdofs : list Z) (local : list V) (count : nat)
    (body : Z -> list V -> outcome (list V)) :
  body = (fun testDof result =>
            gdof <- of_option (vec_get gdofs testDof) ;;
            local <- of_option (vec_get localResult testIndex) ;;
            x <- of_option (vec_get local testDof) ;;
            arma_add_at result gdof x) ->
  vec_get localResult testIndex = Some local ->
  (List.length gdofs <= List.length local)%nat ->
  Forall (fun d => (0 <= d < Z.of_nat count)%Z) gdofs ->
  forall (suffix prefix : list Z) (result : list V),
    gdofs = prefix ++ suffix ->
    List.length result = count ->
    for_each body
      (map Z.of_nat (seq (List.length prefix) (List.length suffix))) result
    = Returned (scatter (combine suffix (skipn (List.length prefix) local))
                        result).
Proof.
  intros Hbody Hlocal Hlen Hrange.
  induction suffix as [|d suffix IH]; intros prefix result Hg Hr.
  - reflexivity.
  - cbn [List.length seq map for_each].
    assert (Hk : (List.length prefix < List.length local)%nat).
    { rewrite Hg, length_app in Hlen. cbn in Hlen. lia. }
    destruct (nth_error local (List.length prefix)) as [x|] eqn:Hx;
      [|apply nth_error_None in Hx; lia].
    assert (Hd : (0 <= d < Z.of_nat count)%Z).
    { rewrite Forall_forall in Hrange. apply Hrange. rewrite Hg.
      apply in_or_app; right; left; reflexivity. }
    assert (Hstep : body (Z.of_nat (List.length prefix)) result
                    = Returned (list_set result (Z.to_nat d)
                                  (vadd (nth (Z.to_nat d) result vzero) x))).
    { rewrite Hbody.
      rewrite vec_get_nth_error, Hg, nth_error_app2, Nat.sub_diag by lia.
      cbn [nth_error of_option bind]. rewrite Hlocal. cbn [of_option bind].
      rewrite vec_get_nth_error, Hx. cbn [of_option bind].
      apply arma_add_at_in_range. rewrite Hr; exact Hd. }
    rewrite Hstep. cbn [bind].
    specialize (IH (prefix ++ [d])
                  (list_set result (Z.to_nat d)
                     (vadd (nth (Z.to_nat d) result vzero) x))).
    rewrite length_app in IH. cbn [List.length] in IH.
    replace (List.length prefix + 1)%nat with (S (List.length prefix)) in IH
      by lia.
    rewrite IH.
    + f_equal.
      assert (Hs : skipn (List.length prefix) local
                   = x :: skipn (S (List.length prefix)) local).
      { clear - Hx. revert local Hx.
        induction (List.length prefix) as [|k IHk]; intros [|y l] Hx;
          cbn in *; try discriminate.
        - injection Hx as ->; reflexivity.
        - apply IHk; exact Hx. }
      rewrite Hs. reflexivity.
    + rewrite Hg, <- app_assoc. reflexivity.
    + rewrite list_set_length. exact Hr.
Qed.

(** The loop over the elements. *)
Lemma element_loop (count : nat) (allG : list (list Z)) (allL : list (list V))
    (body : Z -> list V -> outcome (list V)) :
  body = (fun testIndex result =>
            gdofs <- of_option (vec_get allG testIndex) ;;
            for_each
              (fun testDof result =>
                 gdof <- of_option (vec_get gdofs testDof) ;;
                 local <- of_option (vec_get allL testIndex) ;;
                 x <- of_option (vec_get local testDof) ;;
                 arma_add_at result gdof x)
              (Integrator.int_range (Z.of_nat (List.length gdofs))) result) ->
  forall (suffixG : list (list Z)) (suffixL : list (list V))
         (prefixG : list (list Z)) (prefixL : list (list V)) (result : list V),
    allG = prefixG ++ suffixG ->
    allL = prefixL ++ suffixL ->
    List.length prefixG = List.length prefixL ->
    Forall2 (fun gdofs local =>
               (List.length gdofs <= List.length local)%nat
               /\ Forall (fun d => (0 <= d < Z.of_nat count)%Z) gdofs)
            suffixG suffixL ->
    List.length result = count ->
    for_each body
      (map Z.of_nat (seq (List.length prefixG) (List.length suffixG))) result
    = Returned (scatter (flat_map (fun gl => combine (fst gl) (snd gl))
                                  (combine suffixG suffixL))
                        result).
Proof.
  intros Hbody.
  induction suffixG as [|gdofs suffixG IH];
    intros suffixL prefixG prefixL result HG HL Hp Hall Hr.
  - reflexivity.
  - inversion Hall as [|? local ? suffixL' [Hlen Hrange] Hrest]; subst suffixL.
    cbn [List.length seq map for_each combine flat_map fst snd].
    assert (Hlocal : vec_get allL (Z.of_nat (List.length prefixG))
                     = Some local).
    { rewrite vec_get_nth_error, HL, Hp, nth_error_app2, Nat.sub_diag by lia.
      reflexivity. }
    assert (Hstep : body (Z.of_nat (List.length prefixG)) result
                    = Returned (scatter (combine gdofs local) result)).
    { rewrite Hbody.
      rewrite vec_get_nth_error, HG, nth_error_app2, Nat.sub_diag by lia.
      cbn [nth_error of_option bind].
      unfold Integrator.int_range. rewrite Nat2Z.id.
      exact (dof_loop allL (Z.of_nat (List.length prefixG)) gdofs local count
               _ eq_refl Hlocal Hlen Hrange gdofs [] result eq_refl Hr). }
    rewrite Hstep. cbn [bind].
    specialize (IH suffixL' (prefixG ++ [gdofs]) (prefixL ++ [local])
                  (scatter (combine gdofs local) result)).
    rewrite !length_app in IH. cbn [List.length] in IH.
    replace (List.length prefixG + 1)%nat with (S (List.length prefixG)) in IH
      by lia.
    rewrite IH.
    + rewrite scatter_app. reflexivity.
    + rewrite HG, <- app_assoc. reflexivity.
    + rewrite HL, <- app_assoc. reflexivity.
    + lia.
    + exact Hrest.
    + rewrite scatter_length. exact Hr.
Qed.

Lemma scatter_entries (pairs : list (Z * V)) :
  forall result : list V,
    Forall (fun p => (0 <= fst p < Z.of_nat (List.length result))%Z) pairs ->
    scatter pairs result
    = map (fun i =>
             fold_left vadd
               (map snd (filter (fun p => (fst p =? Z.of_nat i)%Z) pairs))
               (nth i result vzero))
          (seq 0 (List.length result)).
Proof.
  induction pairs as [|[d x] pairs IH]; intros result Hall.
  - cbn [filter map fold_left]. unfold scatter; cbn [fold_left].
    symmetry. clear. 
    assert (H : forall k (l : list V),
               map (fun i => nth (i - k) l vzero) (seq k (List.length l)) = l).
    { intros k l; revert k. induction l as [|y l IHl]; intros k; cbn [List.length seq map].
      - reflexivity.
      - rewrite Nat.sub_diag. cbn [nth]. f_equal.
        rewrite <- (IHl (S k)) at 2. apply map_ext_in.
        intros i Hi. apply in_seq in Hi.
        replace (i - k)%nat with (S (i - S k)) by lia. reflexivity. }
    rewrite <- (H 0%nat result) at 2. apply map_ext. intros i.
    rewrite Nat.sub_0_r. reflexivity.
  - inversion Hall as [|? ? Hd Hrest]; subst. cbn [fst] in Hd.
    change (scatter ((d, x) :: pairs) result)
      with (scatter pairs (list_set result (Z.to_nat d)
                             (vadd (nth (Z.to_nat d) result vzero) x))).
    rewrite IH by (rewrite list_set_length; exact Hrest).
    rewrite list_set_length. apply map_ext_in. intros i Hi.
    apply in_seq in Hi. rewrite list_set_nth by lia.
    cbn [filter fst].
    destruct (Z.eqb_spec d (Z.of_nat i)) as [He|Hne].
    + subst d. rewrite Nat2Z.id, Nat.eqb_refl. reflexivity.
    + destruct (Nat.eqb_spec i (Z.to_nat d)) as [He|_]; [lia|]. reflexivity.
Qed.

Lemma in_range_pairs (count : nat) (gs : list (list Z)) (ls : list (list V)) :
  Forall2 (fun gdofs (local : list V) =>
             (List.length gdofs <= List.length local)%nat
             /\ Forall (fun d => (0 <= d < Z.of_nat count)%Z) gdofs)
          gs ls ->
  Forall (fun p : Z * V => (0 <= fst p < Z.of_nat count)%Z)
         (flat_map (fun gl => combine (fst gl) (snd gl)) (combine gs ls)).
Proof.
  induction 1 as [|gdofs local gs ls [_ Hrange] _ IH]; cbn [combine flat_map].
  - constructor.
  - apply Forall_app; split; [|exact IH]. cbn [fst snd].
    apply Forall_forall. intros [d x] Hin. apply in_combine_l in Hin.
    rewrite Forall_forall in Hrange. apply Hrange. exact Hin.
Qed.

(** X12.  [reallyCalculateProjections] scatters the local integrals
    into a vector with one entry per global DOF: when the assembler has
    left, for every element, at least one value per local DOF, and the
    global DOF indices lie in the range of the space, it returns, and
    entry [i] of the result is the sum of the local values whose global
    DOF is [i], added to zero in the order of the loops.
    [calculateProjections] returns the same vector when the DOFs of the
    space are assigned and throws [std::runtime_error] otherwise. *)
Theorem projections_sum_local_integrals (space : Z)
    (localResult : list (list V)) :
  let elements :=
    GridFun.grid_elements
      (GridFun.space_grid (space_state (spaces space))) in
  let testGlobalDofs := map GridFun.elem_globalDofs elements in
  let count := space_globalDofCount (spaces space) in
  (Z.of_nat (List.length elements) < 2 ^ 31)%Z ->
  Forall2 (fun gdofs local =>
             (List.length gdofs <= List.length local)%nat
             /\ Forall (fun d => (0 <= d < count)%Z) gdofs)
          testGlobalDofs localResult ->
  exists result,
    reallyCalculateProjections spaces space localResult = Returned result
    /\ List.length result = Z.to_nat count
    /\ (forall i, (i < Z.to_nat count)%nat ->
          nth_error result i
          = Some (fold_left vadd
                    (contributions_to (Z.of_nat i) testGlobalDofs localResult)
                    vzero))
    /\ calculateProjections spaces space localResult
       = if space_dofsAssigned (spaces space) then Returned result
         else Thrown projections_need_dofs.
Proof.
  intros elements testGlobalDofs count Hsmall Hall.
  set (N := Z.to_nat count).
  assert (Hall' : Forall2 (fun gdofs (local : list V) =>
                    (List.length gdofs <= List.length local)%nat
                    /\ Forall (fun d => (0 <= d < Z.of_nat N)%Z) gdofs)
                  testGlobalDofs localResult).
  { eapply Forall2_impl; [|exact Hall]. cbv beta.
    intros gdofs local [Hlen Hrange]. split; [exact Hlen|].
    eapply Forall_impl; [|exact Hrange]. cbv beta. intros d Hd.
    unfold N. lia. }
  set (pairs := flat_map (fun gl : list Z * list V => combine (fst gl) (snd gl))
                         (combine testGlobalDofs localResult)).
  assert (Hrun : reallyCalculateProjections spaces space localResult
                 = Returned (scatter pairs (repeat vzero N))).
  { unfold reallyCalculateProjections. fold elements testGlobalDofs count N.
    unfold to_int.
    replace ((Z.of_nat (List.length elements) + 2 ^ 31) mod 2 ^ 32 - 2 ^ 31)%Z
      with (Z.of_nat (List.length elements))
      by (rewrite Z.mod_small; lia).
    unfold Integrator.int_range at 2. rewrite Nat2Z.id.
    replace (List.length elements) with (List.length testGlobalDofs)
      by (unfold testGlobalDofs; apply length_map).
    apply (element_loop N testGlobalDofs localResult _ eq_refl
             testGlobalDofs localResult [] []);
      [reflexivity | reflexivity | reflexivity | exact Hall'
       | apply repeat_length]. }
  assert (Hentries := scatter_entries pairs (repeat vzero N)).
  rewrite repeat_length in Hentries.
  specialize (Hentries (in_range_pairs N _ _ Hall')).
  exists (scatter pairs (repeat vzero N)).
  split; [exact Hrun|].
  split; [rewrite scatter_length; apply repeat_length|].
  split.
  - intros i Hi. rewrite Hentries.
    rewrite nth_error_map, nth_error_nth' with (d := 0%nat)
      by (rewrite length_seq; exact Hi).
    rewrite seq_nth by exact Hi. cbn [option_map Nat.add].
    rewrite nth_repeat. reflexivity.
  - unfold calculateProjections.
    destruct (space_dofsAssigned (spaces space)); cbn [negb];
      [exact Hrun | reflexivity].
Qed.

End Projections.

Section LocalCoefficients.

Context {V : Type} `{VT : ValueType V}.

Lemma gather_loop (coefficients : list V) (gdofs : list Z) :
  Forall (fun d => (0 <= d < Z.of_nat (List.length coefficients))%Z) gdofs ->
  forall coeffs,
    for_each (fun gdof coeffs =>
                c <- of_option (vec_get coefficients gdof) ;;
                Returned (coeffs ++ [c]))
             gdofs coeffs
    = Returned (coeffs
                ++ map (fun d => nth (Z.to_nat d) coefficients vzero) gdofs).
Proof.
  induction 1 as [|d gdofs Hd _ IH]; intros coeffs; cbn [for_each map].
  - rewrite app_nil_r. reflexivity.
  - replace d with (Z.of_nat (Z.to_nat d)) at 1 by lia.
    rewrite (vec_get_nth coefficients (Z.to_nat d) vzero) by lia.
    cbn [of_option bind]. rewrite IH, <- app_assoc. reflexivity.
Qed.

(** X22.  [getLocalCoefficients] gathers: when the global DOFs of the
    element lie within the coefficient vector, it returns one
    coefficient per local DOF, the one stored at the global DOF that
    the local DOF is mapped to.  For an element without DOFs the result
    is empty. *)
Theorem getLocalCoefficients_gathers (g : GridFunction V)
    (element : GridFun.Element) :
  Forall (fun d => (0 <= d < Z.of_nat (List.length (m_coefficients g)))%Z)
         (GridFun.elem_globalDofs element) ->
  exists coeffs,
    getLocalCoefficients g element = Returned coeffs
    /\ List.length coeffs = List.length (GridFun.elem_globalDofs element)
    /\ forall n d,
         nth_error (GridFun.elem_globalDofs element) n = Some d ->
         nth_error coeffs n = nth_error (m_coefficients g) (Z.to_nat d).
Proof.
  intros Hrange. eexists. split; [|split].
  - unfold getLocalCoefficients. rewrite gather_loop by exact Hrange.
    reflexivity.
  - cbn [app]. apply length_map.
  - intros n d Hn. cbn [app]. rewrite nth_error_map, Hn. cbn [option_map].
    rewrite Forall_forall in Hrange.
    pose proof (Hrange d (nth_error_In _ _ Hn)) as Hd.
    symmetry. apply nth_error_nth'. lia.
Qed.

End LocalCoefficients.

Section OperationRuns.

Import MoreExamples.
Local Open Scope R_scope.

(** X7 on [ones] and a new vector of three coefficients. *)
Lemma setCoefficients_keeps_invariant_run :
  well_formed sample_spaces (snd (setCoefficients sample_spaces [4; 5; 6] ones))
  /\ m_space (snd (setCoefficients sample_spaces [4; 5; 6] ones)) = m_space ones
  /\ ((List.length [4; 5; 6] = List.length (m_coefficients ones)
       /\ setCoefficients sample_spaces [4; 5; 6] ones
          = (Returned tt, mkGridFunction (m_space ones) [4; 5; 6])
       /\ coefficients (snd (setCoefficients sample_spaces [4; 5; 6] ones))
          = [4; 5; 6])
      \/ (List.length [4; 5; 6] <> List.length (m_coefficients ones)
          /\ setCoefficients sample_spaces [4; 5; 6] ones
             = (Thrown wrong_coefficient_count, ones))).
Proof.
  exact (setCoefficients_keeps_invariant sample_spaces ones [4; 5; 6]
           (conj eq_refl eq_refl)).
Defined.

(** X8 on [ones] and [ramp]. *)
Lemma plus_needs_the_same_space_run :
  (m_space ones <> m_space ramp ->
     plus sample_spaces ones ramp
     = Thrown (runtime_error "GridFunction::operator+(): spaces don't match")
     /\ minus sample_spaces ones ramp
        = Thrown (runtime_error "GridFunction::operator-(): spaces don't match"))
  /\ (m_space ones = m_space ramp ->
      exists g,
        plus sample_spaces ones ramp = Returned g
        /\ well_formed sample_spaces g
        /\ m_space g = m_space ones
        /\ List.length (m_coefficients g) = List.length (m_coefficients ones)
        /\ forall n a b,
             nth_error (m_coefficients ones) n = Some a ->
             nth_error (m_coefficients ramp) n = Some b ->
             nth_error (m_coefficients g) n = Some (vadd a b)).
Proof.
  exact (plus_needs_the_same_space sample_spaces ones ramp
           (conj eq_refl eq_refl) (conj eq_refl eq_refl)).
Defined.

Lemma two_is_not_zero : is_zero (V := R) 2 = false.
Proof. cbn. destruct (Req_dec_T 2 0); [lra | reflexivity]. Qed.

(** X10 on [ramp] and the scalar 2. *)
Lemma divide_multiplies_by_reciprocal_run :
  is_zero (V := R) 2 = false
  /\ well_formed sample_spaces ramp
  /\ divide sample_spaces ramp 2 = times_left sample_spaces (1 / 2) ramp
  /\ divide sample_spaces ramp 2
     = Returned (mkGridFunction 100 [1 / 2 * 1; 1 / 2 * 2; 1 / 2 * 3]).
Proof.
  assert (Hg : well_formed sample_spaces ramp) by (split; reflexivity).
  split; [exact two_is_not_zero|]. split; [exact Hg|].
  exact (proj2 (divide_multiplies_by_reciprocal sample_spaces ramp 2)
           two_is_not_zero Hg).
Defined.

(** X22 on [ramp] and the triangle. *)
Lemma getLocalCoefficients_gathers_run :
  exists coeffs,
    getLocalCoefficients ramp (GridFun.mkElement 4096 3 [0; 1; 2] [0; 1; 2])%Z
    = Returned coeffs
    /\ List.length coeffs = 3%nat
    /\ forall n d,
         nth_error [0; 1; 2]%Z n = Some d ->
         nth_error coeffs n = nth_error (m_coefficients ramp) (Z.to_nat d).
Proof.
  apply (getLocalCoefficients_gathers ramp
           (GridFun.mkElement 4096 3 [0; 1; 2] [0; 1; 2])%Z).
  repeat constructor; cbn; lia.
Defined.

(** X12 on the triangle space and the local integrals 1, 2, 3. *)
Lemma projections_sum_local_integrals_run :
  exists result,
    reallyCalculateProjections sample_spaces 100 local_integrals
    = Returned result
    /\ List.length result = 3%nat
    /\ (forall i, (i < 3)%nat ->
          nth_error result i
          = Some (fold_left vadd
                    (contributions_to (Z.of_nat i) [[0; 1; 2]%Z] local_integrals)
                    vzero))
    /\ calculateProjections sample_spaces 100 local_integrals = Returned result.
Proof.
  apply (projections_sum_local_integrals sample_spaces 100 local_integrals).
  - reflexivity.
  - repeat constructor; cbn; lia.
Defined.

End OperationRuns.

End GridFunOpsFacts.

(** ** grid_function.cpp: [evaluateAtSpecialPoints] on its own *)

Module GridFunMoreFacts.

Import GridFun GridFunFacts.

Section SpecialPoints.

Context {V : Type} `{VT : ValueType V}.

Lemma process_elements_throws (activeBasis : Z) (elements : list Element) :
  (exists e, In e elements /\ elem_basis e = activeBasis) ->
  process_elements activeBasis elements = Thrown not_working.
Proof.
  unfold process_elements.
  induction elements as [|e elements IH]; intros (e' & Hin & Hb).
  - destruct Hin.
  - cbn [for_each].
    destruct (Z.eqb_spec (elem_basis e) activeBasis) as [_|Hne];
      [reflexivity|]. cbn [bind].
    apply IH. destruct Hin as [<-|Hin]; [contradiction|].
    exists e'; split; assumption.
Qed.

Lemma set_insert_not_empty (x : Z * Z) (s : list (Z * Z)) :
  set_insert x s <> [].
Proof.
  destruct s as [|y s]; cbn; [discriminate|].
  destruct (pair_lt x y); [discriminate|].
  destruct (pair_lt y x); discriminate.
Qed.

Lemma set_of_not_empty (l : list (Z * Z)) : l <> [] -> set_of l <> [].
Proof.
  unfold set_of.
  assert (H : forall l s, s <> [] ->
              fold_left (fun s x => set_insert x s) l s <> []).
  { clear. induction l as [|x l IH]; intros s Hs; cbn; [exact Hs|].
    apply IH, set_insert_not_empty. }
  destruct l as [|x l]; [congruence|]. intros _. cbn [fold_left].
  apply H, set_insert_not_empty.
Qed.

(** X13.  [evaluateAtSpecialPoints] returns only for a grid without
    elements: for a data type other than [CELL_DATA] and [VERTEX_DATA]
    it throws, and on a grid with at least one element the first basis
    it looks at either belongs to an unsupported element type or leads
    to the [throw] in the loop over the elements.  On an empty grid the
    cell data it returns has one row per component and no column. *)
Theorem evaluateAtSpecialPoints_returns_only_on_empty_grid
    (gf : GridFunction V) (dataType : DataType) :
  returns (evaluateAtSpecialPoints gf dataType)
  = match dataType with
    | OtherDataType _ => false
    | _ => match grid_elements (space_grid (m_space gf)) with
           | [] => true
           | _ :: _ => false
           end
    end
  /\ (grid_elements (space_grid (m_space gf)) = [] ->
      evaluateAtSpecialPoints gf CELL_DATA
      = Returned (mkMat (space_codomainDimension (m_space gf)) 0
                        (fun _ _ => vzero))).
Proof.
  split.
  - assert (Hmain : forall dt, dt = CELL_DATA \/ dt = VERTEX_DATA ->
              returns (evaluateAtSpecialPoints gf dt)
              = match grid_elements (space_grid (m_space gf)) with
                | [] => true
                | _ :: _ => false
                end).
    { intros dt Hdt.
      assert (Hunfold :
        evaluateAtSpecialPoints gf dt
        = bind
            (for_each
               (fun active (_ : unit) =>
                  bind (local_points dt (grid_dim (space_grid (m_space gf)))
                                     (snd active))
                       (fun local =>
                          process_elements (fst active)
                            (grid_elements (space_grid (m_space gf)))))
               (set_of (map (fun e => (elem_basis e, elem_cornerCount e))
                            (grid_elements (space_grid (m_space gf)))))
               tt)
            (fun _ =>
               Returned
                 (match dt with
                  | VERTEX_DATA =>
                      mkMat (space_codomainDimension (m_space gf))
                            (grid_vertexCount (space_grid (m_space gf)))
                            (fun i v => vdiv vzero (of_real 0%R))
                  | _ =>
                      mkMat (space_codomainDimension (m_space gf))
                        (match dt with
                         | CELL_DATA =>
                             to_int (Z.of_nat (List.length
                               (grid_elements (space_grid (m_space gf)))))
                         | _ => grid_vertexCount (space_grid (m_space gf))
                         end)
                        (fun _ _ => vzero)
                  end)))
        by (destruct Hdt as [-> | ->]; reflexivity).
      rewrite Hunfold. clear Hunfold.
      destruct (grid_elements (space_grid (m_space gf))) as [|e0 es] eqn:He.
      - reflexivity.
      - set (elements := e0 :: es) in *.
        destruct (set_of (map (fun e => (elem_basis e, elem_cornerCount e))
                              elements)) as [|a rest] eqn:Hset.
        + exfalso. revert Hset. apply set_of_not_empty. discriminate.
        + assert (Hin : In a (map (fun e => (elem_basis e, elem_cornerCount e))
                                  elements)).
          { apply set_of_in. rewrite Hset. left; reflexivity. }
          apply in_map_iff in Hin. destruct Hin as (e & Hea & Hine).
          cbn [for_each].
          rewrite (process_elements_throws (fst a) elements)
            by (exists e; split; [exact Hine | rewrite <- Hea; reflexivity]).
          destruct (local_points dt _ (snd a)); reflexivity. }
    destruct dataType as [| |z].
    + apply Hmain; left; reflexivity.
    + apply Hmain; right; reflexivity.
    + reflexivity.
  - intros He. unfold evaluateAtSpecialPoints. rewrite He. reflexivity.
Qed.

End SpecialPoints.

End GridFunMoreFacts.

(** ** IEEE doubles: zeros and finite values *)

Module FloatFacts.

Import Floats.
Local Open Scope float_scope.

Lemma is_zero_spec (x : float) :
  is_zero x = true <-> exists s, Prim2SF x = S754_zero s.
Proof.
  unfold is_zero. rewrite eqb_spec.
  change (Prim2SF zero) with (S754_zero false).
  destruct (Prim2SF x) as [s|s| |s m e]; cbn; split; intros H;
    try discriminate; try (destruct H; discriminate);
    try (destruct s; discriminate); try reflexivity.
  eexists; reflexivity.
Qed.

Lemma SFeqb_refl_finite s m e :
  SFeqb (S754_finite s m e) (S754_finite s m e) = true.
Proof.
  unfold SFeqb, SFcompare. rewrite Z.compare_refl.
  rewrite Pos.compare_cont_refl. destruct s; reflexivity.
Qed.

Lemma is_finite_spec (x : float) :
  is_finite x = true <->
  (exists s, Prim2SF x = S754_zero s)
  \/ (exists s m e, Prim2SF x = S754_finite s m e).
Proof.
  unfold is_finite, is_nan, is_infinity.
  rewrite !eqb_spec, abs_spec.
  change (Prim2SF infinity) with (S754_infinity false).
  destruct (Prim2SF x) as [s|s| |s m e].
  - cbn. split; [intros _; left; eexists; reflexivity | reflexivity].
  - cbn. destruct s; cbn; split; try discriminate;
      intros [[s' H] | (s' & m & e & H)]; discriminate.
  - cbn. split; try discriminate.
    intros [[s' H] | (s' & m & e & H)]; discriminate.
  - rewrite SFeqb_refl_finite. cbn.
    split; [intros _; right; do 3 eexists; reflexivity | reflexivity].
Qed.

(** [x - x] is a zero for every finite [x]. *)
Lemma sub_self_zero (x : float) :
  is_finite x = true -> is_zero (x - x) = true.
Proof.
  intros Hx. apply is_finite_spec in Hx. apply is_zero_spec.
  rewrite sub_spec.
  destruct Hx as [[s H] | (s & m & e & H)]; rewrite H.
  - destruct s; eexists; reflexivity.
  - unfold SF64sub, SFsub. rewrite Z.sub_diag. eexists; reflexivity.
Qed.

(** A zero times a finite number is a zero. *)
Lemma mul_zero_l (z k : float) :
  is_zero z = true -> is_finite k = true -> is_zero (z * k) = true.
Proof.
  intros Hz Hk. apply is_zero_spec in Hz. apply is_finite_spec in Hk.
  apply is_zero_spec. rewrite mul_spec.
  destruct Hz as [sz Hz]; rewrite Hz.
  destruct Hk as [[s H] | (s & m & e & H)]; rewrite H; eexists; reflexivity.
Qed.

Lemma mul_zero_r (k z : float) :
  is_finite k = true -> is_zero z = true -> is_zero (k * z) = true.
Proof.
  intros Hk Hz. apply is_zero_spec in Hz. apply is_finite_spec in Hk.
  apply is_zero_spec. rewrite mul_spec.
  destruct Hz as [sz Hz]; rewrite Hz.
  destruct Hk as [[s H] | (s & m & e & H)]; rewrite H; eexists; reflexivity.
Qed.

Lemma add_zero_zero (a b : float) :
  is_zero a = true -> is_zero b = true -> is_zero (a + b) = true.
Proof.
  intros Ha Hb. apply is_zero_spec in Ha, Hb. apply is_zero_spec.
  rewrite add_spec. destruct Ha as [sa ->], Hb as [sb ->].
  destruct sa, sb; eexists; reflexivity.
Qed.

Lemma opp_finite (k : float) : is_finite k = true -> is_finite (- k) = true.
Proof.
  intros Hk. apply is_finite_spec in Hk. apply is_finite_spec.
  rewrite opp_spec.
  destruct Hk as [[s H] | (s & m & e & H)]; rewrite H; cbn;
    [left | right]; repeat eexists.
Qed.

Lemma is_zero_finite (z : float) : is_zero z = true -> is_finite z = true.
Proof.
  intros Hz. apply is_zero_spec in Hz. apply is_finite_spec. now left.
Qed.

Lemma is_nan_spec (x : float) : is_nan x = true <-> Prim2SF x = S754_nan.
Proof.
  unfold is_nan. rewrite eqb_spec.
  destruct (Prim2SF x) as [s|s| |s m e].
  - cbn. split; discriminate.
  - destruct s; cbn; split; discriminate.
  - cbn. split; reflexivity.
  - rewrite SFeqb_refl_finite. cbn. split; discriminate.
Qed.

Lemma is_infinity_spec (x : float) :
  is_infinity x = true <-> exists s, Prim2SF x = S754_infinity s.
Proof.
  unfold is_infinity. rewrite eqb_spec, abs_spec.
  change (Prim2SF infinity) with (S754_infinity false).
  destruct (Prim2SF x) as [s|s| |s m e]; cbn; split; intros H;
    try discriminate; try (destruct H; discriminate); try reflexivity.
  eexists; reflexivity.
Qed.

(** The square root of a zero is a zero. *)
Lemma sqrt_zero (z : float) : is_zero z = true -> is_zero (sqrt z) = true.
Proof.
  intros Hz. apply is_zero_spec in Hz. apply is_zero_spec.
  rewrite sqrt_spec. destruct Hz as [s ->]. eexists; reflexivity.
Qed.

(** [1. / z] is an infinity for a zero [z]. *)
Lemma one_over_zero (z : float) :
  is_zero z = true -> is_infinity (1 / z) = true.
Proof.
  intros Hz. apply is_zero_spec in Hz. apply is_infinity_spec.
  rewrite div_spec. destruct Hz as [s ->]. eexists; reflexivity.
Qed.

(** A zero times an infinity is NaN. *)
Lemma zero_times_infinity (z x : float) :
  is_zero z = true -> is_infinity x = true -> is_nan (z * x) = true.
Proof.
  intros Hz Hx. apply is_zero_spec in Hz. apply is_infinity_spec in Hx.
  apply is_nan_spec. rewrite mul_spec.
  destruct Hz as [s ->], Hx as [s' ->]. reflexivity.
Qed.

(** The difference of two zeros is a zero. *)
Lemma sub_zero_zero (a b : float) :
  is_zero a = true -> is_zero b = true -> is_zero (a - b) = true.
Proof.
  intros Ha Hb. apply is_zero_spec in Ha, Hb. apply is_zero_spec.
  rewrite sub_spec. destruct Ha as [sa ->], Hb as [sb ->].
  destruct sa, sb; eexists; reflexivity.
Qed.

End FloatFacts.

(** ** concrete_geometry.hpp: normal vectors *)

Module GeometryFacts.

Import Floats Geometry FloatFacts.
Local Open Scope float_scope.

Lemma nth_error_points {A} (f : Z -> A) (pointCount i : nat) :
  (i < pointCount)%nat ->
  nth_error (map f (points pointCount)) i = Some (f (Z.of_nat i)).
Proof.
  intros Hi. unfold points. rewrite map_map, nth_error_map.
  rewrite nth_error_nth' with (d := 0%nat) by (rewrite length_seq; exact Hi).
  rewrite seq_nth by exact Hi. reflexivity.
Qed.

(** The sum of the squares of zeros is a zero, and scaling a zero to
    length 1 by it gives NaN. *)
Lemma zero_scaled_by_zero_sum (sum n : float) :
  is_zero sum = true -> is_zero n = true ->
  is_nan (n * (1 / sqrt sum)) = true.
Proof.
  intros Hs Hn. apply zero_times_infinity; [exact Hn|].
  apply one_over_zero, sqrt_zero, Hs.
Qed.

Lemma square_of_zero (n : float) : is_zero n = true -> is_zero (n * n) = true.
Proof. intros Hn. apply mul_zero_l; [exact Hn | now apply is_zero_finite]. Qed.

(** X14.  For a surface element in space ([mdim = 2], [cdim = 3])
    [calculateNormals] returns one column per point: the cross product
    [c] of the two rows of the transposed Jacobian at that point, each
    entry multiplied by [invLength = 1/sqrt(0 + c0*c0 + c1*c1 + c2*c2)].
    Where the three entries of the cross product are zeros, as they are
    for a degenerate element, the three entries of the column are NaN,
    not a vector of length 1. *)
Theorem surface_normals_are_scaled_cross_products (jt : Array3d) :
  exists normals,
    calculateNormals 2 3 jt = Returned normals
    /\ List.length normals = extent2 jt
    /\ forall i, (i < extent2 jt)%nat ->
       let k := Z.of_nat i in
       let c0 := at3 jt 0 1 k * at3 jt 1 2 k - at3 jt 0 2 k * at3 jt 1 1 k in
       let c1 := at3 jt 0 2 k * at3 jt 1 0 k - at3 jt 0 0 k * at3 jt 1 2 k in
       let c2 := at3 jt 0 0 k * at3 jt 1 1 k - at3 jt 0 1 k * at3 jt 1 0 k in
       let invLength := 1 / sqrt (0 + c0 * c0 + c1 * c1 + c2 * c2) in
       nth_error normals i
       = Some [c0 * invLength; c1 * invLength; c2 * invLength]
       /\ (is_zero c0 = true -> is_zero c1 = true -> is_zero c2 = true ->
           is_nan (c0 * invLength) = true
           /\ is_nan (c1 * invLength) = true
           /\ is_nan (c2 * invLength) = true).
Proof.
  eexists. split; [reflexivity|].
  split; [unfold points; rewrite !length_map, length_seq; reflexivity|].
  intros i Hi k c0 c1 c2 invLength. rewrite nth_error_map.
  rewrite (nth_error_points _ (extent2 jt) i Hi). cbn [option_map].
  split; [reflexivity|].
  intros H0 H1 H2.
  assert (Hsum : is_zero (0 + c0 * c0 + c1 * c1 + c2 * c2) = true).
  { repeat apply add_zero_zero; try apply square_of_zero; auto. }
  repeat split; apply zero_scaled_by_zero_sum; assumption.
Qed.

(** X15.  For a curve in the plane ([mdim = 1], [cdim = 2]) the column
    computed from the tangent [(t0, t1)] is [(t1, t0)], each entry
    multiplied by [invLength = 1/sqrt(0 + t1*t1 + t0*t0)]: the tangent
    with its two coordinates exchanged and neither of them negated.
    For a tangent whose two coordinates are zeros both entries are
    NaN. *)
Theorem plane_normals_swap_the_tangent (jt : Array3d) :
  exists normals,
    calculateNormals 1 2 jt = Returned normals
    /\ List.length normals = extent2 jt
    /\ forall i, (i < extent2 jt)%nat ->
       let t0 := at3 jt 0 0 (Z.of_nat i) in
       let t1 := at3 jt 0 1 (Z.of_nat i) in
       let invLength := 1 / sqrt (0 + t1 * t1 + t0 * t0) in
       nth_error normals i = Some [t1 * invLength; t0 * invLength]
       /\ (is_zero t0 = true -> is_zero t1 = true ->
           is_nan (t1 * invLength) = true
           /\ is_nan (t0 * invLength) = true).
Proof.
  eexists. split; [reflexivity|].
  split; [unfold points; rewrite !length_map, length_seq; reflexivity|].
  intros i Hi t0 t1 invLength. rewrite nth_error_map.
  rewrite (nth_error_points _ (extent2 jt) i Hi). cbn [option_map].
  split; [reflexivity|].
  intros H0 H1.
  assert (Hsum : is_zero (0 + t1 * t1 + t0 * t0) = true).
  { repeat apply add_zero_zero; try apply square_of_zero; auto. }
  split; apply zero_scaled_by_zero_sum; assumption.
Qed.

(** X16.  [calculateNormals] returns exactly when the entity has one
    dimension less than the world it lies in and the world has 1, 2 or
    3 dimensions; the result then has one column of [cdim] entries per
    point.  For another entity dimension it throws [std::logic_error];
    for another world dimension, [std::runtime_error]. *)
Theorem calculateNormals_dimensions (mdim cdim : Z) (jt : Array3d) :
  (returns (calculateNormals mdim cdim jt) = true
   <-> mdim = (cdim - 1)%Z /\ (1 <= cdim <= 3)%Z)
  /\ (mdim <> (cdim - 1)%Z ->
      exists msg, calculateNormals mdim cdim jt = Thrown (logic_error msg))
  /\ (mdim = (cdim - 1)%Z -> ~ (1 <= cdim <= 3)%Z ->
      exists msg, calculateNormals mdim cdim jt = Thrown (runtime_error msg))
  /\ (forall normals, calculateNormals mdim cdim jt = Returned normals ->
      List.length normals = extent2 jt
      /\ Forall (fun n => Z.of_nat (List.length n) = cdim) normals).
Proof.
  unfold calculateNormals, arbitrary_length_normals.
  destruct (Z.eqb_spec mdim (cdim - 1)) as [Hm|Hm]; cbn [negb].
  - destruct (Z.eqb_spec cdim 3) as [H3|H3];
      [|destruct (Z.eqb_spec cdim 2) as [H2|H2];
        [|destruct (Z.eqb_spec cdim 1) as [H1|H1]]];
      cbn [bind returns].
    + split; [split; [intros _; lia | reflexivity]|].
      split; [intros Hne; contradiction|].
      split; [intros _ Hr; lia|].
      intros normals [= <-].
      split; [unfold points; rewrite !length_map, length_seq; reflexivity|].
      apply Forall_map, Forall_map, Forall_forall. intros i _.
      unfold set_length_to_1. rewrite length_map. cbn. lia.
    + split; [split; [intros _; lia | reflexivity]|].
      split; [intros Hne; contradiction|].
      split; [intros _ Hr; lia|].
      intros normals [= <-].
      split; [unfold points; rewrite !length_map, length_seq; reflexivity|].
      apply Forall_map, Forall_map, Forall_forall. intros i _.
      unfold set_length_to_1. rewrite length_map. cbn. lia.
    + split; [split; [intros _; lia | reflexivity]|].
      split; [intros Hne; contradiction|].
      split; [intros _ Hr; lia|].
      intros normals [= <-].
      split; [unfold points; rewrite !length_map, length_seq; reflexivity|].
      apply Forall_map, Forall_map, Forall_forall. intros i _.
      unfold set_length_to_1. rewrite length_map. cbn. lia.
    + split; [split; [discriminate | intros [_ Hr]; lia]|].
      split; [intros Hne; contradiction|].
      split; [intros _ _; eexists; reflexivity|].
      discriminate.
  - split; [split; [discriminate | intros [He _]; contradiction]|].
    split; [intros _; eexists; reflexivity|].
    split; [intros He; contradiction|].
    discriminate.
Qed.

Section GeometryRuns.

(** X14 on the collapsed triangle: its only normal is made of NaN. *)
Lemma surface_normals_are_scaled_cross_products_run :
  (0 < extent2 collapsed_triangle)%nat
  /\ calculateNormals 2 3 collapsed_triangle = Returned [[nan; nan; nan]]
  /\ exists normals,
       calculateNormals 2 3 collapsed_triangle = Returned normals
       /\ exists n, nth_error normals 0 = Some n /\ forallb is_nan n = true.
Proof.
  split; [repeat constructor|]. split; [reflexivity|].
  destruct (surface_normals_are_scaled_cross_products collapsed_triangle)
    as (normals & Hrun & _ & Hcols).
  exists normals. split; [exact Hrun|].
  destruct (Hcols 0%nat (le_n 1)) as [Hnth Hnan].
  eexists. split; [exact Hnth|].
  destruct (Hnan eq_refl eq_refl eq_refl) as (N0 & N1 & N2).
  cbn [forallb]. rewrite N0, N1, N2. reflexivity.
Defined.

(** X15 on the slanted segment: the tangent (3, 4) gets the column
    (4/5, 3/5), rounded. *)
Lemma plane_normals_swap_the_tangent_run :
  (0 < extent2 slanted_segment)%nat
  /\ calculateNormals 1 2 slanted_segment
     = Returned [[0x1.999999999999ap-1; 0x1.3333333333334p-1]]
  /\ exists normals,
       calculateNormals 1 2 slanted_segment = Returned normals
       /\ nth_error normals 0
          = Some [4 * (1 / sqrt (0 + 4 * 4 + 3 * 3));
                  3 * (1 / sqrt (0 + 4 * 4 + 3 * 3))].
Proof.
  split; [repeat constructor|]. split; [reflexivity|].
  destruct (plane_normals_swap_the_tangent slanted_segment)
    as (normals & Hrun & _ & Hcols).
  exists normals. split; [exact Hrun|].
  exact (proj1 (Hcols 0%nat (le_n 1))).
Defined.

End GeometryRuns.

End GeometryFacts.

(** ** identity_operator.cpp *)

Module IdentityFacts.

Import Identity.
Local Open Scope cxx_scope.

Section Dispatch.

Context {V : Type} `{VT : ValueType V}.

Variable Epetra_FECrsMatrix : Type.
Variable trilinos :
  option (IdentityOperator -> list (Integrator.Mat V)
          -> outcome Epetra_FECrsMatrix).

(** X17.  [assembleWeakForm] checks its spaces before anything else:
    it throws [std::runtime_error] when the DOFs of the test or of the
    trial space are not assigned, and otherwise when the two spaces are
    not defined over the same grid object.  Whenever it returns, the
    DOFs of both spaces are assigned, the grids are the same, and the
    representation is [DENSE], or [ACA] in a build with Trilinos. *)
Theorem assembleWeakForm_checks_spaces_first (this : IdentityOperator)
    (localResult : list (Integrator.Mat V)) (repr : Representation) :
  (dofsAssigned (getTestSpace this) = false
   \/ dofsAssigned (getTrialSpace this) = false ->
   assembleWeakForm Epetra_FECrsMatrix trilinos this localResult repr
   = Thrown dofs_must_be_assigned)
  /\ (dofsAssigned (getTestSpace this) = true ->
      dofsAssigned (getTrialSpace this) = true ->
      grid (getTestSpace this) <> grid (getTrialSpace this) ->
      assembleWeakForm Epetra_FECrsMatrix trilinos this localResult repr
      = Thrown grids_differ)
  /\ (returns (assembleWeakForm Epetra_FECrsMatrix trilinos this localResult
                 repr) = true ->
      dofsAssigned (getTestSpace this) = true
      /\ dofsAssigned (getTrialSpace this) = true
      /\ grid (getTestSpace this) = grid (getTrialSpace this)
      /\ (repr = DENSE \/ (repr = ACA /\ trilinos <> None))).
Proof.
  unfold assembleWeakForm.
  destruct (dofsAssigned (getTestSpace this)) eqn:Ht;
    destruct (dofsAssigned (getTrialSpace this)) eqn:Hr; cbn [negb orb].
  - destruct (Z.eqb_spec (grid (getTestSpace this))
                (grid (getTrialSpace this))) as [Hg|Hg]; cbn [negb].
    + split; [intros [H|H]; discriminate|].
      split; [intros _ _ Hne; contradiction|].
      intros Hret. repeat (split; [reflexivity || exact Hg|]).
      unfold assembleWeakFormInternal, assembleWeakFormInSparseMode in Hret.
      destruct repr; try discriminate.
      * left; reflexivity.
      * right; split; [reflexivity|]. destruct trilinos; [discriminate|].
        discriminate.
    + split; [intros [H|H]; discriminate|].
      split; [reflexivity|]. discriminate.
  - split; [reflexivity|]. split; [discriminate|]. discriminate.
  - split; [reflexivity|]. split; [discriminate|]. discriminate.
  - split; [reflexivity|]. split; [discriminate|]. discriminate.
Qed.

(** X18.  [supportsRepresentation] answers true for [SPARSE], but the
    assembly rejects it: [assembleWeakFormInternal] throws
    [std::runtime_error] for [SPARSE] in every build, so that
    [assembleWeakForm] never returns for it.  In a build without
    Trilinos the same holds for [ACA], and [DENSE] is the only
    representation for which [assembleWeakForm] can return. *)
Theorem supported_sparse_representation_is_rejected (this : IdentityOperator)
    (localResult : list (Integrator.Mat V)) :
  supportsRepresentation SPARSE = true
  /\ assembleWeakFormInternal Epetra_FECrsMatrix trilinos this localResult
       SPARSE = Thrown invalid_assembly_mode
  /\ returns (assembleWeakForm Epetra_FECrsMatrix trilinos this localResult
                SPARSE) = false
  /\ (trilinos = None ->
      supportsRepresentation ACA = true
      /\ assembleWeakFormInternal Epetra_FECrsMatrix trilinos this localResult
           ACA = Thrown trilinos_missing
      /\ forall repr,
           returns (assembleWeakForm Epetra_FECrsMatrix trilinos this
                      localResult repr) = true ->
           repr = DENSE).
Proof.
  split; [reflexivity|]. split; [reflexivity|].
  split.
  - unfold assembleWeakForm.
    destruct (negb _ || negb _); [reflexivity|].
    destruct (negb _); reflexivity.
  - intros Hnone. split; [reflexivity|].
    split; [unfold assembleWeakFormInternal, assembleWeakFormInSparseMode;
            rewrite Hnone; reflexivity|].
    intros repr. unfold assembleWeakForm.
    destruct (negb _ || negb _); [discriminate|].
    destruct (negb _); [discriminate|].
    unfold assembleWeakFormInternal, assembleWeakFormInSparseMode.
    rewrite Hnone. destruct repr; try discriminate. reflexivity.
Qed.

End Dispatch.

Section DenseMode.

Context {V : Type} `{VT : ValueType V}.

Variable Epetra_FECrsMatrix : Type.
Variable trilinos :
  option (IdentityOperator -> list (Integrator.Mat V)
          -> outcome Epetra_FECrsMatrix).

Lemma fold_contributions {I} (i j : Z)
    (step : I -> Integrator.Mat V -> Integrator.Mat V)
    (contrib : I -> list V) (items : list I) :
  (forall it m, In it items ->
     Integrator.mat_at (step it m) i j
     = fold_left vadd (contrib it) (Integrator.mat_at m i j)) ->
  forall m,
    Integrator.mat_at (fold_left (fun m it => step it m) items m) i j
    = fold_left vadd (flat_map contrib items) (Integrator.mat_at m i j).
Proof.
  induction items as [|it items IH]; intros Hstep m; cbn [fold_left flat_map].
  - reflexivity.
  - rewrite fold_left_app, IH.
    + rewrite Hstep by (left; reflexivity). reflexivity.
    + intros it' m' Hin. apply Hstep. right; exact Hin.
Qed.

Lemma mat_add_at_sized (rows cols : Z) (m : Integrator.Mat V)
    (testGdof trialGdof : Z) (x : V) :
  sized rows cols m ->
  (0 <= testGdof < rows)%Z -> (0 <= trialGdof < cols)%Z ->
  mat_add_at m testGdof trialGdof x = Some (add_entry testGdof trialGdof x m)
  /\ sized rows cols (add_entry testGdof trialGdof x m).
Proof.
  intros [Hr Hc] Hi Hj. unfold mat_add_at.
  replace ((0 <=? testGdof)%Z && (testGdof <? Integrator.n_rows m)%Z
           && (0 <=? trialGdof)%Z && (trialGdof <? Integrator.n_cols m)%Z)
    with true.
  - split; [reflexivity|]. split; cbn; assumption.
  - symmetry. rewrite !andb_true_iff.
    repeat split; (apply Z.leb_le || apply Z.ltb_lt); lia.
Qed.

Lemma add_entry_at (testGdof trialGdof : Z) (x : V) (m : Integrator.Mat V)
    (i j : Z) :
  Integrator.mat_at (add_entry testGdof trialGdof x m) i j
  = fold_left vadd
      (if ((testGdof =? i) && (trialGdof =? j))%Z then [x] else [])
      (Integrator.mat_at m i j).
Proof.
  unfold add_entry. cbn [Integrator.mat_at].
  rewrite (Z.eqb_sym i testGdof), (Z.eqb_sym j trialGdof).
  destruct ((testGdof =? i)%Z && (trialGdof =? j)%Z); reflexivity.
Qed.

(** X19.  In dense mode the local matrices are scattered into a matrix
    with one row per global test DOF and one column per global trial
    DOF: for inputs that fit, the assembly returns a dense operator
    whose entry [(i, j)] is the sum of the local entries whose test DOF
    is [i] and whose trial DOF is [j], added to zero in the order of
    the loops. *)
Theorem dense_mode_sums_local_matrices (this : IdentityOperator)
    (localResult : list (Integrator.Mat V)) :
  fits this localResult ->
  exists result,
    assembleWeakFormInDenseMode Epetra_FECrsMatrix this localResult
    = Returned (DiscreteDenseLinearOperator result)
    /\ Integrator.n_rows result = globalDofCount (getTestSpace this)
    /\ Integrator.n_cols result = globalDofCount (getTrialSpace this)
    /\ forall i j,
         Integrator.mat_at result i j
         = fold_left vadd
             (matrix_contributions i j (globalDofs (getTestSpace this))
                (globalDofs (getTrialSpace this)) localResult)
             vzero.
Proof.
  intros (Hsmall & Hlt & Hll & Hfit).
  set (testGdofs := globalDofs (getTestSpace this)) in *.
  set (trialGdofs := globalDofs (getTrialSpace this)) in *.
  set (rows := globalDofCount (getTestSpace this)) in *.
  set (cols := globalDofCount (getTrialSpace this)) in *.
  set (dflt := Integrator.mkMat 0 0 (fun _ _ : Z => vzero)) in *.
  set (inner := fun (e trialIndex testIndex : Z) (m : Integrator.Mat V) =>
         add_entry
           (nth (Z.to_nat testIndex) (nth (Z.to_nat e) testGdofs []) 0%Z)
           (nth (Z.to_nat trialIndex) (nth (Z.to_nat e) trialGdofs []) 0%Z)
           (Integrator.mat_at (nth (Z.to_nat e) localResult dflt)
                              testIndex trialIndex) m).
  set (middle := fun (e trialIndex : Z) (m : Integrator.Mat V) =>
         fold_left (fun m testIndex => inner e trialIndex testIndex m)
           (Integrator.int_range
              (Integrator.size (nth (Z.to_nat e) testGdofs []))) m).
  set (outer := fun (e : Z) (m : Integrator.Mat V) =>
         fold_left (fun m trialIndex => middle e trialIndex m)
           (Integrator.int_range
              (Integrator.size (nth (Z.to_nat e) trialGdofs []))) m).
  set (result0 := Integrator.mkMat rows cols (fun _ _ : Z => vzero)).
  assert (Hloops :
    for_each
      (fun e result =>
         trialGdofs_e <- of_option (vec_get trialGdofs e) ;;
         for_each
           (fun trialIndex result =>
              testGdofs_e <- of_option (vec_get testGdofs e) ;;
              for_each
                (fun testIndex result =>
                   testGdof <- of_option (vec_get testGdofs_e testIndex) ;;
                   trialGdof <- of_option (vec_get trialGdofs_e trialIndex) ;;
                   local <- of_option (vec_get localResult e) ;;
                   x <- of_option (mat_get local testIndex trialIndex) ;;
                   of_option (mat_add_at result testGdof trialGdof x))
                (Integrator.int_range (Integrator.size testGdofs_e)) result)
           (Integrator.int_range (Integrator.size trialGdofs_e)) result)
      (Integrator.int_range (Z.of_nat (List.length testGdofs))) result0
    = Returned (fold_left (fun m e => outer e m)
                  (Integrator.int_range (Z.of_nat (List.length testGdofs)))
                  result0)
    /\ sized rows cols
         (fold_left (fun m e => outer e m)
            (Integrator.int_range (Z.of_nat (List.length testGdofs)))
            result0)).
  { apply (for_each_pure (sized rows cols)); [|split; reflexivity].
    intros z m Hz Hm. apply in_int_range in Hz. destruct Hz as (e & -> & He).
    destruct (Hfit e He) as (Hrows & Hcols & Htest & Htrial).
    rewrite (vec_get_nth trialGdofs e []) by lia. cbn [of_option bind].
    unfold outer. rewrite Nat2Z.id.
    apply (for_each_pure (sized rows cols)); [|exact Hm].
    intros z m' Hz Hm'. apply in_int_range in Hz.
    destruct Hz as (tj & -> & Htj).
    rewrite (vec_get_nth testGdofs e []) by lia. cbn [of_option bind].
    unfold middle. rewrite Nat2Z.id.
    apply (for_each_pure (sized rows cols)); [|exact Hm'].
    intros z m'' Hz Hm''. apply in_int_range in Hz.
    destruct Hz as (ti & -> & Hti).
    rewrite (vec_get_nth (nth e testGdofs []) ti 0%Z) by exact Hti.
    rewrite (vec_get_nth (nth e trialGdofs []) tj 0%Z) by exact Htj.
    rewrite (vec_get_nth localResult e dflt) by lia.
    cbn [of_option bind].
    assert (Hget : mat_get (nth e localResult dflt) (Z.of_nat ti) (Z.of_nat tj)
                   = Some (Integrator.mat_at (nth e localResult dflt)
                             (Z.of_nat ti) (Z.of_nat tj))).
    { unfold mat_get.
      replace ((0 <=? Z.of_nat ti)%Z
               && (Z.of_nat ti <? Integrator.n_rows (nth e localResult dflt))%Z
               && (0 <=? Z.of_nat tj)%Z
               && (Z.of_nat tj <? Integrator.n_cols (nth e localResult dflt))%Z)
        with true; [reflexivity|].
      symmetry. rewrite !andb_true_iff.
      repeat split; (apply Z.leb_le || apply Z.ltb_lt); lia. }
    rewrite Hget. cbn [of_option bind].
    assert (Hi : (0 <= nth ti (nth e testGdofs []) 0 < rows)%Z).
    { rewrite Forall_forall in Htest. apply Htest, nth_In. exact Hti. }
    assert (Hj : (0 <= nth tj (nth e trialGdofs []) 0 < cols)%Z).
    { rewrite Forall_forall in Htrial. apply Htrial, nth_In. exact Htj. }
    destruct (mat_add_at_sized rows cols m''
                (nth ti (nth e testGdofs []) 0%Z)
                (nth tj (nth e trialGdofs []) 0%Z)
                (Integrator.mat_at (nth e localResult dflt)
                   (Z.of_nat ti) (Z.of_nat tj)) Hm'' Hi Hj) as [-> Hsized].
    cbn [of_option]. unfold inner. rewrite !Nat2Z.id.
    split; [reflexivity | exact Hsized]. }
  destruct Hloops as [Hrun [Hrows Hcols]].
  eexists. split; [|split; [exact Hrows | split; [exact Hcols|]]].
  - unfold assembleWeakFormInDenseMode.
    fold testGdofs trialGdofs rows cols result0.
    replace (to_int (Integrator.size testGdofs))
      with (Z.of_nat (List.length testGdofs))
      by (unfold to_int, Integrator.size; rewrite Z.mod_small; lia).
    rewrite Hrun. reflexivity.
  - intros i j.
    rewrite (fold_contributions i j outer
               (fun e =>
                  flat_map
                    (fun trialIndex =>
                       flat_map
                         (fun testIndex =>
                            if ((nth testIndex (nth (Z.to_nat e) testGdofs []) 0
                                 =? i)
                                && (nth trialIndex
                                        (nth (Z.to_nat e) trialGdofs []) 0
                                    =? j))%Z
                            then [Integrator.mat_at
                                    (nth (Z.to_nat e) localResult dflt)
                                    (Z.of_nat testIndex) (Z.of_nat trialIndex)]
                            else [])
                         (seq 0 (List.length (nth (Z.to_nat e) testGdofs []))))
                    (seq 0 (List.length (nth (Z.to_nat e) trialGdofs []))))).
    + rewrite flat_map_int_range. unfold matrix_contributions.
      fold dflt. cbn [Integrator.mat_at].
      f_equal. apply flat_map_ext. intros e. rewrite Nat2Z.id. reflexivity.
    + intros e m _. unfold outer.
      rewrite (fold_contributions i j (middle e)
                 (fun trialIndex =>
                    flat_map
                      (fun testIndex =>
                         if ((nth testIndex (nth (Z.to_nat e) testGdofs []) 0
                              =? i)
                             && (nth (Z.to_nat trialIndex)
                                     (nth (Z.to_nat e) trialGdofs []) 0
                                 =? j))%Z
                         then [Integrator.mat_at
                                 (nth (Z.to_nat e) localResult dflt)
                                 (Z.of_nat testIndex) trialIndex]
                         else [])
                      (seq 0 (List.length (nth (Z.to_nat e) testGdofs []))))).
      * unfold Integrator.size. rewrite flat_map_int_range.
        f_equal. apply flat_map_ext. intros tj. rewrite Nat2Z.id. reflexivity.
      * intros trialIndex m' _. unfold middle.
        rewrite (fold_contributions i j (inner e trialIndex)
                   (fun testIndex =>
                      if ((nth (Z.to_nat testIndex)
                               (nth (Z.to_nat e) testGdofs []) 0 =? i)
                          && (nth (Z.to_nat trialIndex)
                                  (nth (Z.to_nat e) trialGdofs []) 0 =? j))%Z
                      then [Integrator.mat_at
                              (nth (Z.to_nat e) localResult dflt)
                              testIndex trialIndex]
                      else [])).
        -- unfold Integrator.size. rewrite flat_map_int_range.
           f_equal. apply flat_map_ext. intros ti. rewrite Nat2Z.id.
           reflexivity.
        -- intros testIndex m'' _. unfold inner. apply add_entry_at.
Qed.

End DenseMode.

Section IdentityRuns.

Import MoreExamples.

(** X19 on the identity operator of a space with three DOFs on one
    triangle. *)
Lemma dense_mode_sums_local_matrices_run :
  exists result,
    assembleWeakFormInDenseMode unit mass_operator local_mass
    = Returned (DiscreteDenseLinearOperator result)
    /\ Integrator.n_rows result = 3%Z
    /\ Integrator.n_cols result = 3%Z
    /\ forall i j,
         Integrator.mat_at result i j
         = fold_left vadd
             (matrix_contributions i j [[0; 1; 2]%Z] [[0; 1; 2]%Z] local_mass)
             vzero.
Proof.
  apply (dense_mode_sums_local_matrices unit mass_operator local_mass).
  split; [reflexivity|]. split; [reflexivity|]. split; [reflexivity|].
  intros [|e] He; [|cbn in He; lia].
  cbn. repeat split; try lia; repeat constructor; lia.
Defined.

End IdentityRuns.

End IdentityFacts.

(** ** The integrator: both overloads of [integrateCpu] *)

Module IntegratorMoreFacts.

Import Integrator.
Local Open Scope cxx_scope.

Section Overwriting.

Context {V : Type} `{VT : ValueType V}.

Lemma cube_assign_at (c : Cube V) (i j k : Z) (v : V) (i' j' k' : Z) :
  cube_at (cube_assign c i j k v) i' j' k'
  = if ((i' =? i) && (j' =? j) && (k' =? k))%Z then v else cube_at c i' j' k'.
Proof. reflexivity. Qed.

(** What the loops over the DOFs leave for one pair of elements. *)
Lemma dof_loops_at (E : Z * Z -> V) (k : Z) (L : list (Z * Z)) :
  forall (c : Cube V) (i j k' : Z),
    cube_at
      (fold_left (fun result dofs =>
                    cube_assign result (snd dofs) (fst dofs) k (E dofs))
                 L c) i j k'
    = if (k' =? k)%Z
         && existsb (fun dofs => (snd dofs =? i) && (fst dofs =? j))%Z L
      then E (j, i) else cube_at c i j k'.
Proof.
  induction L as [|[trialDof testDof] L IH]; intros c i j k';
    cbn [fold_left existsb].
  - rewrite andb_false_r. reflexivity.
  - rewrite IH, cube_assign_at. cbn [fst snd].
    rewrite (Z.eqb_sym testDof i), (Z.eqb_sym trialDof j).
    destruct (Z.eqb_spec k' k) as [->|Hk]; cbn [andb];
      [|rewrite andb_false_r; reflexivity].
    destruct (existsb _ L); [rewrite orb_true_r; reflexivity|].
    rewrite orb_false_r, andb_true_r.
    destruct (Z.eqb_spec i testDof) as [->|Hi]; cbn [andb]; [|reflexivity].
    destruct (Z.eqb_spec j trialDof) as [->|Hj]; reflexivity.
Qed.

(** What the loop over the pairs of elements leaves. *)
Lemma pair_loop_at (E : Z -> Z * Z -> V) (L : list (Z * Z)) (Ks : list Z) :
  forall (c : Cube V) (i j k' : Z),
    cube_at
      (fold_left
         (fun result k =>
            fold_left (fun result dofs =>
                         cube_assign result (snd dofs) (fst dofs) k (E k dofs))
                      L result)
         Ks c) i j k'
    = if existsb (fun k => (k' =? k)%Z) Ks
         && existsb (fun dofs => (snd dofs =? i) && (fst dofs =? j))%Z L
      then E k' (j, i) else cube_at c i j k'.
Proof.
  induction Ks as [|k Ks IH]; intros c i j k'; cbn [fold_left existsb].
  - reflexivity.
  - rewrite IH, (dof_loops_at (E k) k L).
    destruct (Z.eqb_spec k' k) as [->|Hk]; cbn [orb andb]; [|reflexivity].
    destruct (existsb (fun k0 => (k =? k0)%Z) Ks); cbn [andb];
      destruct (existsb _ L); reflexivity.
Qed.

Lemma existsb_int_range (n z : Z) :
  (0 <= z < n)%Z -> existsb (fun k => (z =? k)%Z) (int_range n) = true.
Proof.
  intros Hz. apply existsb_exists. exists z.
  split; [apply in_int_range_iff; exact Hz | apply Z.eqb_refl].
Qed.

Lemma existsb_dofs (m n i j : Z) :
  (0 <= j < m)%Z -> (0 <= i < n)%Z ->
  existsb (fun dofs : Z * Z => (snd dofs =? i) && (fst dofs =? j))%Z
          (list_prod (int_range m) (int_range n)) = true.
Proof.
  intros Hj Hi. apply existsb_exists. exists (j, i). split.
  - apply in_prod; apply in_int_range_iff; assumption.
  - cbn [fst snd]. rewrite !Z.eqb_refl. reflexivity.
Qed.

(** X20.  When there is work to do, what the element-pair overload of
    [integrateCpu] leaves in [result] does not depend on what [result]
    held before: called on two cubes, it either fails its dimension
    assertions both times, or returns twice with the same dimensions
    (test DOFs, trial DOFs, pairs) and the same value in every entry
    within them.  No entry of the output keeps an old value. *)
Theorem integrateCpu_overwrites_every_entry
    (this : SeparableNumericalTestKernelTrialIntegrator V)
    (elementIndexPairs : list ElementIndexPair)
    (testBasis trialBasis : Basis) (result1 result2 : Cube V) :
  to_int (n_cols (m_localTestQuadPoints this)) <> 0%Z ->
  to_int (n_cols (m_localTrialQuadPoints this)) <> 0%Z ->
  to_int (size elementIndexPairs) <> 0%Z ->
  (integrateCpu this elementIndexPairs testBasis trialBasis result1 = Undefined
   /\ integrateCpu this elementIndexPairs testBasis trialBasis result2
      = Undefined)
  \/ exists out1 out2,
       integrateCpu this elementIndexPairs testBasis trialBasis result1
       = Returned out1
       /\ integrateCpu this elementIndexPairs testBasis trialBasis result2
          = Returned out2
       /\ dims out1 = (to_int (basis_size testBasis),
                       to_int (basis_size trialBasis),
                       to_int (size elementIndexPairs))
       /\ dims out2 = dims out1
       /\ forall testDof trialDof pairIndex,
            (0 <= testDof < to_int (basis_size testBasis))%Z ->
            (0 <= trialDof < to_int (basis_size trialBasis))%Z ->
            (0 <= pairIndex < to_int (size elementIndexPairs))%Z ->
            cube_at out1 testDof trialDof pairIndex
            = cube_at out2 testDof trialDof pairIndex.
Proof.
  intros Htest Htrial Hpairs.
  apply Z.eqb_neq in Htest, Htrial, Hpairs.
  unfold integrateCpu. cbv zeta.
  rewrite Htest, Htrial, Hpairs. cbn [orb].
  destruct (negb _); [left; split; reflexivity|].
  right. do 2 eexists.
  split; [reflexivity|]. split; [reflexivity|].
  assert (Hdims : forall (step : Cube V -> Z -> Z * Z -> V) (c : Cube V),
            dims (fold_left
                    (fun result pairIndex =>
                       fold_left
                         (fun result dofs =>
                            cube_assign result (snd dofs) (fst dofs) pairIndex
                                        (step result pairIndex dofs))
                         (list_prod (int_range (to_int (basis_size trialBasis)))
                                    (int_range (to_int (basis_size testBasis))))
                         result)
                    (int_range (to_int (size elementIndexPairs)))
                    (set_size c (to_int (basis_size testBasis))
                       (to_int (basis_size trialBasis))
                       (to_int (size elementIndexPairs))))
            = (to_int (basis_size testBasis), to_int (basis_size trialBasis),
               to_int (size elementIndexPairs))).
  { intros step c. rewrite IntegratorFacts.fold_left_dims; [reflexivity|].
    intros c' pairIndex. rewrite IntegratorFacts.fold_left_dims; [reflexivity|].
    intros c'' dofs. reflexivity. }
  split; [apply (Hdims (fun _ pairIndex dofs => _))|].
  split; [rewrite !(Hdims (fun _ pairIndex dofs => _)); reflexivity|].
  intros testDof trialDof pairIndex Hi Hj Hk.
  rewrite !(pair_loop_at
              (fun pairIndex dofs =>
                 if ((kernel_codomainDimension (m_kernel this) =? 1)
                     && (kernel_domainDimension (m_kernel this) =? 1))%Z
                 then _ else _)).
  rewrite existsb_int_range, existsb_dofs by assumption.
  reflexivity.
Qed.

End Overwriting.

Section Variants.

Import IntegratorVariants.

Context {V : Type} `{VT : ValueType V}.

Variable ALL_DOFS : LocalDofIndex.
Variable evaluate_dofs :
  Expression V -> Basis -> LocalDofIndex -> Mat V -> Z -> (Z -> Z -> Z -> V).

Lemma to_int_le (z : Z) : (0 <= z)%Z -> (to_int z <= z)%Z.
Proof.
  intros Hz. unfold to_int.
  pose proof (Z.mod_le (z + 2 ^ 31) (2 ^ 32)). lia.
Qed.

Lemma nth_map_in_range {A B} (f : A -> B) (l : list A) (indexA : Z)
    (dA : A) (dB : B) :
  In indexA (int_range (to_int (size l))) ->
  nth (Z.to_nat indexA) (map f l) dB = f (nth (Z.to_nat indexA) l dA).
Proof.
  intros Hin. apply in_int_range_iff in Hin.
  pose proof (to_int_le (size l) (Nat2Z.is_nonneg _)) as Hle.
  unfold size in *.
  rewrite nth_indep with (d' := f dA) by (rewrite length_map; lia).
  apply map_nth.
Qed.

(** X21.  The overload for one element [B] against the elements [A],
    called for all DOFs of [basisB], computes what the element-pair
    overload computes: for [TEST_TRIAL] on the pairs [(a, B)] with
    [basisA] as test basis, for [TRIAL_TEST] on the pairs [(B, a)] with
    [basisB] as test basis. *)
Theorem integrateCpu_variants_agree_with_pairs
    (this : SeparableNumericalTestKernelTrialIntegrator V)
    (elementIndicesA : list Z) (elementIndexB : Z) (basisA basisB : Basis)
    (result : Cube V) :
  (forall expression basis points element,
     evaluate_dofs expression basis ALL_DOFS points element
     = expr_evaluate expression basis points element) ->
  IntegratorVariants.integrateCpu ALL_DOFS evaluate_dofs this TEST_TRIAL
    elementIndicesA elementIndexB basisA basisB ALL_DOFS result
  = Integrator.integrateCpu this
      (map (fun a => (a, elementIndexB)) elementIndicesA) basisA basisB result
  /\ IntegratorVariants.integrateCpu ALL_DOFS evaluate_dofs this TRIAL_TEST
       elementIndicesA elementIndexB basisA basisB ALL_DOFS result
     = Integrator.integrateCpu this
         (map (fun a => (elementIndexB, a)) elementIndicesA) basisB basisA
         result.
Proof.
  intros Hall.
  unfold IntegratorVariants.integrateCpu, Integrator.integrateCpu. cbv zeta.
  rewrite Z.eqb_refl.
  assert (Hsize : forall f : Z -> ElementIndexPair,
            size (map f elementIndicesA) = size elementIndicesA)
    by (intros f; unfold size; rewrite length_map; reflexivity).
  rewrite !Hsize, !Hall.
  split.
  - destruct (_ || _ || _)%bool; [reflexivity|].
    destruct (negb _); [reflexivity|].
    f_equal. apply fold_left_ext_in. intros c indexA Hin.
    unfold ElementIndexPair.
    rewrite (nth_map_in_range (fun a => (a, elementIndexB)) elementIndicesA
               indexA 0%Z (0, 0)%Z Hin).
    reflexivity.
  - destruct (_ || _ || _)%bool; [reflexivity|].
    destruct (negb _); [reflexivity|].
    f_equal. apply fold_left_ext_in. intros c indexA Hin.
    unfold ElementIndexPair.
    rewrite (nth_map_in_range (fun a => (elementIndexB, a)) elementIndicesA
               indexA 0%Z (0, 0)%Z Hin).
    reflexivity.
Qed.

(** X24.  When there is work to do, the overload for one element
    against many either fails its dimension assertions or returns a
    cube with one slice per element of [elementIndicesA], whose other
    two dimensions are the DOF counts of the test and the trial side:
    [basisA] contributes all its DOFs, [basisB] all its DOFs for
    [ALL_DOFS] and a single one for any other local DOF index, and the
    call variant decides which of the two is the test side. *)
Theorem integrateCpu_variant_dimensions
    (this : SeparableNumericalTestKernelTrialIntegrator V)
    (callVariant : CallVariant) (elementIndicesA : list Z) (elementIndexB : Z)
    (basisA basisB : Basis) (localDofIndexB : LocalDofIndex)
    (result : Cube V) :
  to_int (n_cols (m_localTestQuadPoints this)) <> 0%Z ->
  to_int (n_cols (m_localTrialQuadPoints this)) <> 0%Z ->
  to_int (size elementIndicesA) <> 0%Z ->
  let dofCountA := to_int (basis_size basisA) in
  let dofCountB :=
    if (localDofIndexB =? ALL_DOFS)%Z then to_int (basis_size basisB)
    else 1%Z in
  IntegratorVariants.integrateCpu ALL_DOFS evaluate_dofs this callVariant
    elementIndicesA elementIndexB basisA basisB localDofIndexB result
  = Undefined
  \/ exists out,
       IntegratorVariants.integrateCpu ALL_DOFS evaluate_dofs this callVariant
         elementIndicesA elementIndexB basisA basisB localDofIndexB result
       = Returned out
       /\ dims out
          = match callVariant with
            | TEST_TRIAL =>
                (dofCountA, dofCountB, to_int (size elementIndicesA))
            | TRIAL_TEST =>
                (dofCountB, dofCountA, to_int (size elementIndicesA))
            end.
Proof.
  intros Htest Htrial HA dofCountA dofCountB.
  apply Z.eqb_neq in Htest, Htrial, HA.
  unfold IntegratorVariants.integrateCpu. cbv zeta.
  rewrite Htest, Htrial, HA. cbn [orb].
  destruct (negb _); [left; reflexivity|].
  right. eexists. split; [reflexivity|].
  rewrite IntegratorFacts.fold_left_dims.
  - destruct callVariant; reflexivity.
  - intros c indexA. rewrite IntegratorFacts.fold_left_dims; [reflexivity|].
    intros c' dofs. reflexivity.
Qed.

End Variants.

Section IntegratorRuns.

Import Examples MoreExamples.

(** X20 on an integrator with one point per rule, for one pair of
    elements and two cubes of different content. *)
Lemma integrateCpu_overwrites_every_entry_run :
  (integrateCpu one_point_integrator [(0, 1)%Z] (mkBasis 0 3) (mkBasis 0 3)
     some_cube = Undefined
   /\ integrateCpu one_point_integrator [(0, 1)%Z] (mkBasis 0 3) (mkBasis 0 3)
        (mkCube 0 0 0 (fun _ _ _ => 0%R)) = Undefined)
  \/ exists out1 out2,
       integrateCpu one_point_integrator [(0, 1)%Z] (mkBasis 0 3) (mkBasis 0 3)
         some_cube = Returned out1
       /\ integrateCpu one_point_integrator [(0, 1)%Z] (mkBasis 0 3)
            (mkBasis 0 3) (mkCube 0 0 0 (fun _ _ _ => 0%R)) = Returned out2
       /\ dims out1 = (3, 3, 1)%Z
       /\ dims out2 = dims out1
       /\ forall testDof trialDof pairIndex,
            (0 <= testDof < 3)%Z -> (0 <= trialDof < 3)%Z ->
            (0 <= pairIndex < 1)%Z ->
            cube_at out1 testDof trialDof pairIndex
            = cube_at out2 testDof trialDof pairIndex.
Proof.
  apply (integrateCpu_overwrites_every_entry one_point_integrator [(0, 1)%Z]
           (mkBasis 0 3) (mkBasis 0 3) some_cube
           (mkCube 0 0 0 (fun _ _ _ => 0%R)));
    intros H; vm_compute in H; discriminate H.
Defined.

(** X21 for the elements 0 and 1 against the element 2. *)
Lemma integrateCpu_variants_agree_with_pairs_run :
  IntegratorVariants.integrateCpu (-1)%Z evaluate_all_dofs one_point_integrator
    IntegratorVariants.TEST_TRIAL [0; 1]%Z 2 (mkBasis 0 3) (mkBasis 1 3) (-1)%Z
    some_cube
  = Integrator.integrateCpu one_point_integrator [(0, 2); (1, 2)]%Z
      (mkBasis 0 3) (mkBasis 1 3) some_cube
  /\ IntegratorVariants.integrateCpu (-1)%Z evaluate_all_dofs
       one_point_integrator IntegratorVariants.TRIAL_TEST [0; 1]%Z 2
       (mkBasis 0 3) (mkBasis 1 3) (-1)%Z some_cube
     = Integrator.integrateCpu one_point_integrator [(2, 0); (2, 1)]%Z
         (mkBasis 1 3) (mkBasis 0 3) some_cube.
Proof.
  exact (integrateCpu_variants_agree_with_pairs (-1)%Z evaluate_all_dofs
           one_point_integrator [0; 1]%Z 2 (mkBasis 0 3) (mkBasis 1 3)
           some_cube (fun _ _ _ _ => eq_refl)).
Defined.

(** X24 for a single local DOF of the second basis. *)
Lemma integrateCpu_variant_dimensions_run :
  IntegratorVariants.integrateCpu (-1)%Z evaluate_all_dofs one_point_integrator
    IntegratorVariants.TRIAL_TEST [0; 1]%Z 2 (mkBasis 0 3) (mkBasis 1 3) 0%Z
    some_cube
  = Undefined
  \/ exists out,
       IntegratorVariants.integrateCpu (-1)%Z evaluate_all_dofs
         one_point_integrator IntegratorVariants.TRIAL_TEST [0; 1]%Z 2
         (mkBasis 0 3) (mkBasis 1 3) 0%Z some_cube
       = Returned out
       /\ dims out = (1, 3, 2)%Z.
Proof.
  apply (integrateCpu_variant_dimensions (-1)%Z evaluate_all_dofs
           one_point_integrator IntegratorVariants.TRIAL_TEST [0; 1]%Z 2
           (mkBasis 0 3) (mkBasis 1 3) 0%Z some_cube);
    intros H; vm_compute in H; discriminate H.
Defined.

End IntegratorRuns.

End IntegratorMoreFacts.

(** ** fmm_global_assembler.cpp: the octree of a completed assembly *)

Module AssemblerMoreFacts.

Import Fmm Assembler Boxes.
Local Open Scope R_scope.

Lemma vec3_min_le_l (a b : vec3) : vec3_le (vec3_min a b) a.
Proof. unfold vec3_le, vec3_min; cbn; repeat split; apply Rmin_l. Qed.

Lemma vec3_min_le_r (a b : vec3) : vec3_le (vec3_min a b) b.
Proof. unfold vec3_le, vec3_min; cbn; repeat split; apply Rmin_r. Qed.

Lemma vec3_max_ge_l (a b : vec3) : vec3_le a (vec3_max a b).
Proof. unfold vec3_le, vec3_max; cbn; repeat split; apply Rmax_l. Qed.

Lemma vec3_max_ge_r (a b : vec3) : vec3_le b (vec3_max a b).
Proof. unfold vec3_le, vec3_max; cbn; repeat split; apply Rmax_r. Qed.

Section Octree.

Context {V : Type} `{VT : ValueType V} `{ENV : Environment}.
Variables LocalAssembler DiscreteBndOp Transform : Type.

(** X23.  Unless the call is rejected (a Hermitian request with
    different DOF counts), the first two things the assembly does are to
    print the two DOF counts and to print the bounds of the octree.  The
    bounds printed are the coordinatewise minimum of the lower corners
    and maximum of the upper corners of the bounding boxes of the two
    grids: a box that contains both bounding boxes and lies inside every
    box that contains the two. *)
Theorem printed_bounds_enclose_both_grids
    (testSpace trialSpace : Space)
    (localAssemblers : list LocalAssembler)
    (sparseTermsToAdd : list DiscreteBndOp)
    (denseTermsMultipliers sparseTermsMultipliers : list V)
    (context : Context) (hermitian : bool) (fmmTransform : Transform)
    (trace : list event) :
  hermitian = false \/ globalDofCount testSpace = globalDofCount trialSpace ->
  exists lowerBound upperBound rest,
    snd (assembleDetachedWeakForm LocalAssembler DiscreteBndOp Transform
           testSpace trialSpace localAssemblers sparseTermsToAdd
           denseTermsMultipliers sparseTermsMultipliers context hermitian
           fmmTransform trace)
    = trace
      ++ PrintedDofCounts (globalDofCount testSpace)
                          (globalDofCount trialSpace) hermitian
      :: PrintedBounds lowerBound upperBound :: rest
    /\ lowerBound = vec3_min (fst (gridBoundingBox testSpace))
                             (fst (gridBoundingBox trialSpace))
    /\ upperBound = vec3_max (snd (gridBoundingBox testSpace))
                             (snd (gridBoundingBox trialSpace))
    /\ box_inside (gridBoundingBox testSpace) (lowerBound, upperBound)
    /\ box_inside (gridBoundingBox trialSpace) (lowerBound, upperBound)
    /\ forall other,
         box_inside (gridBoundingBox testSpace) other ->
         box_inside (gridBoundingBox trialSpace) other ->
         box_inside (lowerBound, upperBound) other.
Proof.
  intros Hok.
  assert (Hguard : hermitian
                   && negb (globalDofCount testSpace =? globalDofCount trialSpace)%Z
                   = false).
  { destruct Hok as [-> | ->]; [reflexivity|].
    rewrite Z.eqb_refl. apply andb_false_r. }
  do 2 eexists.
  assert (Hrest : exists rest,
    snd (assembleDetachedWeakForm LocalAssembler DiscreteBndOp Transform
           testSpace trialSpace localAssemblers sparseTermsToAdd
           denseTermsMultipliers sparseTermsMultipliers context hermitian
           fmmTransform trace)
    = trace
      ++ PrintedDofCounts (globalDofCount testSpace)
                          (globalDofCount trialSpace) hermitian
      :: PrintedBounds
           (vec3_min (fst (gridBoundingBox testSpace))
                     (fst (gridBoundingBox trialSpace)))
           (vec3_max (snd (gridBoundingBox testSpace))
                     (snd (gridBoundingBox trialSpace)))
      :: rest).
  { unfold assembleDetachedWeakForm. cbv zeta.
    unfold pbind, emit, modify, pret, throw, call. rewrite Hguard.
    destruct (Octree_new _ _ _) as [octree| |];
      [|cbn [snd]; rewrite <- !app_assoc; eexists; reflexivity ..].
    destruct (assignPoints _ _ _) as [p2o| |];
      [|cbn [snd]; rewrite <- !app_assoc; eexists; reflexivity ..].
    destruct (cacheNearField _ _ _) as [[]| |];
      [|cbn [snd]; rewrite <- !app_assoc; eexists; reflexivity ..].
    destruct (cacheFarField _ _ _) as [[]| |];
      cbn [snd]; rewrite <- !app_assoc; eexists; reflexivity. }
  destruct Hrest as [rest Hrest]. exists rest.
  split; [exact Hrest|]. split; [reflexivity|]. split; [reflexivity|].
  unfold box_inside. cbn [fst snd].
  split; [split; [apply vec3_min_le_l | apply vec3_max_ge_l]|].
  split; [split; [apply vec3_min_le_r | apply vec3_max_ge_r]|].
  intros [lo hi] [Hlo1 Hhi1] [Hlo2 Hhi2]. cbn [fst snd] in *.
  unfold vec3_le, vec3_min, vec3_max in *. cbn [vx vy vz].
  destruct Hlo1 as (? & ? & ?), Hlo2 as (? & ? & ?),
           Hhi1 as (? & ? & ?), Hhi2 as (? & ? & ?).
  repeat split; (apply Rmin_glb || apply Rmax_lub); assumption.
Qed.

End Octree.

Section BoxRuns.

Import Examples.

(** X23 for a request that is not Hermitian, on spaces with 3 and 5
    DOFs. *)
Lemma printed_bounds_enclose_both_grids_run :
  exists lowerBound upperBound rest,
    snd (assembleDetachedWeakForm (V := R) (ENV := sample_environment)
           unit unit unit space_of_3_dofs space_of_5_dofs
           [] [] [] [] (mkContext 3) false tt [])
    = [] ++ PrintedDofCounts 3 5 false
         :: PrintedBounds lowerBound upperBound :: rest
    /\ lowerBound = vec3_min (fst (gridBoundingBox space_of_3_dofs))
                             (fst (gridBoundingBox space_of_5_dofs))
    /\ upperBound = vec3_max (snd (gridBoundingBox space_of_3_dofs))
                             (snd (gridBoundingBox space_of_5_dofs))
    /\ box_inside (gridBoundingBox space_of_3_dofs) (lowerBound, upperBound)
    /\ box_inside (gridBoundingBox space_of_5_dofs) (lowerBound, upperBound)
    /\ forall other,
         box_inside (gridBoundingBox space_of_3_dofs) other ->
         box_inside (gridBoundingBox space_of_5_dofs) other ->
         box_inside (lowerBound, upperBound) other.
Proof.
  exact (printed_bounds_enclose_both_grids (V := R)
           (ENV := sample_environment)
           unit unit unit space_of_3_dofs space_of_5_dofs [] [] [] []
           (mkContext 3) false tt [] (or_introl eq_refl)).
Defined.

End BoxRuns.

End AssemblerMoreFacts.

(** ** fmm_transform.cpp on doubles: [M2M] and [L2L] *)

Module FmmDoubleFacts.

Import Floats FmmDouble FloatFacts.
Local Open Scope float_scope.
Local Open Scope cxx_scope.

(** The offset between a finite point and itself has a zero projection
    on every finite direction. *)
Lemma dot_sub_self (p k : vec3) :
  finite_vec p = true -> finite_vec k = true ->
  is_zero (dot (vec3_sub p p) k) = true.
Proof.
  unfold finite_vec. intros Hp Hk.
  apply andb_prop in Hp as [Hp Hpz]. apply andb_prop in Hp as [Hpx Hpy].
  apply andb_prop in Hk as [Hk Hkz]. apply andb_prop in Hk as [Hkx Hky].
  unfold dot, vec3_sub; cbn [vx vy vz].
  repeat apply add_zero_zero; apply mul_zero_l; auto using sub_self_zero.
Qed.

#[export] Instance double_ZeroShift `{ExternalsAtZero}
  : ZeroShift float.
Proof.
  constructor. intros kappa z Hk Hz. cbn in *.
  rewrite exp_zero; [reflexivity|].
  apply mul_zero_r; [apply opp_finite; exact Hk | exact Hz].
Qed.

#[export] Instance complex_ZeroShift `{ExternalsAtZero}
  : ZeroShift complex.
Proof.
  constructor. intros [kr ki] z Hk Hz. cbn in *.
  apply andb_prop in Hk as [Hkr Hki].
  assert (Hzr : is_zero (- kr * z) = true)
    by (apply mul_zero_r; [apply opp_finite; exact Hkr | exact Hz]).
  assert (Hzi : is_zero (- ki * z) = true)
    by (apply mul_zero_r; [apply opp_finite; exact Hki | exact Hz]).
  rewrite cexp_zero by assumption. cbn.
  exact Hzi.
Qed.

Section Translation.

Context {V : Type} `{EX : Externals} `{VT : !ValueType V}.
Context `{ZS : !ZeroShift V}.

Lemma forallb_quadrature_loop {A} (P : A -> bool) (L : nat)
    (f : nat -> nat -> A) :
  (forall ntheta m, (ntheta < L + 1)%nat -> (m < 2 * L + 1)%nat ->
     P (f ntheta m) = true) ->
  forallb P (Fmm.quadrature_loop L f) = true.
Proof.
  intros Hf. apply forallb_forall. intros x Hin.
  unfold Fmm.quadrature_loop in Hin. apply in_flat_map in Hin.
  destruct Hin as (ntheta & Hn & Hin). apply in_map_iff in Hin.
  destruct Hin as (m & <- & Hm). apply in_seq in Hn, Hm.
  apply Hf; lia.
Qed.

(** C1 (as the code has it).  Take a level whose order [L] is stored and
    whose number of quadrature points fits an [unsigned int], a finite
    wavenumber, and quadrature directions with finite coordinates.  Then
    [M2M(c, p, level)] and [L2L(p, c, level)] return one entry per
    quadrature point for all positions [c] and [p]; and when [c] and [p]
    are the same finite position, every entry of each of the two
    transfer vectors compares equal to 1. *)
Theorem M2M_L2L_without_offset (fmm : FmmHighFreq V) (level L : nat) :
  order_of_level fmm level = Some L ->
  Fmm.point_count_fits L ->
  vfinite (m_kappa fmm) = true ->
  (forall ntheta m, (ntheta < L + 1)%nat -> (m < 2 * L + 1)%nat ->
     finite_vec (khat L ntheta m) = true) ->
  (forall c p, exists T1 T2,
     M2M fmm c p level = Returned T1
     /\ L2L fmm p c level = Returned T2
     /\ List.length T1 = ((L + 1) * (2 * L + 1))%nat
     /\ List.length T2 = ((L + 1) * (2 * L + 1))%nat)
  /\ (forall p, finite_vec p = true ->
      exists T1 T2,
        M2M fmm p p level = Returned T1
        /\ L2L fmm p p level = Returned T2
        /\ forallb is_one T1 = true
        /\ forallb is_one T2 = true).
Proof.
  unfold order_of_level, Fmm.point_count_fits, unsigned_int, L2L, M2M.
  intros -> Hfit Hkappa Hkhat. cbn [of_option bind].
  destruct (Z.ltb_spec (Z.of_nat ((L + 1) * (2 * L + 1))) (2 ^ 32)) as [_|Hge];
    [|lia].
  split.
  - intros c p. do 2 eexists.
    split; [reflexivity|]. split; [reflexivity|].
    split; apply FmmFacts.quadrature_loop_length.
  - intros p Hp. do 2 eexists.
    split; [reflexivity|]. split; [reflexivity|].
    split; apply forallb_quadrature_loop; intros ntheta m Hn Hm; cbv zeta;
      apply shift_by_zero; auto using dot_sub_self.
Qed.

End Translation.

Section DoubleRuns.

#[local] Existing Instance order_0_externals.

(** C1, counterexample.  Over [double] with wavenumber 1000 and one
    quadrature direction, (1, 0, 0), the shift from the origin to
    (1, 0, 0) is [exp(-1000)], which underflows to 0, and the shift back
    is [exp(1000)], which overflows to infinity: their product is NaN,
    not 1. *)
Lemma round_trip_overflows :
  khat 0 0 0 = mkVec3 1 0 0
  /\ M2M stiff_transform origin unit_x 2
     = Returned [0]
  /\ L2L stiff_transform unit_x origin 2
     = Returned [infinity]
  /\ schur [0] [infinity] = [nan]
  /\ ~ round_trip_is_identity
         stiff_transform origin unit_x 2.
Proof.
  split; [reflexivity|]. split; [reflexivity|]. split; [reflexivity|].
  split; [reflexivity|].
  intros (T1 & T2 & H1 & H2 & Hone).
  change (Returned [0] = Returned T1) in H1.
  change (Returned [infinity] = Returned T2) in H2.
  injection H1 as <-. injection H2 as <-.
  discriminate Hone.
Qed.

#[local] Instance order_0_at_zero : ExternalsAtZero.
Proof.
  constructor.
  - intros z Hz. cbn -[is_zero]. rewrite Hz. reflexivity.
  - intros zr zi Hr Hi. cbn -[is_zero]. rewrite Hr, Hi. reflexivity.
Qed.

(** C1 on [complex_transform], at the position (1, 2, 3). *)
Lemma M2M_L2L_without_offset_run :
  order_of_level complex_transform 2 = Some 0%nat
  /\ Fmm.point_count_fits 0
  /\ vfinite (m_kappa complex_transform) = true
  /\ finite_vec (khat 0 0 0) = true
  /\ finite_vec (mkVec3 1 2 3) = true
  /\ exists T1 T2,
       M2M complex_transform
           (mkVec3 1 2 3) (mkVec3 1 2 3) 2 = Returned T1
       /\ L2L complex_transform
              (mkVec3 1 2 3) (mkVec3 1 2 3) 2 = Returned T2
       /\ forallb is_one T1 = true
       /\ forallb is_one T2 = true.
Proof.
  assert (HL : order_of_level complex_transform 2 = Some 0%nat) by reflexivity.
  assert (Hp : Fmm.point_count_fits 0) by reflexivity.
  assert (Hk : vfinite (m_kappa complex_transform) = true) by reflexivity.
  assert (Hd : finite_vec (khat 0 0 0) = true)
    by reflexivity.
  assert (Hpos : finite_vec (mkVec3 1 2 3) = true) by reflexivity.
  split; [exact HL|]. split; [exact Hp|]. split; [exact Hk|].
  split; [exact Hd|]. split; [exact Hpos|].
  refine (proj2 (M2M_L2L_without_offset
                   complex_transform 2 0 HL Hp Hk _) (mkVec3 1 2 3) Hpos).
  intros ntheta m Hn Hm.
  replace ntheta with 0%nat by lia. replace m with 0%nat by lia. exact Hd.
Defined.

End DoubleRuns.

End FmmDoubleFacts.

(** ** Neighbour and interaction lists *)

Module OctreeFacts.

Import OctreeLists.

Ltac Zify.zify_post_hook ::= Z.div_mod_to_equations.

Section Lists.

Variable octree : Octree.

Lemma adjacent_index_spec (a b : nat) :
  adjacent_index a b = true <-> a <= b + 1 /\ b <= a + 1.
Proof.
  unfold adjacent_index. rewrite andb_true_iff, !Nat.leb_le. tauto.
Qed.

Lemma deMorton_succ (l n : nat) :
  deMorton (S l) n
  = (2 * fst (fst (deMorton l (n / 8))) + n mod 2,
     2 * snd (fst (deMorton l (n / 8))) + (n / 2) mod 2,
     2 * snd (deMorton l (n / 8)) + (n / 4) mod 2).
Proof.
  cbn [deMorton]. destruct (deMorton l (n / 8)) as [[x y] z]. reflexivity.
Qed.

Lemma touches_spec (level n m : nat) :
  touches level n m = true <->
  adjacent_index (fst (fst (deMorton level n))) (fst (fst (deMorton level m))) = true
  /\ adjacent_index (snd (fst (deMorton level n))) (snd (fst (deMorton level m))) = true
  /\ adjacent_index (snd (deMorton level n)) (snd (deMorton level m)) = true.
Proof.
  unfold touches.
  destruct (deMorton level n) as [[x y] z].
  destruct (deMorton level m) as [[x' y'] z'].
  cbn [fst snd]. rewrite !andb_true_iff. tauto.
Qed.

(** Boxes that touch have parents that touch (or coincide). *)
Lemma touches_parents (l n m : nat) :
  touches (S l) n m = true -> touches l (getParent n) (getParent m) = true.
Proof.
  unfold getParent. rewrite !touches_spec, !deMorton_succ. cbn [fst snd].
  rewrite !adjacent_index_spec. lia.
Qed.

(** The children of one box touch one another. *)
Lemma siblings_touch (l n m : nat) :
  getParent n = getParent m -> touches (S l) n m = true.
Proof.
  unfold getParent; intros Hp.
  rewrite touches_spec, !deMorton_succ, Hp. cbn [fst snd].
  rewrite !adjacent_index_spec. lia.
Qed.

Lemma in_children (m p : nat) : In m (children p) <-> p = getParent m.
Proof. unfold children, getParent. rewrite in_seq. lia. Qed.

Lemma parent_in_level (l m : nat) :
  m < getNodesPerLevel (S l) <-> getParent m < getNodesPerLevel l.
Proof.
  unfold getNodesPerLevel, getParent. rewrite Nat.pow_succ_r'. lia.
Qed.

Lemma list_sum_ge {A} (f : A -> nat) (x : A) (l : list A) :
  In x l -> f x <= list_sum (map f l).
Proof.
  unfold list_sum.
  induction l as [|y l IH]; cbn [map fold_right In]; [intros []|].
  intros [Heq | Hin]; [subst; lia|]. specialize (IH Hin). lia.
Qed.

(** A box with a non-empty child is not empty. *)
Lemma parent_not_empty (l m : nat) :
  S l <= levels octree ->
  isEmpty octree (S l) m = false -> isEmpty octree l (getParent m) = false.
Proof.
  unfold isEmpty, getDofCount; intros Hl Hm.
  apply Nat.eqb_neq in Hm. apply Nat.eqb_neq.
  replace (levels octree - l) with (S (levels octree - S l)) by lia.
  cbn [subtree_dofs].
  pose proof (list_sum_ge (subtree_dofs (leafDofCount octree) (levels octree - S l))
                m (children (getParent m))) as Hge.
  assert (Hin : In m (children (getParent m))) by (apply in_children; reflexivity).
  specialize (Hge Hin). lia.
Qed.

Lemma in_makeNeigbourList (level n m : nat) :
  In m (makeNeigbourList octree level n) <->
  isEmpty octree level n = false
  /\ m <> n /\ m < getNodesPerLevel level
  /\ touches level n m = true /\ isEmpty octree level m = false.
Proof.
  unfold makeNeigbourList.
  destruct (isEmpty octree level n) eqn:En.
  - cbn. split; [intros [] | intros [H _]; discriminate].
  - rewrite filter_In, in_seq, !andb_true_iff, !negb_true_iff, Nat.eqb_neq.
    split; [intros (H1 & (H2 & H3) & H4) | intros (_ & H2 & H3 & H4 & H5)];
      repeat split; auto; lia.
Qed.

Lemma in_makeInteractionList (l n m : nat) :
  In m (makeInteractionList octree (S l) n) <->
  isEmpty octree (S l) n = false
  /\ isEmpty octree (S l) m = false
  /\ ~ In m (makeNeigbourList octree (S l) n)
  /\ In (getParent m) (makeNeigbourList octree l (getParent n)).
Proof.
  unfold makeInteractionList.
  destruct (isEmpty octree (S l) n) eqn:En.
  - cbn. split; [intros [] | intros [H _]; discriminate].
  - rewrite filter_In, in_flat_map, andb_true_iff, !negb_true_iff.
    assert (Hex : existsb (Nat.eqb m) (makeNeigbourList octree (S l) n) = false
                  <-> ~ In m (makeNeigbourList octree (S l) n)).
    { rewrite <- not_true_iff_false, existsb_exists. split.
      - intros Hno Hin. apply Hno. exists m; split; [exact Hin|].
        apply Nat.eqb_refl.
      - intros Hno (x & Hin & Heq). apply Nat.eqb_eq in Heq. subst x. auto. }
    rewrite Hex. split.
    + intros ((p & Hp & Hc) & Hm & Hnot). apply in_children in Hc. subst p.
      auto.
    + intros (_ & Hm & Hnot & Hp). split; [|auto].
      exists (getParent m); split; [exact Hp|]. apply in_children; reflexivity.
Qed.

(** Below the root. *)
Lemma lists_below_root (l n : nat) :
  S l <= levels octree ->
  n < getNodesPerLevel (S l) ->
  isEmpty octree (S l) n = false ->
  let N := makeNeigbourList octree (S l) n in
  let I := makeInteractionList octree (S l) n in
  (forall m, ~ (In m N /\ In m I))
  /\ (forall m, In m N \/ In m I -> isEmpty octree (S l) m = false)
  /\ (forall m, In m N \/ In m I <->
                 m <> n /\ m < getNodesPerLevel (S l)
                 /\ isEmpty octree (S l) m = false
                 /\ (getParent m = getParent n
                     \/ In (getParent m)
                           (makeNeigbourList octree l (getParent n)))).
Proof.
  intros Hl Hn En N I. subst N I.
  assert (Ep : isEmpty octree l (getParent n) = false)
    by (apply parent_not_empty; assumption).
  split; [|split].
  - intros m [HN HI]. apply in_makeInteractionList in HI. tauto.
  - intros m [HN | HI].
    + apply in_makeNeigbourList in HN. tauto.
    + apply in_makeInteractionList in HI. tauto.
  - intros m. split.
    + intros [HN | HI].
      * apply in_makeNeigbourList in HN.
        destruct HN as (_ & Hne & Hm & Ht & Em).
        split; [exact Hne|]. split; [exact Hm|]. split; [exact Em|].
        destruct (Nat.eq_dec (getParent m) (getParent n)) as [Heq|Hdiff];
          [left; exact Heq | right].
        apply in_makeNeigbourList.
        split; [exact Ep|]. split; [exact Hdiff|].
        split; [apply parent_in_level; exact Hm|].
        split; [apply touches_parents; exact Ht|].
        apply parent_not_empty; assumption.
      * apply in_makeInteractionList in HI.
        destruct HI as (_ & Em & _ & Hp).
        pose proof Hp as Hp'. apply in_makeNeigbourList in Hp'.
        destruct Hp' as (_ & Hdiff & Hlt & _ & _).
        split; [|split; [|split]].
        -- intros Heq. apply Hdiff. now rewrite Heq.
        -- apply parent_in_level; exact Hlt.
        -- exact Em.
        -- right; exact Hp.
    + intros (Hne & Hm & Em & Hwhere).
      destruct (in_dec Nat.eq_dec m (makeNeigbourList octree (S l) n))
        as [HN | HnotN]; [left; exact HN|].
      destruct Hwhere as [Hsib | Hp].
      * left. apply in_makeNeigbourList.
        split; [exact En|]. split; [exact Hne|]. split; [exact Hm|].
        split; [|exact Em].
        apply siblings_touch. symmetry; exact Hsib.
      * right. apply in_makeInteractionList. auto.
Qed.

(** C6.  For a non-empty node, the neighbour list and the interaction
    list are disjoint, hold no empty box, and together are exactly the
    non-empty boxes of the level, other than the node itself, that are
    children of the boxes around the node's parent: the parent, whose
    other children are the non-self boxes nearest to the node, and the
    boxes of the parent's neighbour list. *)
Theorem lists_partition_children_of_parent_and_its_neighbours (level n : nat) :
  level <= levels octree ->
  n < getNodesPerLevel level ->
  isEmpty octree level n = false ->
  let N := makeNeigbourList octree level n in
  let I := makeInteractionList octree level n in
  (forall m, ~ (In m N /\ In m I))
  /\ (forall m, In m N \/ In m I -> isEmpty octree level m = false)
  /\ (forall m, In m N \/ In m I <->
                 m <> n /\ m < getNodesPerLevel level
                 /\ isEmpty octree level m = false
                 /\ (getParent m = getParent n
                     \/ In (getParent m)
                           (makeNeigbourList octree (level - 1) (getParent n)))).
Proof.
  destruct level as [|l].
  - intros _ Hn En N I. subst N I.
    unfold getNodesPerLevel in *. cbn [Nat.pow] in *.
    assert (HI : makeInteractionList octree 0 n = [])
      by (unfold makeInteractionList; destruct (isEmpty octree 0 n); reflexivity).
    assert (HN : forall m, ~ In m (makeNeigbourList octree 0 n)).
    { intros m Hin. apply in_makeNeigbourList in Hin.
      unfold getNodesPerLevel in Hin. cbn [Nat.pow] in Hin. lia. }
    rewrite HI. split; [|split].
    + intros m [_ []].
    + intros m [Hin | []]. destruct (HN m Hin).
    + intros m; split.
      * intros [Hin | []]. destruct (HN m Hin).
      * intros (Hne & Hm & _). lia.
  - replace (S l - 1) with l by lia. apply lists_below_root.
Qed.

End Lists.

Section Runs.

Import Examples.

(** C6 on box 7 of the octree of depth 2, the box at position (1, 1, 1)
    of the leaf level: all 26 boxes around it are its neighbours, and
    the interaction list holds the 36 other non-empty leaves. *)
Lemma lists_partition_children_of_parent_and_its_neighbours_run :
  2 <= levels octree_of_depth_2
  /\ 7 < getNodesPerLevel 2
  /\ isEmpty octree_of_depth_2 2 7 = false
  /\ List.length (makeNeigbourList octree_of_depth_2 2 7) = 26
  /\ List.length (makeInteractionList octree_of_depth_2 2 7) = 36
  /\ (forall m, ~ (In m (makeNeigbourList octree_of_depth_2 2 7)
                   /\ In m (makeInteractionList octree_of_depth_2 2 7)))
  /\ (forall m,
        In m (makeNeigbourList octree_of_depth_2 2 7)
        \/ In m (makeInteractionList octree_of_depth_2 2 7) ->
        isEmpty octree_of_depth_2 2 m = false)
  /\ (forall m,
        In m (makeNeigbourList octree_of_depth_2 2 7)
        \/ In m (makeInteractionList octree_of_depth_2 2 7) <->
        m <> 7 /\ m < getNodesPerLevel 2
        /\ isEmpty octree_of_depth_2 2 m = false
        /\ (getParent m = getParent 7
            \/ In (getParent m)
                  (makeNeigbourList octree_of_depth_2 1 (getParent 7)))).
Proof.
  assert (H1 : 2 <= levels octree_of_depth_2) by (cbn; lia).
  assert (H2 : 7 < getNodesPerLevel 2) by (cbn; lia).
  assert (H3 : isEmpty octree_of_depth_2 2 7 = false) by reflexivity.
  split; [exact H1|]. split; [exact H2|]. split; [exact H3|].
  split; [vm_compute; reflexivity|]. split; [vm_compute; reflexivity|].
  exact (lists_partition_children_of_parent_and_its_neighbours
           octree_of_depth_2 2 7 H1 H2 H3).
Defined.

End Runs.

End OctreeFacts.
